(** * Credential rotation, model fallback and protocol translation of the
      Gemini / OpenAI bridge server: a shallow embedding and its properties.

    The development follows the TypeScript sources of [bridge-server/src]:
    - [rotation/ApiKeyRotationManager.ts], [rotation/RotationService.ts]
    - [fallback/errorDetection.ts], [fallback/FallbackService.ts],
      [fallback/FallbackManager.ts], [fallback/SqliteFallbackPersistence.ts]
    - [gemini-client.ts]

    Conventions.  A time is a number of milliseconds, an integer of [Z];
    [new Date()] and [Date.now()] are the argument [now] of the call that
    reads the clock.  Counters are natural numbers.  A property that may
    be [undefined] is an [option].  A method that mutates [this] takes the
    object and returns the new one; an exception is a value of the result
    type. *)

From Stdlib Require Import ZArith String Ascii Bool Lia DecimalNat DecimalFacts
  DecimalString.
From stdpp Require Import base list strings gmap.

Local Open Scope string_scope.

(** ** rotation/types.ts and rotation/ApiKeyRotationManager.ts *)

Module Rotation.

(** [ApiKeyInfo.status]. *)
Inductive KeyStatus : Type :=
| active
| failed
| cooldown.

#[export] Instance KeyStatus_eq_dec : EqDecision KeyStatus.
Proof. solve_decision. Defined.

(** The value of a date property, with its time in milliseconds.  It is a
    [Date] object when the manager wrote it, and the ISO string of a date
    when [restoreState] copied it from the persistence file: [JSON.parse]
    revives no date. *)
Inductive DateValue : Type :=
| dateObject (ms : Z)
| isoString (ms : Z).

Definition timeOf (d : DateValue) : Z :=
  match d with
  | dateObject ms => ms
  | isoString ms => ms
  end.

Record ApiKeyInfo : Type := mkApiKeyInfo {
  key : string;
  status : KeyStatus;
  requestCount : nat;
  successCount : nat;
  failureCount : nat;
  consecutiveFailures : nat;
  lastUsed : option DateValue;
  lastSuccess : option DateValue;
  lastFailure : option DateValue;
  cooldownUntil : option DateValue;
  lastError : option string
}.

(** A key as the persistence file holds it.  [JSON.stringify] writes a
    [Date] as the ISO string of its time and a string as it is, so a date
    property is there by its time; a property that is [undefined] is left
    out. *)
Record PersistedKey : Type := mkPersistedKey {
  pk_key : string;
  pk_status : KeyStatus;
  pk_requestCount : nat;
  pk_successCount : nat;
  pk_failureCount : nat;
  pk_consecutiveFailures : nat;
  pk_lastUsed : option Z;
  pk_lastSuccess : option Z;
  pk_lastFailure : option Z;
  pk_cooldownUntil : option Z;
  pk_lastError : option string
}.

Definition toPersisted (k : ApiKeyInfo) : PersistedKey :=
  mkPersistedKey (key k) (status k) (requestCount k) (successCount k)
    (failureCount k) (consecutiveFailures k) (timeOf <$> lastUsed k)
    (timeOf <$> lastSuccess k) (timeOf <$> lastFailure k)
    (timeOf <$> cooldownUntil k) (lastError k).

(** [RotationConfig.strategy]. *)
Inductive Strategy : Type :=
| round_robin
| random
| least_used.

Record RotationConfig : Type := mkRotationConfig {
  strategy : Strategy;
  maxConsecutiveFailures : nat;
  cooldownPeriod : Z;
  accounts : list string   (* multiAccount.accounts, by their apiKey *)
}.

Record PersistenceData : Type := mkPersistenceData {
  pd_currentIndex : nat;
  pd_lastUsedTime : Z;
  pd_totalRequests : nat;
  pd_keys : list PersistedKey
}.

(** The fields of [ApiKeyRotationManager]; [persisted] is the content of
    the persistence file ([None]: no file yet). *)
Record Manager : Type := mkManager {
  keys : list ApiKeyInfo;
  currentIndex : nat;
  totalRequests : nat;
  config : RotationConfig;
  persisted : option PersistenceData
}.

(** What a call that may throw gives back, with the manager it leaves. *)
Inductive Outcome : Type :=
| Returned (apiKey : string) (m : Manager)
| Thrown (msg : string) (m : Manager).

Definition set_keys (m : Manager) (ks : list ApiKeyInfo) : Manager :=
  mkManager ks (currentIndex m) (totalRequests m) (config m) (persisted m).

Definition set_currentIndex (m : Manager) (i : nat) : Manager :=
  mkManager (keys m) i (totalRequests m) (config m) (persisted m).

(** [initializeApiKeys]: one fresh record per configured account. *)
Definition freshKey (k : string) : ApiKeyInfo :=
  mkApiKeyInfo k active 0 0 0 0 None None None None None.

(** [saveState]: a snapshot of the manager, as JSON text, replaces the
    file. *)
Definition saveState (m : Manager) (now : Z) : Manager :=
  mkManager (keys m) (currentIndex m) (totalRequests m) (config m)
    (Some (mkPersistenceData (currentIndex m) now (totalRequests m)
             (toPersisted <$> keys m))).

(** [Object.assign] of one property that holds a date in the file: the
    key gets the string of the file, and keeps its own value where the
    file has none. *)
Definition assignDate (own : option DateValue) (persistedTime : option Z)
  : option DateValue :=
  match persistedTime with
  | Some ms => Some (isoString ms)
  | None => own
  end.

(** [restoreState]: [Object.assign] writes the persisted properties over
    each key and keeps the configured [key]; a file with another number of
    keys is ignored. *)
Definition restoreKey (k : ApiKeyInfo) (persistedKey : PersistedKey)
  : ApiKeyInfo :=
  mkApiKeyInfo (key k) (pk_status persistedKey) (pk_requestCount persistedKey)
    (pk_successCount persistedKey) (pk_failureCount persistedKey)
    (pk_consecutiveFailures persistedKey)
    (assignDate (lastUsed k) (pk_lastUsed persistedKey))
    (assignDate (lastSuccess k) (pk_lastSuccess persistedKey))
    (assignDate (lastFailure k) (pk_lastFailure persistedKey))
    (assignDate (cooldownUntil k) (pk_cooldownUntil persistedKey))
    (match pk_lastError persistedKey with
     | Some e => Some e
     | None => lastError k
     end).

Definition restoreState (m : Manager) (data : PersistenceData) : Manager :=
  if (length (pd_keys data) =? length (keys m))%nat then
    mkManager (zip_with restoreKey (keys m) (pd_keys data))
      (pd_currentIndex data) (pd_totalRequests data) (config m) (persisted m)
  else m.

(** The constructor followed by [initialize]: the keys of the
    configuration at index 0, the state of the file [file] when there is
    one, and a first [saveState].  [initializeApiKeys] throws on an empty
    list, here [None]. *)
Definition initialize (c : RotationConfig) (file : option PersistenceData)
           (now : Z) : option Manager :=
  match accounts c with
  | [] => None
  | _ =>
      let fresh := mkManager (map freshKey (accounts c)) 0 0 c file in
      Some (saveState (match file with
                       | Some data => restoreState fresh data
                       | None => fresh
                       end) now)
  end.

(** [new Date() < cooldownUntil].  Against a [Date] the times are
    compared; against a string the comparison is one of numbers, the
    string of a date is read as [NaN], and the answer is false. *)
Definition beforeDate (now : Z) (d : DateValue) : bool :=
  match d with
  | dateObject ms => (now <? ms)%Z
  | isoString _ => false
  end.

(** [isKeyAvailable]: the answer and the key as the call leaves it (the
    method writes [status] and [cooldownUntil] of the object it is given). *)
Definition isKeyAvailable (k : ApiKeyInfo) (now : Z) : bool * ApiKeyInfo :=
  match status k with
  | failed =>
      match cooldownUntil k with
      | Some cu =>
          if beforeDate now cu then (false, k)
          else (true,
                mkApiKeyInfo (key k) active (requestCount k) (successCount k)
                  (failureCount k) (consecutiveFailures k) (lastUsed k)
                  (lastSuccess k) (lastFailure k) None (lastError k))
      | None =>
          (true,
           mkApiKeyInfo (key k) active (requestCount k) (successCount k)
             (failureCount k) (consecutiveFailures k) (lastUsed k)
             (lastSuccess k) (lastFailure k) None (lastError k))
      end
  | active => (true, k)
  | cooldown => (false, k)
  end.

(** A key in its cooldown period at time [now]. *)
Definition coolingDown (k : ApiKeyInfo) (now : Z) : Prop :=
  status k = failed
  /\ exists cu, cooldownUntil k = Some (dateObject cu) /\ (now < cu)%Z.

(** [updateKeyUsage], on the key at the current index. *)
Definition bumpUsage (k : ApiKeyInfo) (now : Z) : ApiKeyInfo :=
  mkApiKeyInfo (key k) (status k) (S (requestCount k)) (successCount k)
    (failureCount k) (consecutiveFailures k) (Some (dateObject now))
    (lastSuccess k) (lastFailure k) (cooldownUntil k) (lastError k).

Definition updateKeyUsage (m : Manager) (k : ApiKeyInfo) (now : Z) : Manager :=
  mkManager (<[currentIndex m := bumpUsage k now]> (keys m)) (currentIndex m)
    (S (totalRequests m)) (config m) (persisted m).

(** [findLeastUsedKeyIndex]: [minUsage] starts at [Infinity], here [None]. *)
Fixpoint leastUsedFrom (ks : list ApiKeyInfo) (index : nat)
         (minUsage : option nat) (minIndex : nat) : nat :=
  match ks with
  | [] => minIndex
  | k :: rest =>
      let better :=
        match status k, minUsage with
        | active, None => true
        | active, Some u => (requestCount k <? u)%nat
        | _, _ => false
        end in
      if better then leastUsedFrom rest (S index) (Some (requestCount k)) index
      else leastUsedFrom rest (S index) minUsage minIndex
  end.

Definition findLeastUsedKeyIndex (m : Manager) : nat :=
  leastUsedFrom (keys m) 0 None 0.

(** [moveToNextKey]; [r] is the value of [Math.random()] scaled to the
    number of keys, used by the random strategy only. *)
Definition moveToNextKey (m : Manager) (r : nat) : Manager :=
  match strategy (config m) with
  | round_robin => set_currentIndex m ((currentIndex m + 1) mod length (keys m))
  | random => set_currentIndex m (r mod length (keys m))
  | least_used => set_currentIndex m (findLeastUsedKeyIndex m)
  end.

(** The [while (attempts < maxAttempts)] loop of [getNextApiKey];
    [left] is [maxAttempts - attempts]. *)
Fixpoint rotate (left attempts : nat) (m : Manager) (now : Z)
         (rnd : nat -> nat) : Outcome :=
  match left with
  | 0 => Thrown "No available API keys found" m
  | S left' =>
      match keys m !! currentIndex m with
      | None => Thrown "TypeError: currentKey is undefined" m
      | Some currentKey =>
          let '(ok, k') := isKeyAvailable currentKey now in
          let m1 := set_keys m (<[currentIndex m := k']> (keys m)) in
          if ok then
            Returned (key k') (saveState (updateKeyUsage m1 k' now) now)
          else
            rotate left' (S attempts) (moveToNextKey m1 (rnd attempts)) now rnd
      end
  end.

Definition getNextApiKey (m : Manager) (now : Z) (rnd : nat -> nat) : Outcome :=
  match keys m with
  | [] => Thrown "No API keys available" m
  | _ => rotate (length (keys m)) 0 m now rnd
  end.

(** The two branches of [reportKeyUsage] on the key found. *)
Definition recordSuccess (k : ApiKeyInfo) (now : Z) : ApiKeyInfo :=
  mkApiKeyInfo (key k)
    (match status k with failed => active | s => s end)
    (requestCount k) (S (successCount k)) (failureCount k) 0
    (lastUsed k) (Some (dateObject now)) (lastFailure k) (cooldownUntil k)
    (lastError k).

Definition recordFailure (c : RotationConfig) (k : ApiKeyInfo)
           (errorType : option string) (now : Z) : ApiKeyInfo :=
  let n := S (consecutiveFailures k) in
  if (maxConsecutiveFailures c <=? n)%nat then
    mkApiKeyInfo (key k) failed (requestCount k) (successCount k)
      (S (failureCount k)) n (lastUsed k) (lastSuccess k)
      (Some (dateObject now))
      (Some (dateObject (now + cooldownPeriod c))) errorType
  else
    mkApiKeyInfo (key k) (status k) (requestCount k) (successCount k)
      (S (failureCount k)) n (lastUsed k) (lastSuccess k)
      (Some (dateObject now))
      (cooldownUntil k) errorType.

(** [reportKeyUsage]: [this.keys.find] gives the first record with the
    key, which is then updated in place. *)
Definition reportKeyUsage (m : Manager) (apiKey : string) (success : bool)
           (errorType : option string) (now : Z) : Manager :=
  match list_find (fun k => key k = apiKey) (keys m) with
  | None => m
  | Some (i, keyInfo) =>
      let k' := if success then recordSuccess keyInfo now
                else recordFailure (config m) keyInfo errorType now in
      saveState (set_keys m (<[i := k']> (keys m))) now
  end.

(** [resetAllKeys]. *)
Definition resetKey (k : ApiKeyInfo) : ApiKeyInfo :=
  mkApiKeyInfo (key k) active (requestCount k) (successCount k)
    (failureCount k) 0 (lastUsed k) (lastSuccess k) (lastFailure k) None None.

Definition resetAllKeys (m : Manager) (now : Z) : Manager :=
  saveState (set_keys m (map resetKey (keys m))) now.

(** Successive [getNextApiKey] calls at the given times, with the keys
    they return ([None] for a call that throws). *)
Fixpoint acquisitions (m : Manager) (times : list Z) (rnd : nat -> nat)
  : list (option string) * Manager :=
  match times with
  | [] => ([], m)
  | now :: rest =>
      match getNextApiKey m now rnd with
      | Returned k m' =>
          let '(ks, m'') := acquisitions m' rest rnd in (Some k :: ks, m'')
      | Thrown _ m' =>
          let '(ks, m'') := acquisitions m' rest rnd in (None :: ks, m'')
      end
  end.

(** *** The queries of the manager *)

(** The string value of a strategy. *)
Definition strategyName (s : Strategy) : string :=
  match s with
  | round_robin => "round-robin"
  | random => "random"
  | least_used => "least-used"
  end.

(** [RotationStatus], with the properties [getRotationStatus] fills. *)
Record RotationStatus : Type := mkRotationStatus {
  totalKeys : nat;
  rs_currentIndex : nat;
  activeKeys : nat;
  failedKeys : nat;
  rs_totalRequests : nat;
  rs_strategy : string;
  rs_isEnabled : bool
}.

(** [this.keys.filter(k => k.status === s).length]. *)
Definition countStatus (s : KeyStatus) (ks : list ApiKeyInfo) : nat :=
  length (filter (fun k => status k = s) ks).

(** [getRotationStatus]. *)
Definition getRotationStatus (m : Manager) : RotationStatus :=
  mkRotationStatus (length (keys m)) (currentIndex m)
    (countStatus active (keys m)) (countStatus failed (keys m))
    (totalRequests m) (strategyName (strategy (config m))) true.

(** One entry of [UsageStats.keyStats]. *)
Record KeyStats : Type := mkKeyStats {
  requests : nat;
  successes : nat;
  failures : nat;
  ks_lastUsed : DateValue
}.

Record UsageStats : Type := mkUsageStats {
  us_totalRequests : nat;
  totalSuccesses : nat;
  totalFailures : nat;
  successfulRequests : nat;
  failedRequests : nat;
  averageResponseTime : nat;
  keyStats : list (string * KeyStats)
}.

(** The property name [`key_${index}`]. *)
Definition keyStatsName (index : nat) : string :=
  "key_" ++ NilEmpty.string_of_uint (Nat.to_uint index).

(** [getUsageStats]; a key never used shows the time of the call. *)
Definition getUsageStats (m : Manager) (now : Z) : UsageStats :=
  let totalSuccesses := list_sum (successCount <$> keys m) in
  let totalFailures := list_sum (failureCount <$> keys m) in
  mkUsageStats (totalRequests m) totalSuccesses totalFailures
    totalSuccesses totalFailures 0
    (imap (fun index k =>
             (keyStatsName index,
              mkKeyStats (requestCount k) (successCount k) (failureCount k)
                (match lastUsed k with
                 | Some t => t
                 | None => dateObject now
                 end)))
          (keys m)).

(** *** Sequences of calls *)

(** A call of one of the three methods that write the state; an
    acquisition comes with the random numbers it draws. *)
Inductive Call : Type :=
| Acquire (now : Z) (rnd : nat -> nat)
| Report (apiKey : string) (success : bool) (errorType : option string) (now : Z)
| ResetAll (now : Z).

(** The manager a call leaves, whether it returns or throws. *)
Definition after (m : Manager) (c : Call) : Manager :=
  match c with
  | Acquire now rnd =>
      match getNextApiKey m now rnd with
      | Returned _ m' => m'
      | Thrown _ m' => m'
      end
  | Report apiKey success errorType now =>
      reportKeyUsage m apiKey success errorType now
  | ResetAll now => resetAllKeys m now
  end.

Definition afterAll (m : Manager) (calls : list Call) : Manager :=
  fold_left after calls m.

(** [times.length] failures of one key reported in a row. *)
Definition reportFailures (m : Manager) (apiKey : string)
           (errorType : option string) (times : list Z) : Manager :=
  fold_left (fun m now => reportKeyUsage m apiKey false errorType now) times m.

(** Whether [isKeyAvailable] answers true for the key at time [now]. *)
Definition available (k : ApiKeyInfo) (now : Z) : bool :=
  fst (isKeyAvailable k now).

(** [requestCount < minUsage], with [Infinity] for [None]. *)
Definition below (n : nat) (minUsage : option nat) : Prop :=
  match minUsage with
  | None => True
  | Some u => n < u
  end.

(** What the calls keep of a manager of the configuration [c]: its keys
    are the configured ones, its index is within them, the total is the
    sum of the counts, and the file is in step with the memory. *)
Definition consistent (c : RotationConfig) (m : Manager) : Prop :=
  config m = c
  /\ key <$> keys m = accounts c
  /\ currentIndex m < length (keys m)
  /\ Forall (fun k => status k = active \/ status k = failed) (keys m)
  /\ totalRequests m = list_sum (requestCount <$> keys m)
  /\ exists d, persisted m = Some d
       /\ pd_keys d = toPersisted <$> keys m
       /\ pd_totalRequests d = totalRequests m.

(** The index of the file is the index in memory. *)
Definition indexSaved (m : Manager) : Prop :=
  exists d, persisted m = Some d /\ pd_currentIndex d = currentIndex m.

End Rotation.

(** ** types/fallback.ts and fallback/errorDetection.ts *)

Module ErrorDetection.

(** The [ErrorType] enumeration. *)
Inductive ErrorType : Type :=
| QUOTA_EXCEEDED
| RATE_LIMIT
| PRO_QUOTA_EXCEEDED
| GENERIC_QUOTA_EXCEEDED
| SERVER_ERROR
| NETWORK_ERROR
| UNKNOWN_ERROR
| UNKNOWN.

#[export] Instance ErrorType_eq_dec : EqDecision ErrorType.
Proof. solve_decision. Defined.

(** An error thrown by the backend: an instance of [Error] with its
    message, an optional numeric [status] and an optional numeric
    [response.status]. *)
Record JsError : Type := mkJsError {
  status : option Z;
  responseStatus : option Z;
  message : string
}.

(** *** Strings: [toLowerCase], [includes] and the status pattern *)

Definition between (lo hi : nat) (c : ascii) : bool :=
  (lo <=? nat_of_ascii c)%nat && (nat_of_ascii c <=? hi)%nat.

Definition isUpper : ascii -> bool := between 65 90.
Definition isLower : ascii -> bool := between 97 122.
Definition isDigit : ascii -> bool := between 48 57.

(** A word character of a regular expression: [[A-Za-z0-9_]]. *)
Definition isWordChar (c : ascii) : bool :=
  isUpper c || isLower c || isDigit c || (nat_of_ascii c =? 95)%nat.

Definition lowerChar (c : ascii) : ascii :=
  if isUpper c then ascii_of_nat (nat_of_ascii c + 32) else c.

Fixpoint toLowerCase (s : string) : string :=
  match s with
  | EmptyString => EmptyString
  | String c s' => String (lowerChar c) (toLowerCase s')
  end.

(** [haystack.includes(needle)]. *)
Fixpoint includes (haystack needle : string) : bool :=
  if String.prefix needle haystack then true
  else match haystack with
       | EmptyString => false
       | String _ rest => includes rest needle
       end.

(** [keywords.some(keyword => lowerMessage.includes(keyword))]. *)
Definition someIncluded (lowerMessage : string) (keywords : list string) : bool :=
  existsb (includes lowerMessage) keywords.

Definition digitValue (c : ascii) : Z := Z.of_nat (nat_of_ascii c - 48).

(** Three digits at the head of [s], not followed by a word character. *)
Definition threeDigits (s : string) : option Z :=
  match s with
  | String a (String b (String c rest)) =>
      if isDigit a && isDigit b && isDigit c
         && negb (match rest with
                  | EmptyString => false
                  | String d _ => isWordChar d
                  end)
      then Some (100 * digitValue a + 10 * digitValue b + digitValue c)%Z
      else None
  | _ => None
  end.

(** The first match of [/\b(\d{3})\b/] in [s], read as a number;
    [prevWord] tells whether the character before [s] is a word
    character. *)
Fixpoint statusMatch (prevWord : bool) (s : string) : option Z :=
  match s with
  | EmptyString => None
  | String c rest =>
      match (if prevWord then None else threeDigits s) with
      | Some n => Some n
      | None => statusMatch (isWordChar c) rest
      end
  end.

(** [getErrorStatus]. *)
Definition getErrorStatus (error : JsError) : option Z :=
  match status error with
  | Some s => Some s
  | None =>
      match responseStatus error with
      | Some s => Some s
      | None =>
          match statusMatch false (message error) with
          | Some s => if (100 <=? s)%Z && (s <? 600)%Z then Some s else None
          | None => None
          end
      end
  end.

(** *** The predicates *)

Definition quotaKeywords : list string :=
  ["quota exceeded"; "quota limit"; "daily quota"; "usage limit";
   "rate limit exceeded"; "too many requests"].

Definition rateLimitKeywords : list string :=
  ["429"; "rate limit"; "too many requests"; "request limit"; "throttled"].

Definition proQuotaKeywords : list string :=
  ["pro quota"; "pro model quota"; "gemini-pro quota";
   "gemini-2.5-pro quota"; "pro daily quota"].

Definition isQuotaExceededError (error : JsError) : bool :=
  someIncluded (toLowerCase (message error)) quotaKeywords.

Definition isRateLimitError (error : JsError) : bool :=
  match getErrorStatus error with
  | Some 429%Z => true
  | _ => someIncluded (toLowerCase (message error)) rateLimitKeywords
  end.

Definition isProQuotaExceededError (error : JsError) : bool :=
  someIncluded (toLowerCase (message error)) proQuotaKeywords.

Definition isGenericQuotaExceededError (error : JsError) : bool :=
  if isProQuotaExceededError error then false
  else isQuotaExceededError error.

Definition isServerError (error : JsError) : bool :=
  match getErrorStatus error with
  | Some s => (500 <=? s)%Z && (s <? 600)%Z
  | None => false
  end.

(** The inline network check of [getErrorType]. *)
Definition isNetworkWording (error : JsError) : bool :=
  let lowerMessage := toLowerCase (message error) in
  includes lowerMessage "network" || includes lowerMessage "connection"
  || includes lowerMessage "timeout".

(** [getErrorType]. *)
Definition getErrorType (error : JsError) : ErrorType :=
  if isProQuotaExceededError error then PRO_QUOTA_EXCEEDED
  else if isGenericQuotaExceededError error then GENERIC_QUOTA_EXCEEDED
  else if isRateLimitError error then RATE_LIMIT
  else if isServerError error then SERVER_ERROR
  else if isNetworkWording error then NETWORK_ERROR
  else UNKNOWN_ERROR.

Definition fallbackTriggerTypes : list ErrorType :=
  [QUOTA_EXCEEDED; RATE_LIMIT; PRO_QUOTA_EXCEEDED; GENERIC_QUOTA_EXCEEDED;
   SERVER_ERROR].

(** [shouldTriggerFallback] of errorDetection.ts. *)
Definition shouldTriggerFallback (error : JsError) : bool :=
  bool_decide (getErrorType error ∈ fallbackTriggerTypes).

(** The string value of an [ErrorType], as [triggerConditions] spells
    the kinds. *)
Definition errorTypeName (t : ErrorType) : string :=
  match t with
  | QUOTA_EXCEEDED => "quota_exceeded"
  | RATE_LIMIT => "rate_limit"
  | PRO_QUOTA_EXCEEDED => "pro_quota_exceeded"
  | GENERIC_QUOTA_EXCEEDED => "generic_quota_exceeded"
  | SERVER_ERROR => "server_error"
  | NETWORK_ERROR => "network_error"
  | UNKNOWN_ERROR => "unknown_error"
  | UNKNOWN => "unknown"
  end.

(** The last character of [pre], if any, is not a word character. *)
Definition endsOutsideWord (prevWord : bool) (pre : string) : Prop :=
  (pre = "" -> prevWord = false)
  /\ forall pre' d, pre = pre' ++ String d "" -> isWordChar d = false.

End ErrorDetection.

(** ** JSON documents *)

Module Json.

(** A JSON document.  An object keeps its members in insertion order, as
    [JSON.stringify] writes them and [JSON.parse] reads them. *)
#[warnings="-register-all"]
Inductive json : Type :=
| JNull
| JBool (b : bool)
| JNum (n : nat)
| JStr (s : string)
| JArr (items : list json)
| JObj (members : list (string * json)).

(** [obj[name]] on a parsed object: the member of that name, if any. *)
Fixpoint member (name : string) (members : list (string * json)) : option json :=
  match members with
  | [] => None
  | (k, v) :: rest => if String.eqb k name then Some v else member name rest
  end.

(** The two built-ins the persistence layer calls.  [parse] gives [None]
    where [JSON.parse] throws a [SyntaxError]. *)
Class Codec : Type := mkCodec {
  stringify : json -> string;
  parse : string -> option json;
  parse_stringify : forall j, parse (stringify j) = Some j
}.

End Json.

(** ** types/fallback.ts, fallback/SqliteFallbackPersistence.ts *)

Module Persistence.
Import ErrorDetection Json.

Record LastError : Type := mkLastError {
  le_message : string;
  le_timestamp : string;
  le_type : ErrorType
}.

(** [FallbackState]; the time stamps are ISO strings. *)
Record FallbackState : Type := mkFallbackState {
  isInFallbackMode : bool;
  fallbackStartTime : option string;
  consecutiveFailures : nat;
  lastSwitchReason : option string;
  currentModel : string;
  fallbackModel : string;
  lastSwitchTime : option string;
  switchCount : nat;
  lastError : option LastError;
  lastUpdated : string
}.

(** [{...state, lastUpdated: now}]. *)
Definition withLastUpdated (s : FallbackState) (now : string) : FallbackState :=
  mkFallbackState (isInFallbackMode s) (fallbackStartTime s)
    (consecutiveFailures s) (lastSwitchReason s) (currentModel s)
    (fallbackModel s) (lastSwitchTime s) (switchCount s) (lastError s) now.

(** *** The state as a JSON document *)

Definition typeOfName (name : string) : option ErrorType :=
  List.find (fun t => String.eqb (errorTypeName t) name)
    [QUOTA_EXCEEDED; RATE_LIMIT; PRO_QUOTA_EXCEEDED; GENERIC_QUOTA_EXCEEDED;
     SERVER_ERROR; NETWORK_ERROR; UNKNOWN_ERROR; UNKNOWN].

(** A property that holds [undefined] is left out by [JSON.stringify]. *)
Definition optional (name : string) (v : option string)
  : list (string * json) :=
  match v with
  | Some s => [(name, JStr s)]
  | None => []
  end.

(** A property that holds [null] is written as [null]. *)
Definition nullable (v : option string) : json :=
  match v with
  | Some s => JStr s
  | None => JNull
  end.

Definition lastErrorToJson (e : option LastError) : json :=
  match e with
  | None => JNull
  | Some e =>
      JObj [("message", JStr (le_message e));
            ("timestamp", JStr (le_timestamp e));
            ("type", JStr (errorTypeName (le_type e)))]
  end.

(** The document [JSON.stringify] writes for a state: the properties of
    the object literal in the constructor of [FallbackService], in its
    order, then the two optional ones when they are set. *)
Definition stateToJson (s : FallbackState) : json :=
  JObj ([("isInFallbackMode", JBool (isInFallbackMode s));
         ("currentModel", JStr (currentModel s));
         ("fallbackModel", JStr (fallbackModel s));
         ("lastSwitchTime", nullable (lastSwitchTime s));
         ("switchCount", JNum (switchCount s));
         ("consecutiveFailures", JNum (consecutiveFailures s));
         ("lastError", lastErrorToJson (lastError s));
         ("lastUpdated", JStr (lastUpdated s))]
        ++ optional "fallbackStartTime" (fallbackStartTime s)
        ++ optional "lastSwitchReason" (lastSwitchReason s)).

Definition getBool (name : string) (o : list (string * json)) : option bool :=
  match member name o with Some (JBool b) => Some b | _ => None end.

Definition getNum (name : string) (o : list (string * json)) : option nat :=
  match member name o with Some (JNum n) => Some n | _ => None end.

Definition getStr (name : string) (o : list (string * json)) : option string :=
  match member name o with Some (JStr s) => Some s | _ => None end.

(** A string or [null]; an absent property does not have the shape. *)
Definition getNullable (name : string) (o : list (string * json))
  : option (option string) :=
  match member name o with
  | Some (JStr s) => Some (Some s)
  | Some JNull => Some None
  | _ => None
  end.

(** A string or nothing at all ([undefined] when read). *)
Definition getOptional (name : string) (o : list (string * json))
  : option (option string) :=
  match member name o with
  | Some (JStr s) => Some (Some s)
  | None => Some None
  | _ => None
  end.

Definition getLastError (o : list (string * json)) : option (option LastError) :=
  match member "lastError" o with
  | Some JNull => Some None
  | Some (JObj e) =>
      match getStr "message" e, getStr "timestamp" e, getStr "type" e with
      | Some m, Some t, Some ty =>
          match typeOfName ty with
          | Some ty => Some (Some (mkLastError m t ty))
          | None => None
          end
      | _, _, _ => None
      end
  | _ => None
  end.

(** The parsed document read back as a [FallbackState]: [None] when it
    does not have the shape of one. *)
Definition stateOfJson (j : json) : option FallbackState :=
  match j with
  | JObj o =>
      match getBool "isInFallbackMode" o, getOptional "fallbackStartTime" o,
            getNum "consecutiveFailures" o, getOptional "lastSwitchReason" o,
            getStr "currentModel" o with
      | Some fm, Some fst, Some cf, Some lsr, Some cm =>
          match getStr "fallbackModel" o, getNullable "lastSwitchTime" o,
                getNum "switchCount" o, getLastError o, getStr "lastUpdated" o with
          | Some fb, Some lst, Some sc, Some le, Some lu =>
              Some (mkFallbackState fm fst cf lsr cm fb lst sc le lu)
          | _, _, _, _, _ => None
          end
      | _, _, _, _, _ => None
      end
  | _ => None
  end.

(** *** The table [fallback_state] *)

(** The one row ([id = 1]) of the table. *)
Record Row : Type := mkRow {
  is_fallback_active : Z;
  current_model : option string;
  fallback_start_time : option string;
  last_updated : string;
  state_data : string
}.

(** The table: its row, if there is one. *)
Definition Db : Type := option Row.

(** [value || null] on a string: the empty string is falsy. *)
Definition orNull (s : string) : option string :=
  if String.eqb s "" then None else Some s.

(** What [loadState] resolves to. *)
Inductive Loaded : Type :=
| NoState                       (* null *)
| State (s : FallbackState)
| Untyped (j : json).           (* a document that is not a state *)

Section WithCodec.
Context `{Codec}.

(** [saveState]: INSERT OR REPLACE of row 1. *)
Definition saveState (state : FallbackState) (now : string) (db : Db) : Db :=
  let stateToSave := withLastUpdated state now in
  Some (mkRow (if isInFallbackMode state then 1 else 0)
              (orNull (currentModel state))
              (match fallbackStartTime state with
               | Some t => orNull t
               | None => None
               end)
              now
              (stringify (stateToJson stateToSave))).

(** [loadState]. *)
Definition loadState (db : Db) : Loaded :=
  match db with
  | None => NoState
  | Some row =>
      match parse (state_data row) with
      | Some j =>
          match stateOfJson j with
          | Some s => State s
          | None => Untyped j
          end
      | None =>
          State (mkFallbackState
                   (negb (is_fallback_active row =? 0)%Z)
                   (fallback_start_time row)
                   0 None
                   (match current_model row with Some m => m | None => "" end)
                   (match current_model row with Some m => m | None => "" end)
                   None 0 None (last_updated row))
      end
  end.

(** [clearState]. *)
Definition clearState (db : Db) : Db := None.

End WithCodec.

(** The table with the [state_data] of its row replaced: what a reader
    finds when the column does not hold the text that was written. *)
Definition withStateData (d : Db) (data : string) : Db :=
  match d with
  | Some row =>
      Some (mkRow (is_fallback_active row) (current_model row)
              (fallback_start_time row) (last_updated row) data)
  | None => None
  end.

End Persistence.

(** ** fallback/FallbackService.ts *)

Module Fallback.
Import ErrorDetection Json Persistence.

Record FallbackConfig : Type := mkFallbackConfig {
  enabled : bool;
  primaryModel : string;
  cfg_fallbackModel : string;
  triggerConditions : list string;
  autoResetEnabled : bool;
  autoResetDelay : Z
}.

(** The counters of [FallbackStats] the service writes. *)
Record FallbackStats : Type := mkFallbackStats {
  totalSwitches : nat;
  successfulSwitches : nat;
  failedSwitches : nat;
  stats_lastSwitchTime : option string;
  errorCounts : ErrorType -> nat
}.

(** [ModelSwitchEvent], as the service emits it. *)
Inductive Event : Type :=
| modelSwitched (fromModel toModel : string) (errorType : ErrorType)
| modelReset (fromModel toModel : string).

(** The fields of [FallbackService]; [db] is the table behind its
    persistence, [emitted] the events sent so far, latest first. *)
Record Service : Type := mkService {
  config : FallbackConfig;
  state : FallbackState;
  stats : FallbackStats;
  db : Db;
  emitted : list Event
}.

(** The result of [triggerFallback]. *)
Record SwitchResult : Type := mkSwitchResult {
  success : bool;
  newModel : string;
  previousModel : string
}.

Inductive Outcome (A : Type) : Type :=
| Returned (a : A) (s : Service)
| Thrown (msg : string) (s : Service).
Arguments Returned {A} a s.
Arguments Thrown {A} msg s.

Definition zeroStats : FallbackStats :=
  mkFallbackStats 0 0 0 None (fun _ => 0).

(** The constructor, before any persisted state is merged in. *)
Definition newService (c : FallbackConfig) (now : string) (d : Db) : Service :=
  mkService c
    (mkFallbackState false None 0 None (primaryModel c) (cfg_fallbackModel c)
       None 0 None now)
    zeroStats d [].

Definition bumpErrorCount (st : FallbackStats) (t : ErrorType) : FallbackStats :=
  mkFallbackStats (totalSwitches st) (successfulSwitches st) (failedSwitches st)
    (stats_lastSwitchTime st)
    (fun t' => if decide (t' = t) then S (errorCounts st t') else errorCounts st t').

Section WithCodec.
Context `{Codec}.

(** [loadPersistedState]: [{...this.state, ...persistedState}].  The
    optional properties a persisted state does not hold keep their value;
    a document that is not a state is left aside. *)
Definition loadPersistedState (s : Service) : Service :=
  match Persistence.loadState (db s) with
  | State p =>
      mkService (config s)
        (mkFallbackState (isInFallbackMode p)
           (match fallbackStartTime p with
            | Some t => Some t
            | None => fallbackStartTime (state s)
            end)
           (consecutiveFailures p)
           (match lastSwitchReason p with
            | Some r => Some r
            | None => lastSwitchReason (state s)
            end)
           (currentModel p) (fallbackModel p) (lastSwitchTime p)
           (switchCount p) (lastError p) (lastUpdated p))
        (stats s) (db s) (emitted s)
  | _ => s
  end.

(** [FallbackService.shouldTriggerFallback]: the answer, and the
    service with its error count. *)
Definition shouldTriggerFallback (s : Service) (error : JsError)
  : bool * Service :=
  if negb (enabled (config s)) then (false, s)
  else if isInFallbackMode (state s) then (false, s)
  else
    let shouldTrigger := ErrorDetection.shouldTriggerFallback error in
    if shouldTrigger then
      (true, mkService (config s) (state s)
               (bumpErrorCount (stats s) (getErrorType error))
               (db s) (emitted s))
    else (false, s).

(** [error?.message || String(error)]: an [Error] without a message
    prints as its name. *)
Definition messageOrString (error : JsError) : string :=
  if String.eqb (message error) "" then "Error" else message error.

(** [FallbackService.performFallback]. *)
Definition performFallback (s : Service) (error : JsError) (now : string)
  : Outcome string :=
  if negb (enabled (config s)) then Thrown "回退功能未启用" s
  else if isInFallbackMode (state s) then
    Thrown "已处于回退模式，无法再次回退" s
  else
    let previous := currentModel (state s) in
    let state' :=
      mkFallbackState true (fallbackStartTime (state s))
        (consecutiveFailures (state s)) (lastSwitchReason (state s))
        (fallbackModel (state s)) (fallbackModel (state s))
        (Some now) (S (switchCount (state s)))
        (Some (mkLastError (messageOrString error) now (getErrorType error)))
        (lastUpdated (state s)) in
    let stats' :=
      mkFallbackStats (S (totalSwitches (stats s)))
        (S (successfulSwitches (stats s))) (failedSwitches (stats s))
        (Some now) (errorCounts (stats s)) in
    Returned (currentModel state')
      (mkService (config s) state' stats'
         (Persistence.saveState state' now (db s))
         (modelSwitched previous (currentModel state')
            (getErrorType error) :: emitted s)).

(** [FallbackService.triggerFallback]. *)
Definition triggerFallback (s : Service) (error : JsError) (now : string)
  : Outcome SwitchResult :=
  if negb (enabled (config s)) then Thrown "Fallback is not enabled" s
  else if isInFallbackMode (state s) then Thrown "Already in fallback mode" s
  else
    let previous := currentModel (state s) in
    let new := fallbackModel (state s) in
    match performFallback s error now with
    | Returned _ s' => Returned (mkSwitchResult true new previous) s'
    | Thrown _ s' => Returned (mkSwitchResult false previous previous) s'
    end.

(** [FallbackService.resetToPrimary]. *)
Definition resetToPrimary (s : Service) (now : string) : string * Service :=
  if negb (isInFallbackMode (state s)) then (currentModel (state s), s)
  else
    let previous := currentModel (state s) in
    let state' :=
      mkFallbackState false (fallbackStartTime (state s))
        (consecutiveFailures (state s)) (lastSwitchReason (state s))
        (primaryModel (config s)) (fallbackModel (state s))
        (Some now) (switchCount (state s)) None (lastUpdated (state s)) in
    (currentModel state',
     mkService (config s) state' (stats s)
       (Persistence.saveState state' now (db s))
       (modelReset previous (currentModel state') :: emitted s)).

Definition getCurrentModel (s : Service) : string := currentModel (state s).

(** The service with other [triggerConditions] in its configuration, as
    [GEMINI_FALLBACK_TRIGGERS] sets them. *)
Definition withTriggerConditions (s : Service) (conditions : list string)
  : Service :=
  mkService
    (mkFallbackConfig (enabled (config s)) (primaryModel (config s))
       (cfg_fallbackModel (config s)) conditions
       (autoResetEnabled (config s)) (autoResetDelay (config s)))
    (state s) (stats s) (db s) (emitted s).

(** Any number of [triggerFallback] calls, one per error, each at its
    time; the results are dropped, the service is threaded through. *)
Fixpoint triggerAll (s : Service) (calls : list (JsError * string)) : Service :=
  match calls with
  | [] => s
  | (error, now) :: rest =>
      match triggerFallback s error now with
      | Returned _ s' => triggerAll s' rest
      | Thrown _ s' => triggerAll s' rest
      end
  end.

End WithCodec.

(** *** [updateConfig] *)

(** [Partial<FallbackConfig>]: the properties an update holds. *)
Record PartialConfig : Type := mkPartialConfig {
  new_enabled : option bool;
  new_primaryModel : option string;
  new_fallbackModel : option string;
  new_triggerConditions : option (list string);
  new_autoResetEnabled : option bool;
  new_autoResetDelay : option Z
}.

(** [{...config, ...newConfig}]. *)
Definition mergeConfig (c : FallbackConfig) (n : PartialConfig) : FallbackConfig :=
  mkFallbackConfig
    (default (enabled c) (new_enabled n))
    (default (primaryModel c) (new_primaryModel n))
    (default (cfg_fallbackModel c) (new_fallbackModel n))
    (default (triggerConditions c) (new_triggerConditions n))
    (default (autoResetEnabled c) (new_autoResetEnabled n))
    (default (autoResetDelay c) (new_autoResetDelay n)).

(** A model name that is set and not empty: what [if (name)] lets through. *)
Definition given (name : option string) : option string :=
  match name with
  | Some n => if String.eqb n "" then None else Some n
  | None => None
  end.

Definition setModels (st : FallbackState) (current fallback : string)
  : FallbackState :=
  mkFallbackState (isInFallbackMode st) (fallbackStartTime st)
    (consecutiveFailures st) (lastSwitchReason st) current fallback
    (lastSwitchTime st) (switchCount st) (lastError st) (lastUpdated st).

(** An update that names the two models and nothing else. *)
Definition modelsUpdate (primary fallback : string) : PartialConfig :=
  mkPartialConfig None (Some primary) (Some fallback) None None None.

(** [FallbackService.updateConfig]. *)
Definition updateConfig (s : Service) (newConfig : PartialConfig) : Service :=
  let st := state s in
  let st1 :=
    match given (new_primaryModel newConfig) with
    | Some p =>
        if negb (isInFallbackMode st) then setModels st p (fallbackModel st)
        else st
    | None => st
    end in
  let st2 :=
    match given (new_fallbackModel newConfig) with
    | Some f =>
        if isInFallbackMode st1 then setModels st1 f f
        else setModels st1 (currentModel st1) f
    | None => st1
    end in
  mkService (mergeConfig (config s) newConfig) st2 (stats s) (db s) (emitted s).

End Fallback.

(** ** gemini-client.ts: the translation of messages *)

Module Translator.
Import Json.

(** *** [split], [join], [slice] *)

(** [s.split(sep)] for a one-character separator, with the piece read
    so far in [piece] (its characters latest first). *)
Fixpoint splitFrom (sep : ascii) (piece : list ascii) (s : string) : list string :=
  match s with
  | EmptyString => [string_of_list_ascii (rev piece)]
  | String c rest =>
      if Ascii.eqb c sep
      then string_of_list_ascii (rev piece) :: splitFrom sep [] rest
      else splitFrom sep (c :: piece) rest
  end.

Definition split (sep : ascii) (s : string) : list string := splitFrom sep [] s.

(** [parts.join(sep)]. *)
Definition join (sep : ascii) (parts : list string) : string :=
  String.concat (String sep EmptyString) parts.

(** [parts.slice(from, to)] for indices within the array. *)
Definition slice {A : Type} (from to : nat) (l : list A) : list A :=
  take (to - from) (drop from l).

Definition underscore : ascii := "_"%char.

(** [parseFunctionNameFromId]. *)
Definition parseFunctionNameFromId (toolCallId : string) : string :=
  let parts := split underscore toolCallId in
  if (2 <? length parts)%nat
     && (match parts !! 0%nat with
         | Some p => String.eqb p "call"
         | None => false
         end)
  then join underscore (slice 1 (length parts - 1) parts)
  else "unknown_tool_from_id".

(** The id the stream transformer gives a tool call,
    [`call_${name}_${randomUUID()}`]; [suffix] is the random part. *)
Definition toolCallId (name suffix : string) : string :=
  "call_" ++ name ++ "_" ++ suffix.

(** No character of [s] is the delimiter: what the format asks of the
    random part. *)
Fixpoint delimiterFree (sep : ascii) (s : string) : bool :=
  match s with
  | EmptyString => true
  | String c rest => negb (Ascii.eqb c sep) && delimiterFree sep rest
  end.

(** *** Messages of the two protocols *)

Inductive Role : Type := system | user | assistant | tool.

#[export] Instance Role_eq_dec : EqDecision Role.
Proof. solve_decision. Defined.

Record FunctionCall : Type := mkFunctionCall {
  fn_name : string;
  fn_arguments : string          (* a JSON text *)
}.

Record ToolCall : Type := mkToolCall {
  tc_id : string;
  tc_type : string;
  tc_function : option FunctionCall
}.

Inductive MessageContentPart : Type :=
| TextPart (text : option string)
| ImageUrlPart (url : string)
| OtherPart.

(** [OpenAIMessage.content]. *)
Inductive MessageContent : Type :=
| NoContent
| StringContent (s : string)
| PartsContent (parts : list MessageContentPart).

Record OpenAIMessage : Type := mkOpenAIMessage {
  role : Role;
  content : MessageContent;
  tool_calls : option (list ToolCall);
  tool_call_id : option string
}.

(** A [Part] of the backend. *)
Inductive Part : Type :=
| Text (text : string)
| FunctionCallPart (name : string) (args : json)
| FunctionResponsePart (name : string) (response : json)
| InlineData (mimeType : string) (data : option string)
| FileData (mimeType fileUri : string).

Inductive GeminiRole : Type := model_role | user_role.

Record Content : Type := mkContent {
  c_role : GeminiRole;
  c_parts : list Part
}.

Definition nthOrEmpty (l : list string) (i : nat) : string :=
  match l !! i with Some s => s | None => "" end.

Section WithCodec.
Context `{Codec}.

(** The parts of an assistant message's tool calls: a call whose
    arguments do not parse is logged and left out. *)
Definition toolCallParts (calls : list ToolCall) : list Part :=
  flat_map
    (fun tc =>
       match tc_function tc with
       | Some f =>
           if String.eqb (tc_type tc) "function" then
             match parse (fn_arguments f) with
             | Some argsObject => [FunctionCallPart (fn_name f) argsObject]
             | None => []
             end
           else []
       | None => []
       end)
    calls.

(** A content part as the object it is. *)
Definition partToJson (p : MessageContentPart) : json :=
  match p with
  | TextPart (Some t) => JObj [("type", JStr "text"); ("text", JStr t)]
  | TextPart None => JObj [("type", JStr "text")]
  | ImageUrlPart url =>
      JObj [("type", JStr "image_url"); ("image_url", JObj [("url", JStr url)])]
  | OtherPart => JObj []
  end.

(** The payload of a tool response: the parsed content when it is an
    object, and otherwise the content wrapped as [{output: ...}]. *)
Definition responsePayload (c : MessageContent) : json :=
  match c with
  | StringContent s =>
      match parse s with
      | Some (JObj o) => JObj o
      | Some parsed => JObj [("output", parsed)]
      | None => JObj [("output", JStr s)]
      end
  | NoContent => JObj [("output", JNull)]
  | PartsContent parts => JObj [("output", JArr (map partToJson parts))]
  end.

(** One part of a multi-modal user message. *)
Definition contentPart (p : MessageContentPart) : list Part :=
  match p with
  | TextPart t => [Text (match t with Some s => s | None => "" end)]
  | ImageUrlPart imageUrl =>
      if String.prefix "data:" imageUrl then
        let pieces := split ","%char imageUrl in
        let mimePart := nthOrEmpty pieces 0 in
        let mimeType :=
          nthOrEmpty (split ";"%char (nthOrEmpty (split ":"%char mimePart) 1)) 0 in
        [InlineData mimeType (pieces !! 1%nat)]
      else [FileData "image/jpeg" imageUrl]
  | OtherPart => []
  end.

(** [openAIMessageToGemini]. *)
Definition openAIMessageToGemini (msg : OpenAIMessage) : Content :=
  match role msg with
  | assistant =>
      mkContent model_role
        ((match content msg with
          | StringContent s => if String.eqb s "" then [] else [Text s]
          | _ => []
          end)
         ++ match tool_calls msg with
            | Some calls => toolCallParts calls
            | None => []
            end)
  | tool =>
      let functionName :=
        parseFunctionNameFromId
          (match tool_call_id msg with Some i => i | None => "" end) in
      mkContent user_role
        [FunctionResponsePart functionName (responsePayload (content msg))]
  | _ =>
      match content msg with
      | StringContent s => mkContent user_role [Text s]
      | PartsContent parts => mkContent user_role (flat_map contentPart parts)
      | NoContent => mkContent user_role [Text ""]
      end
  end.

End WithCodec.

End Translator.

(** ** gemini-client.ts: the schemas of the tools *)

Module Schema.
Import Json.














(** *** [convertOpenAIToolsToGemini] *)






End Schema.

(** ** fallback/FallbackManager.ts *)

Module Manager.
Import ErrorDetection Json Persistence Fallback.

(** A reading of the clock: [Date.now()] and [new Date().toISOString()]. *)
Record Clock : Type := mkClock {
  millis : Z;
  iso : string
}.

(** The fields of [FallbackManager]; a pending [autoResetTimer] is the
    time at which it fires. *)
Record FallbackManager : Type := mkFallbackManager {
  mgr_config : FallbackConfig;
  fallbackService : option Service;
  autoResetTimer : option Z
}.

Inductive Outcome (A : Type) : Type :=
| Returned (a : A) (m : FallbackManager)
| Thrown (msg : string) (m : FallbackManager).
Arguments Returned {A} a m.
Arguments Thrown {A} msg m.

Section WithCodec.
Context `{Codec}.

Definition shouldTriggerFallback (m : FallbackManager) (error : JsError)
  : bool * FallbackManager :=
  match fallbackService m with
  | Some s =>
      if negb (enabled (mgr_config m)) then (false, m)
      else
        let '(b, s') := Fallback.shouldTriggerFallback s error in
        (b, mkFallbackManager (mgr_config m) (Some s') (autoResetTimer m))
  | None => (false, m)
  end.

(** [startAutoResetTimer], run by the listener of [modelSwitched]. *)
Definition startAutoResetTimer (m : FallbackManager) (now : Clock)
  : FallbackManager :=
  if autoResetEnabled (mgr_config m)
  then mkFallbackManager (mgr_config m) (fallbackService m)
         (Some (millis now + autoResetDelay (mgr_config m))%Z)
  else mkFallbackManager (mgr_config m) (fallbackService m) None.

Definition triggerFallback (m : FallbackManager) (error : JsError) (now : Clock)
  : Outcome SwitchResult :=
  match fallbackService m with
  | Some s =>
      if negb (enabled (mgr_config m))
      then Thrown "回退功能未启用或服务未初始化" m
      else
        match Fallback.triggerFallback s error (iso now) with
        | Fallback.Returned r s' =>
            let m' := mkFallbackManager (mgr_config m) (Some s')
                        (autoResetTimer m) in
            Returned r
              (if success r
               then (if autoResetEnabled (mgr_config m)
                     then startAutoResetTimer m' now else m')
               else m')
        | Fallback.Thrown msg s' =>
            Thrown msg (mkFallbackManager (mgr_config m) (Some s')
                          (autoResetTimer m))
        end
  | None => Thrown "回退功能未启用或服务未初始化" m
  end.

(** [resetToPrimary]: the listener of [modelReset] clears the timer.
    The auto-reset timer, when it fires, makes this call. *)
Definition resetToPrimary (m : FallbackManager) (now : Clock)
  : Outcome string :=
  match fallbackService m with
  | Some s =>
      if negb (enabled (mgr_config m))
      then Thrown "回退功能未启用或服务未初始化" m
      else
        let '(primary, s') := Fallback.resetToPrimary s (iso now) in
        Returned primary
          (mkFallbackManager (mgr_config m) (Some s')
             (if Persistence.isInFallbackMode (state s) then None
              else autoResetTimer m))
  | None => Thrown "回退功能未启用或服务未初始化" m
  end.

Definition getCurrentModel (m : FallbackManager) : string :=
  match fallbackService m with
  | Some s =>
      if negb (enabled (mgr_config m)) then primaryModel (mgr_config m)
      else Fallback.getCurrentModel s
  | None => primaryModel (mgr_config m)
  end.

Definition isInFallbackMode (m : FallbackManager) : bool :=
  match fallbackService m with
  | Some s =>
      if negb (enabled (mgr_config m)) then false
      else Persistence.isInFallbackMode (state s)
  | None => false
  end.

(** The callback of the auto-reset timer: it calls [resetToPrimary] and
    logs the error of a call that throws. *)
Definition autoResetFires (m : FallbackManager) (now : Clock) : FallbackManager :=
  match resetToPrimary m now with
  | Returned _ m' => m'
  | Thrown _ m' => m'
  end.

End WithCodec.

End Manager.

(** ** rotation/RotationService.ts and the request path of gemini-client.ts *)

Module Client.
Import ErrorDetection Json Persistence Translator.

(** *** RotationService *)

Record RotationService : Type := mkRotationService {
  rotationManager : option Rotation.Manager;
  isEnabled : bool
}.

(** A string result or the message of the error thrown. *)
Inductive KeyResult : Type :=
| Key (apiKey : string)
| NoKey (msg : string).

(** [getDefaultApiKey]; [env] is [process.env.GEMINI_API_KEY]. *)
Definition getDefaultApiKey (env : option string) : KeyResult :=
  match env with
  | Some k =>
      if String.eqb k "" then NoKey "No API key available (GEMINI_API_KEY not set)"
      else Key k
  | None => NoKey "No API key available (GEMINI_API_KEY not set)"
  end.

(** [RotationService.getApiKey], once initialization is over. *)
Definition getApiKey (svc : RotationService) (env : option string)
           (now : Z) (rnd : nat -> nat) : KeyResult * RotationService :=
  match rotationManager svc with
  | Some m =>
      if negb (isEnabled svc) then (getDefaultApiKey env, svc)
      else
        match Rotation.getNextApiKey m now rnd with
        | Rotation.Returned k m' =>
            (Key k, mkRotationService (Some m') (isEnabled svc))
        | Rotation.Thrown _ m' =>
            (getDefaultApiKey env, mkRotationService (Some m') (isEnabled svc))
        end
  | None => (getDefaultApiKey env, svc)
  end.

(** [RotationService.reportUsage]. *)
Definition reportUsage (svc : RotationService) (apiKey : string)
           (success : bool) (errorType : option string) (now : Z)
  : RotationService :=
  match rotationManager svc with
  | Some m =>
      if negb (isEnabled svc) then svc
      else mkRotationService
             (Some (Rotation.reportKeyUsage m apiKey success errorType now))
             (isEnabled svc)
  | None => svc
  end.

(** *** GeminiApiClient *)

(** The content generator a request is sent through: one made for a
    rotated key, or the one of the configuration. *)
Inductive ContentGenerator : Type :=
| WithApiKey (apiKey : string)
| DefaultGenerator.

(** One call of [oneShotChat.sendMessageStream].  The chat is built on
    [this.config], and the generator of a rotated key on
    [this.config.getModel()]: [usedModel] is the model of that
    configuration.  The method hands the chat no other model: its [model]
    argument and its [currentModel] are only written to the log. *)
Record BackendCall : Type := mkBackendCall {
  generator : ContentGenerator;
  usedModel : string;
  history : list Content;
  lastMessage : list Part;
  systemInstruction : option Content
}.

(** The fields of [GeminiApiClient] and the environment it reads;
    [configModel] is [this.config.getModel()], which no method of the
    client writes.  What the client has done so far: [calls], its calls to
    the backend, and [modelLog], the models its log line on the model in
    use has printed, both latest first. *)
Record Client : Type := mkClient {
  rotationService : option RotationService;
  fallbackManager : option Manager.FallbackManager;
  GEMINI_API_KEY : option string;
  useInternalPrompt : bool;
  configModel : string;
  calls : list BackendCall;
  modelLog : list string
}.

(** What a request resolves to: the stream of the call that got one, or
    the error thrown. *)
Inductive Response : Type :=
| Stream (call : BackendCall)
| BackendError (error : JsError)
| OtherError (msg : string).

(** The backend: whether the call numbered [n] fails, and how. *)
Definition Backend : Type := nat -> BackendCall -> option JsError.

(** [if (apiKey)]: [null] and the empty string are falsy. *)
Definition truthy (apiKey : option string) : option string :=
  match apiKey with
  | Some k => if String.eqb k "" then None else Some k
  | None => None
  end.

(** The [findIndex] and [splice] on [messages]: the first system message
    leaves the array, which the caller and a retry share. *)
Definition extractSystem (useInternal : bool) (messages : list OpenAIMessage)
  : option OpenAIMessage * list OpenAIMessage :=
  if useInternal then (None, messages)
  else
    match list_find (fun msg => role msg = system) messages with
    | Some (i, systemMessage) => (Some systemMessage, delete i messages)
    | None => (None, messages)
    end.

Definition reportIfRotated (c : Client) (apiKey : option string)
           (success : bool) (now : Z) : Client :=
  match rotationService c, truthy apiKey with
  | Some svc, Some k =>
      mkClient (Some (reportUsage svc k success None now)) (fallbackManager c)
        (GEMINI_API_KEY c) (useInternalPrompt c) (configModel c) (calls c)
        (modelLog c)
  | _, _ => c
  end.

Definition logCall (c : Client) (call : BackendCall) : Client :=
  mkClient (rotationService c) (fallbackManager c) (GEMINI_API_KEY c)
    (useInternalPrompt c) (configModel c) (call :: calls c) (modelLog c).

(** The log line on the model in use. *)
Definition logModel (c : Client) (currentModel : string) : Client :=
  mkClient (rotationService c) (fallbackManager c) (GEMINI_API_KEY c)
    (useInternalPrompt c) (configModel c) (calls c)
    (currentModel :: modelLog c).

Definition setFallbackManager (c : Client) (m : Manager.FallbackManager) : Client :=
  mkClient (rotationService c) (Some m) (GEMINI_API_KEY c)
    (useInternalPrompt c) (configModel c) (calls c) (modelLog c).

(** The number of model switches the client's fallback service has made. *)
Definition switches (c : Client) : nat :=
  match fallbackManager c with
  | Some m =>
      match Manager.fallbackService m with
      | Some s => switchCount (Fallback.state s)
      | None => 0
      end
  | None => 0
  end.

(** The manager has a service, and it is in fallback mode. *)
Definition inFallback (m : Manager.FallbackManager) : Prop :=
  exists s, Manager.fallbackService m = Some s
            /\ isInFallbackMode (Fallback.state s) = true.

(** The generator a request with this key goes through. *)
Definition generatorFor (apiKey : option string) : ContentGenerator :=
  match truthy apiKey with
  | Some k => WithApiKey k
  | None => DefaultGenerator
  end.

(** What the log line on the model in use prints in one run of
    [executeStreamRequest]: the answer of the manager, when there is one. *)
Definition logged (c : Client) : list string :=
  match fallbackManager c with
  | Some m => [Manager.getCurrentModel m]
  | None => []
  end.

Section WithCodec.
Context `{Codec}.

(** The part of [executeStreamRequest] before the call: the system
    instruction, the history and the last message are taken from
    [messages], the generator from the key, the model from the
    configuration.  It gives the call, if there is a message to send, and
    the array as the [splice] leaves it.  Making a generator and a chat
    are calls into the core library, taken to return. *)
Definition prepare (c : Client) (messages : list OpenAIMessage)
           (apiKey : option string)
  : option BackendCall * list OpenAIMessage :=
  let '(systemMessage, messages') :=
    extractSystem (useInternalPrompt c) messages in
  let clientSystemInstruction := openAIMessageToGemini <$> systemMessage in
  let contents := map openAIMessageToGemini messages' in
  (match last contents with
   | None => None
   | Some lastContent =>
       Some (mkBackendCall
               (match truthy apiKey with
                | Some k => WithApiKey k
                | None => DefaultGenerator
                end)
               (configModel c) (removelast contents) (c_parts lastContent)
               clientSystemInstruction)
   end,
   messages').

(** [executeStreamRequest].  The method calls itself after a fallback;
    [fuel] bounds the depth of these calls, and [None] is a run that
    needs more.  Its [model] goes to the log and nowhere else. *)
Fixpoint executeStreamRequest (fuel : nat) (backend : Backend) (c : Client)
         (model : string) (messages : list OpenAIMessage)
         (apiKey : option string) (now : Manager.Clock)
  : option (Response * Client) :=
  match fuel with
  | 0 => None
  | S fuel' =>
      let c0 :=
        match fallbackManager c with
        | Some m => logModel c (Manager.getCurrentModel m)
        | None => c
        end in
      let '(prepared, messages') := prepare c0 messages apiKey in
      match prepared with
      | None => Some (OtherError "No message to send.", c0)
      | Some call =>
          let c1 := logCall c0 call in
          match backend (length (calls c0)) call with
          | None =>
              Some (Stream call, reportIfRotated c1 apiKey true (Manager.millis now))
          | Some error =>
              let surface (c2 : Client) :=
                Some (BackendError error,
                      reportIfRotated c2 apiKey false (Manager.millis now)) in
              match fallbackManager c1 with
              | Some m =>
                  let '(shouldFallback, m1) := Manager.shouldTriggerFallback m error in
                  if shouldFallback then
                    match Manager.triggerFallback m1 error now with
                    | Manager.Returned _ m2 =>
                        executeStreamRequest fuel' backend
                          (setFallbackManager c1 m2)
                          (Manager.getCurrentModel m2) messages' apiKey now
                    | Manager.Thrown _ m2 => surface (setFallbackManager c1 m2)
                    end
                  else surface (setFallbackManager c1 m1)
              | None => surface c1
              end
          end
      end
  end.

(** [sendMessageStream], once initialization is over. *)
Definition sendMessageStream (fuel : nat) (backend : Backend) (c : Client)
           (model : string) (messages : list OpenAIMessage)
           (now : Manager.Clock) (rnd : nat -> nat)
  : option (Response * Client) :=
  match rotationService c with
  | Some svc =>
      let '(r, svc') := getApiKey svc (GEMINI_API_KEY c) (Manager.millis now) rnd in
      let c' := mkClient (Some svc') (fallbackManager c) (GEMINI_API_KEY c)
                  (useInternalPrompt c) (configModel c) (calls c)
                  (modelLog c) in
      executeStreamRequest fuel backend c' model messages
        (match r with Key k => Some k | NoKey _ => None end) now
  | None => executeStreamRequest fuel backend c model messages None now
  end.

End WithCodec.

End Client.

(** ** bridge_cli_server/enhanced-cli-bridge.cjs: SimpleApiKeyRotator *)

Module SimpleRotator.

(** A key as the state file holds it. *)
Record StoredKey : Type := mkStoredKey {
  key : string;
  status : string;
  requestCount : option nat;
  successCount : option nat;
  failureCount : option nat;
  lastUsed : option Z          (* the time its text stands for *)
}.

(** The parsed state file; [apiKeys] is [None] when the property is not
    an array. *)
Record ConfigFile : Type := mkConfigFile {
  cf_apiKeys : option (list StoredKey);
  cf_currentIndex : option nat
}.

Record Stats : Type := mkStats {
  requests : nat;
  successes : nat;
  failures : nat;
  stats_lastUsed : option Z
}.

(** The fields of [SimpleApiKeyRotator]; [usageStats] is a [Map]. *)
Record Rotator : Type := mkRotator {
  apiKeys : list StoredKey;
  currentIndex : nat;
  usageStats : gmap string Stats
}.


Definition isActive (k : StoredKey) : bool := String.eqb (status k) "active".

Definition initialStats (k : StoredKey) : Stats :=
  mkStats (default 0 (requestCount k)) (default 0 (successCount k))
    (default 0 (failureCount k)) (lastUsed k).

(** [initialize]; [file] is [None] when the file cannot be read or is not
    JSON text. *)
Definition initialize (r : Rotator) (file : option ConfigFile) : bool * Rotator :=
  match file with
  | Some config =>
      match cf_apiKeys config with
      | Some keys =>
          let active := List.filter isActive keys in
          let index := default 0 (cf_currentIndex config) in
          (true,
           mkRotator active
             (if (length active <=? index)%nat then 0 else index)
             (foldl (fun stats k => <[key k := initialStats k]> stats)
                (usageStats r) active))
      | None => (false, r)
      end
  | None => (false, r)
  end.

(** What [getNextApiKey] gives: a key, [null], or the [TypeError] of
    reading [key] on [undefined]. *)
Inductive Result : Type :=
| Key (apiKey : string)
| Null
| TypeError.

#[export] Instance Result_eq_dec : EqDecision Result.
Proof. solve_decision. Defined.

(** [getNextApiKey]. *)
Definition getNextApiKey (r : Rotator) (now : Z) : Result * Rotator :=
  match apiKeys r with
  | [] => (Null, r)
  | _ =>
      match apiKeys r !! currentIndex r with
      | None => (TypeError, r)
      | Some currentKey =>
          let apiKey := key currentKey in
          let stats := default (mkStats 0 0 0 None) (usageStats r !! apiKey) in
          (Key apiKey,
           mkRotator (apiKeys r)
             ((currentIndex r + 1) mod length (apiKeys r))
             (<[apiKey := mkStats (S (requests stats)) (successes stats)
                            (failures stats) (Some now)]> (usageStats r)))
      end
  end.

(** [reportUsage]. *)
Definition reportUsage (r : Rotator) (apiKey : string) (success : bool) : Rotator :=
  match usageStats r !! apiKey with
  | Some stats =>
      mkRotator (apiKeys r) (currentIndex r)
        (<[apiKey := if success
                     then mkStats (requests stats) (S (successes stats))
                            (failures stats) (stats_lastUsed stats)
                     else mkStats (requests stats) (successes stats)
                            (S (failures stats)) (stats_lastUsed stats)]>
           (usageStats r))
  | None => r
  end.



End SimpleRotator.

(** ** A codec for JSON text *)

(** [JSON.stringify] and [JSON.parse] are built-ins of the runtime.  This
    module gives one implementation of {!Json.Codec} on JSON text without
    white space, so that the functions above can be run. *)

Module JsonText.
Import Json.

Definition dquote : ascii := ascii_of_nat 34.
Definition backslash : ascii := ascii_of_nat 92.

(** *** Printing *)

Definition hexDigit (n : nat) : ascii :=
  if (n <? 10)%nat then ascii_of_nat (48 + n) else ascii_of_nat (87 + n).

(** A character that stands for itself inside a string. *)
Definition isPlain (c : ascii) : bool :=
  (32 <=? nat_of_ascii c)%nat
  && negb (Ascii.eqb c dquote) && negb (Ascii.eqb c backslash).

Definition escapeChar (c : ascii) (rest : string) : string :=
  if isPlain c then String c rest
  else String backslash
         (String "u" (String "0" (String "0"
            (String (hexDigit (nat_of_ascii c / 16))
               (String (hexDigit (nat_of_ascii c mod 16)) rest))))).

Fixpoint escape (s rest : string) : string :=
  match s with
  | EmptyString => rest
  | String c s' => escapeChar c (escape s' rest)
  end.

Definition printString (s rest : string) : string :=
  String dquote (escape s (String dquote rest)).

Fixpoint printUint (d : Decimal.uint) (rest : string) : string :=
  match d with
  | Decimal.Nil => rest
  | Decimal.D0 d' => String "0" (printUint d' rest)
  | Decimal.D1 d' => String "1" (printUint d' rest)
  | Decimal.D2 d' => String "2" (printUint d' rest)
  | Decimal.D3 d' => String "3" (printUint d' rest)
  | Decimal.D4 d' => String "4" (printUint d' rest)
  | Decimal.D5 d' => String "5" (printUint d' rest)
  | Decimal.D6 d' => String "6" (printUint d' rest)
  | Decimal.D7 d' => String "7" (printUint d' rest)
  | Decimal.D8 d' => String "8" (printUint d' rest)
  | Decimal.D9 d' => String "9" (printUint d' rest)
  end.

(** The text of [j], followed by [rest]. *)
Fixpoint print (j : json) (rest : string) {struct j} : string :=
  match j with
  | JNull => "null" ++ rest
  | JBool true => "true" ++ rest
  | JBool false => "false" ++ rest
  | JNum n => printUint (Nat.to_uint n) rest
  | JStr s => printString s rest
  | JArr items =>
      String "[" (match items with
                  | [] => String "]" rest
                  | v :: vs =>
                      print v
                        ((fix more (l : list json) : string :=
                            match l with
                            | [] => String "]" rest
                            | w :: ws => String "," (print w (more ws))
                            end) vs)
                  end)
  | JObj members =>
      String "{" (match members with
                  | [] => String "}" rest
                  | (k, v) :: ms =>
                      printString k
                        (String ":"
                           (print v
                              ((fix more (l : list (string * json)) : string :=
                                  match l with
                                  | [] => String "}" rest
                                  | (k', w) :: ws =>
                                      String ","
                                        (printString k'
                                           (String ":" (print w (more ws))))
                                  end) ms)))
                  end)
  end.

(** *** Parsing *)

Fixpoint stripPrefix (p s : string) : option string :=
  match p with
  | EmptyString => Some s
  | String a p' =>
      match s with
      | String b s' => if Ascii.eqb a b then stripPrefix p' s' else None
      | EmptyString => None
      end
  end.

Definition hexValue (c : ascii) : option nat :=
  let n := nat_of_ascii c in
  if (48 <=? n)%nat && (n <=? 57)%nat then Some (n - 48)
  else if (97 <=? n)%nat && (n <=? 102)%nat then Some (n - 87)
  else None.

(** The characters of a string up to its closing quote, and what
    follows the quote. *)
Fixpoint parseChars (s : string) : option (string * string) :=
  match s with
  | EmptyString => None
  | String c rest =>
      if Ascii.eqb c dquote then Some (EmptyString, rest)
      else if Ascii.eqb c backslash then
        match rest with
        | String u (String z1 (String z2 (String h1 (String h2 rest')))) =>
            if Ascii.eqb u "u" && Ascii.eqb z1 "0" && Ascii.eqb z2 "0" then
              match hexValue h1, hexValue h2, parseChars rest' with
              | Some a, Some b, Some (str, r) =>
                  Some (String (ascii_of_nat (16 * a + b)) str, r)
              | _, _, _ => None
              end
            else None
        | _ => None
        end
      else
        match parseChars rest with
        | Some (str, r) => Some (String c str, r)
        | None => None
        end
  end.

Definition digitOf (c : ascii) : option (Decimal.uint -> Decimal.uint) :=
  match nat_of_ascii c with
  | 48 => Some Decimal.D0 | 49 => Some Decimal.D1 | 50 => Some Decimal.D2
  | 51 => Some Decimal.D3 | 52 => Some Decimal.D4 | 53 => Some Decimal.D5
  | 54 => Some Decimal.D6 | 55 => Some Decimal.D7 | 56 => Some Decimal.D8
  | 57 => Some Decimal.D9 | _ => None
  end.

(** The longest run of digits at the head of [s]. *)
Fixpoint readUint (s : string) : Decimal.uint * string :=
  match s with
  | EmptyString => (Decimal.Nil, EmptyString)
  | String c rest =>
      match digitOf c with
      | Some digit => let '(d, r) := readUint rest in (digit d, r)
      | None => (Decimal.Nil, s)
      end
  end.

(** A quoted string and the colon after it. *)
Definition parseKey (s : string) : option (string * string) :=
  match s with
  | String c rest =>
      if Ascii.eqb c dquote then
        match parseChars rest with
        | Some (k, String colon r) =>
            if Ascii.eqb colon ":" then Some (k, r) else None
        | _ => None
        end
      else None
  | EmptyString => None
  end.

(** One value at the head of [s] and what follows it; [parseElems] and
    [parseMembers] read the rest of an array and of an object. *)
Fixpoint parseValue (fuel : nat) (s : string) : option (json * string) :=
  match fuel with
  | 0 => None
  | S fuel' =>
      match s with
      | EmptyString => None
      | String c rest =>
          if Ascii.eqb c "n" then
            match stripPrefix "ull" rest with
            | Some r => Some (JNull, r) | None => None end
          else if Ascii.eqb c "t" then
            match stripPrefix "rue" rest with
            | Some r => Some (JBool true, r) | None => None end
          else if Ascii.eqb c "f" then
            match stripPrefix "alse" rest with
            | Some r => Some (JBool false, r) | None => None end
          else if Ascii.eqb c dquote then
            match parseChars rest with
            | Some (str, r) => Some (JStr str, r) | None => None end
          else if Ascii.eqb c "[" then
            match rest with
            | String c' r =>
                if Ascii.eqb c' "]" then Some (JArr [], r)
                else match parseElems fuel' rest with
                     | Some (items, r') => Some (JArr items, r')
                     | None => None
                     end
            | EmptyString => None
            end
          else if Ascii.eqb c "{" then
            match rest with
            | String c' r =>
                if Ascii.eqb c' "}" then Some (JObj [], r)
                else match parseMembers fuel' rest with
                     | Some (members, r') => Some (JObj members, r')
                     | None => None
                     end
            | EmptyString => None
            end
          else
            match digitOf c with
            | Some _ => let '(d, r) := readUint s in Some (JNum (Nat.of_uint d), r)
            | None => None
            end
      end
  end
with parseElems (fuel : nat) (s : string) : option (list json * string) :=
  match fuel with
  | 0 => None
  | S fuel' =>
      match parseValue fuel' s with
      | Some (v, String c r) =>
          if Ascii.eqb c "]" then Some ([v], r)
          else if Ascii.eqb c "," then
            match parseElems fuel' r with
            | Some (vs, r') => Some (v :: vs, r')
            | None => None
            end
          else None
      | _ => None
      end
  end
with parseMembers (fuel : nat) (s : string)
  : option (list (string * json) * string) :=
  match fuel with
  | 0 => None
  | S fuel' =>
      match parseKey s with
      | Some (k, afterColon) =>
          match parseValue fuel' afterColon with
          | Some (v, String c r) =>
              if Ascii.eqb c "}" then Some ([(k, v)], r)
              else if Ascii.eqb c "," then
                match parseMembers fuel' r with
                | Some (ms, r') => Some ((k, v) :: ms, r')
                | None => None
                end
              else None
          | _ => None
          end
      | None => None
      end
  end.

Definition stringify (j : json) : string := print j EmptyString.

(** A text is longer than the document it holds has nodes, so its
    length is fuel enough. *)
Definition parse (s : string) : option json :=
  match parseValue (S (String.length s)) s with
  | Some (j, EmptyString) => Some j
  | _ => None
  end.

(** *** What the proof of the round trip speaks of *)

(** The loops inside [print], as functions of their own. *)
Fixpoint printMoreElems (l : list json) (rest : string) : string :=
  match l with
  | [] => String "]" rest
  | w :: ws => String "," (print w (printMoreElems ws rest))
  end.

Fixpoint printMoreMembers (l : list (string * json)) (rest : string) : string :=
  match l with
  | [] => String "}" rest
  | (k, w) :: ws =>
      String "," (printString k (String ":" (print w (printMoreMembers ws rest))))
  end.

(** The number of nodes of a document, each element and member counted
    once more for its place in the list. *)
Fixpoint size (j : json) : nat :=
  match j with
  | JArr items => S (list_sum (map (fun v => S (size v)) items))
  | JObj members => S (list_sum (map (fun kv => S (size (snd kv))) members))
  | _ => 1
  end.

(** What may follow a number: not a digit. *)
Definition endsNumber (rest : string) : Prop :=
  match rest with
  | EmptyString => True
  | String c _ => digitOf c = None
  end.

(** With fuel for its nodes, the text of [j] parses to [j]. *)
Definition parses (j : json) : Prop :=
  forall fuel rest, size j <= fuel -> endsNumber rest ->
    parseValue fuel (print j rest) = Some (j, rest).

(** The text of [j] has a character for each of its nodes. *)
Definition fits (j : json) : Prop :=
  forall rest, size j + String.length rest <= String.length (print j rest).

End JsonText.

(** ** The inputs of the scenarios *)

Module Scenarios.
Import ErrorDetection Json Persistence Translator.

(** Three keys in round-robin rotation, as in Scenario A. *)
Definition threeKeys : Rotation.RotationConfig :=
  Rotation.mkRotationConfig Rotation.round_robin 3 300000 ["k1"; "k2"; "k3"].

(** One key, three failures allowed, ten minutes of cooldown. *)
Definition oneKey : Rotation.RotationConfig :=
  Rotation.mkRotationConfig Rotation.round_robin 3 600000 ["k1"].

(** The manager of a configuration, initialized at time 0 without a file. *)
Definition started (c : Rotation.RotationConfig) : Rotation.Manager :=
  match Rotation.initialize c None 0 with
  | Some m => m
  | None => Rotation.mkManager [] 0 0 c None
  end.

(** Three failures of [k1] reported in a row at time [now]. *)
Definition failThrice (m : Rotation.Manager) (now : Z) : Rotation.Manager :=
  Rotation.reportKeyUsage
    (Rotation.reportKeyUsage
       (Rotation.reportKeyUsage m "k1" false None now) "k1" false None now)
    "k1" false None now.

(** The only key of [oneKey], cooling down until 601000. *)
Definition cooling : Rotation.Manager := failThrice (started oneKey) 1000.

(** The three keys of [threeKeys], the first one cooling down. *)
Definition firstCooling : Rotation.Manager :=
  failThrice (started threeKeys) 1000.

(** A few calls of the manager, one after the other. *)
Definition someCalls : list Rotation.Call :=
  [Rotation.Acquire 1 (fun _ => 0);
   Rotation.Report "k1" false None 2;
   Rotation.Acquire 3 (fun _ => 0);
   Rotation.ResetAll 4].

Definition rateLimitExceeded : JsError :=
  mkJsError (Some 429%Z) None "rate limit exceeded".

Definition slowDown : JsError := mkJsError (Some 429%Z) None "slow down".

Definition connectionLost : JsError := mkJsError None None "connection lost".

Definition serverDown : JsError := mkJsError (Some 503%Z) None "unavailable".

(** The configuration [loadFallbackConfig] gives without environment. *)
Definition defaultConfig : Fallback.FallbackConfig :=
  Fallback.mkFallbackConfig true "gemini-2.5-pro" "gemini-2.5-flash"
    ["quota_exceeded"; "rate_limit"; "server_error"] true 300000.

Definition disabledConfig : Fallback.FallbackConfig :=
  Fallback.mkFallbackConfig false "gemini-2.5-pro" "gemini-2.5-flash"
    ["quota_exceeded"; "rate_limit"; "server_error"] true 300000.

(** [GEMINI_FALLBACK_TRIGGERS=network_error]. *)
Definition networkOnlyConfig : Fallback.FallbackConfig :=
  Fallback.mkFallbackConfig true "gemini-2.5-pro" "gemini-2.5-flash"
    ["network_error"] true 300000.

Definition hello : OpenAIMessage :=
  mkOpenAIMessage user (StringContent "hello") None None.



Definition alwaysOk : Client.Backend := fun _ _ => None.

Definition beConcise : OpenAIMessage :=
  mkOpenAIMessage system (StringContent "be concise") None None.
(** A client whose rotation service holds the three keys, without a
    fallback manager. *)
Definition rotatingClient : Client.Client :=
  Client.mkClient
    (Some (Client.mkRotationService (Some (started threeKeys)) true))
    None None false "gemini-2.5-pro" [] [].

(** The first call meets a rate limit, the second a server error. *)
Definition failsTwice : Client.Backend :=
  fun n _ => match n with 0 => Some slowDown | _ => Some serverDown end.

Definition noon : Manager.Clock := Manager.mkClock 2000 "2025-01-01T12:00:00.000Z".

Section WithCodec.
Context `{Codec}.

(** A service after its first switch to the fallback model. *)
Definition switched : Fallback.Service :=
  match Fallback.triggerFallback
          (Fallback.newService defaultConfig "t0" None) slowDown "t1" with
  | Fallback.Returned _ s => s
  | Fallback.Thrown _ s => s
  end.

(** A client whose only rotated key is cooling down, with a default key
    in the environment and no fallback manager. *)
Definition coolingClient : Client.Client :=
  Client.mkClient (Some (Client.mkRotationService (Some cooling) true)) None
    (Some "default-key") false "gemini-2.5-pro" [] [].

(** A client without rotation, its fallback service on the primary model. *)
Definition primaryClient : Client.Client :=
  Client.mkClient None
    (Some (Manager.mkFallbackManager defaultConfig
             (Some (Fallback.newService defaultConfig "t0" None)) None))
    None false "gemini-2.5-pro" [] [].

End WithCodec.

End Scenarios.

(** * Properties *)

(** ** The JSON text codec: [parse] inverts [stringify] *)

Module JsonTextFacts.
Import Json JsonText.

Lemma parseChars_escapeChar c tail :
  parseChars (escapeChar c tail) =
  match parseChars tail with
  | Some (str, r) => Some (String c str, r)
  | None => None
  end.
Proof.
  destruct c as [[] [] [] [] [] [] [] []]; reflexivity.
Qed.

Lemma parseChars_escape s rest :
  parseChars (escape s (String dquote rest)) = Some (s, rest).
Proof.
  induction s as [|c s IH]; simpl.
  - reflexivity.
  - rewrite parseChars_escapeChar, IH. reflexivity.
Qed.

Lemma readUint_rest rest : endsNumber rest -> readUint rest = (Decimal.Nil, rest).
Proof. destruct rest as [|c r]; simpl; [reflexivity|]. intros ->. reflexivity. Qed.

Lemma readUint_printUint d rest :
  endsNumber rest -> readUint (printUint d rest) = (d, rest).
Proof.
  intros Hrest.
  induction d; simpl; try rewrite IHd; try reflexivity.
  apply readUint_rest, Hrest.
Qed.

Lemma to_uint_not_nil n : Nat.to_uint n <> Decimal.Nil.
Proof.
  rewrite <- (Unsigned.of_to n) at 1. rewrite Unsigned.to_of.
  unfold Decimal.unorm. destruct (Decimal.nzhead (Nat.to_uint n)); discriminate.
Qed.

(** The text of a number starts with a digit, so no keyword or bracket. *)
Lemma parseValue_number fuel n rest :
  endsNumber rest ->
  parseValue (S fuel) (printUint (Nat.to_uint n) rest) = Some (JNum n, rest).
Proof.
  intros Hrest.
  pose proof (to_uint_not_nil n) as Hn.
  pose proof (readUint_printUint (Nat.to_uint n) rest Hrest) as Hread.
  pose proof (Unsigned.of_to n) as Hof.
  destruct (Nat.to_uint n) as [|d|d|d|d|d|d|d|d|d|d]; [congruence|..];
    cbn [printUint parseValue] in *; cbn -[readUint Nat.of_uint];
    rewrite Hread, Hof; reflexivity.
Qed.

Lemma print_arr v vs rest :
  print (JArr (v :: vs)) rest = String "[" (print v (printMoreElems vs rest)).
Proof.
  cbn [print]. do 2 f_equal.
  induction vs as [|w ws IH]; cbn [printMoreElems]; congruence.
Qed.

Lemma print_obj k v ms rest :
  print (JObj ((k, v) :: ms)) rest =
  String "{" (printString k (String ":" (print v (printMoreMembers ms rest)))).
Proof.
  cbn [print]. do 4 f_equal.
  induction ms as [|[k' w] ws IH]; cbn [printMoreMembers]; congruence.
Qed.

(** Induction on documents, with the hypothesis for every element of an
    array and every member of an object. *)
Lemma json_induction (P : json -> Prop) :
  P JNull -> (forall b, P (JBool b)) -> (forall n, P (JNum n)) ->
  (forall s, P (JStr s)) ->
  (forall items, Forall P items -> P (JArr items)) ->
  (forall members, Forall (fun kv => P (snd kv)) members -> P (JObj members)) ->
  forall j, P j.
Proof.
  intros Hnull Hbool Hnum Hstr Harr Hobj.
  fix IH 1. intros [|b|n|s|items|members].
  - exact Hnull.
  - apply Hbool.
  - apply Hnum.
  - apply Hstr.
  - apply Harr. induction items as [|v vs IHvs]; constructor; [apply IH | exact IHvs].
  - apply Hobj.
    induction members as [|[k v] ms IHms]; constructor; [apply IH | exact IHms].
Qed.

(** The first character of a text is none of the closing brackets. *)
Lemma print_head j rest :
  exists c r, print j rest = String c r /\ Ascii.eqb c "]" = false.
Proof.
  destruct j as [|[]|n|s|[|v vs]|[|[k v] ms]]; try (eexists _, _; split; [reflexivity|reflexivity]).
  cbn [print].
  pose proof (to_uint_not_nil n) as Hn.
  destruct (Nat.to_uint n); [congruence|..]; eexists _, _; (split; [reflexivity|reflexivity]).
Qed.

Lemma endsNumber_elems vs rest : endsNumber (printMoreElems vs rest).
Proof. destruct vs; reflexivity. Qed.

Lemma endsNumber_members ms rest : endsNumber (printMoreMembers ms rest).
Proof. destruct ms as [|[k v] ms]; reflexivity. Qed.

Lemma parseKey_print k tail :
  parseKey (printString k (String ":" tail)) = Some (k, tail).
Proof.
  unfold parseKey, printString. rewrite Ascii.eqb_refl, parseChars_escape.
  reflexivity.
Qed.

Lemma parseElems_print vs : forall v fuel rest,
  parses v -> Forall parses vs ->
  S (size v) + list_sum (map (fun w => S (size w)) vs) <= fuel ->
  parseElems fuel (print v (printMoreElems vs rest)) = Some (v :: vs, rest).
Proof.
  induction vs as [|w ws IH]; intros v fuel rest Hv Hvs Hfuel;
    (destruct fuel as [|fuel]; [lia|]); cbn [parseElems];
    simpl list_sum in Hfuel;
    (rewrite Hv; [|lia|apply endsNumber_elems]).
  - reflexivity.
  - cbn [printMoreElems].
    inversion Hvs as [|? ? Hw Hws]; subst.
    change (Ascii.eqb "," "]") with false. change (Ascii.eqb "," ",") with true.
    cbv iota.
    rewrite (IH w fuel rest Hw Hws) by lia. reflexivity.
Qed.

Lemma parseMembers_print ms : forall k v fuel rest,
  parses v -> Forall (fun kv => parses (snd kv)) ms ->
  S (size v) + list_sum (map (fun kv => S (size (snd kv))) ms) <= fuel ->
  parseMembers fuel (printString k (String ":" (print v (printMoreMembers ms rest))))
  = Some ((k, v) :: ms, rest).
Proof.
  induction ms as [|[k' w] ws IH]; intros k v fuel rest Hv Hms Hfuel;
    (destruct fuel as [|fuel]; [lia|]); cbn [parseMembers];
    rewrite parseKey_print; simpl list_sum in Hfuel;
    (rewrite Hv; [|lia|apply endsNumber_members]).
  - reflexivity.
  - cbn [printMoreMembers].
    inversion Hms as [|? ? Hw Hws]; subst. cbn [snd] in Hw.
    change (Ascii.eqb "," "}") with false. change (Ascii.eqb "," ",") with true.
    cbv iota.
    rewrite (IH k' w fuel rest Hw Hws) by lia. reflexivity.
Qed.

Lemma parseValue_print j : parses j.
Proof.
  induction j as [|b|n|s|items IH|members IH] using json_induction;
    intros fuel rest Hfuel Hrest; (destruct fuel as [|fuel]; [cbn in Hfuel; lia|]).
  - reflexivity.
  - destruct b; reflexivity.
  - apply parseValue_number, Hrest.
  - cbn [print parseValue]. unfold printString.
    change (Ascii.eqb dquote "n") with false. change (Ascii.eqb dquote "t") with false.
    change (Ascii.eqb dquote "f") with false. rewrite Ascii.eqb_refl. cbv iota.
    rewrite parseChars_escape. reflexivity.
  - destruct items as [|v vs]; [reflexivity|].
    rewrite print_arr. cbn [parseValue].
    change (Ascii.eqb "[" "n") with false. change (Ascii.eqb "[" "t") with false.
    change (Ascii.eqb "[" "f") with false. change (Ascii.eqb "[" dquote) with false.
    change (Ascii.eqb "[" "[") with true. cbv iota.
    inversion IH as [|? ? Hv Hvs]; subst.
    pose proof (parseElems_print vs v fuel rest Hv Hvs) as Hparse.
    destruct (print_head v (printMoreElems vs rest)) as (c & r & Hprint & Hc).
    rewrite Hprint in Hparse |- *. rewrite Hc, Hparse by (simpl in Hfuel; lia).
    reflexivity.
  - destruct members as [|[k v] ms]; [reflexivity|].
    rewrite print_obj. cbn [parseValue].
    change (Ascii.eqb "{" "n") with false. change (Ascii.eqb "{" "t") with false.
    change (Ascii.eqb "{" "f") with false. change (Ascii.eqb "{" dquote) with false.
    change (Ascii.eqb "{" "[") with false. change (Ascii.eqb "{" "{") with true.
    cbv iota.
    inversion IH as [|? ? Hv Hms]; subst. cbn [snd] in Hv.
    pose proof (parseMembers_print ms k v fuel rest Hv Hms) as Hparse.
    rewrite Hparse by (simpl in Hfuel; lia). reflexivity.
Qed.

Lemma length_escapeChar c rest :
  String.length rest < String.length (escapeChar c rest).
Proof. unfold escapeChar. destruct (isPlain c); simpl; lia. Qed.

Lemma length_escape s rest : String.length rest <= String.length (escape s rest).
Proof.
  induction s as [|c s IH]; simpl; [lia|].
  pose proof (length_escapeChar c (escape s rest)). lia.
Qed.

Lemma length_printString s rest :
  String.length rest < String.length (printString s rest).
Proof.
  unfold printString. simpl.
  pose proof (length_escape s (String dquote rest)) as Hlen. simpl in Hlen. lia.
Qed.

Lemma length_printUint d rest :
  d <> Decimal.Nil -> String.length rest < String.length (printUint d rest).
Proof.
  assert (Hle : forall d', String.length rest <= String.length (printUint d' rest))
    by (induction d'; simpl; lia).
  destruct d; [congruence|..]; intros _; simpl;
    match goal with |- _ < S (String.length (printUint ?d' _)) => specialize (Hle d') end;
    lia.
Qed.

Lemma length_printMoreElems vs : forall rest,
  Forall fits vs ->
  list_sum (map (fun w => S (size w)) vs) + String.length rest
  < String.length (printMoreElems vs rest).
Proof.
  induction vs as [|w ws IH]; intros rest Hvs; simpl; [lia|].
  inversion Hvs as [|? ? Hw Hws]; subst.
  specialize (IH rest Hws). specialize (Hw (printMoreElems ws rest)). lia.
Qed.

Lemma length_printMoreMembers ms : forall rest,
  Forall (fun kv => fits (snd kv)) ms ->
  list_sum (map (fun kv => S (size (snd kv))) ms) + String.length rest
  < String.length (printMoreMembers ms rest).
Proof.
  induction ms as [|[k w] ws IH]; intros rest Hms; simpl; [lia|].
  inversion Hms as [|? ? Hw Hws]; subst. cbn [snd] in Hw.
  specialize (IH rest Hws). specialize (Hw (printMoreMembers ws rest)).
  pose proof (length_printString k (String ":" (print w (printMoreMembers ws rest)))) as Hk.
  simpl in Hk. lia.
Qed.

Lemma length_print j : fits j.
Proof.
  induction j as [|b|n|s|items IH|members IH] using json_induction; intros rest.
  - cbn [print size]. cbv [String.append]. simpl. lia.
  - destruct b; cbn [print size]; cbv [String.append]; simpl; lia.
  - simpl. pose proof (length_printUint (Nat.to_uint n) rest (to_uint_not_nil n)). lia.
  - simpl size. cbn [print]. pose proof (length_printString s rest). lia.
  - destruct items as [|v vs]; [simpl; lia|].
    rewrite print_arr. inversion IH as [|? ? Hv Hvs]; subst.
    pose proof (length_printMoreElems vs rest Hvs).
    specialize (Hv (printMoreElems vs rest)). simpl. lia.
  - destruct members as [|[k v] ms]; [simpl; lia|].
    rewrite print_obj. inversion IH as [|? ? Hv Hms]; subst. cbn [snd] in Hv.
    pose proof (length_printMoreMembers ms rest Hms).
    specialize (Hv (printMoreMembers ms rest)).
    pose proof (length_printString k (String ":" (print v (printMoreMembers ms rest)))) as Hk.
    simpl in Hk |- *. lia.
Qed.

Lemma parse_stringify j : parse (stringify j) = Some j.
Proof.
  unfold parse, stringify.
  pose proof (length_print j EmptyString) as Hlen. simpl in Hlen.
  rewrite (parseValue_print j) by (simpl; lia || exact I). reflexivity.
Qed.

End JsonTextFacts.

(** The codec the scenarios run with. *)
#[export] Instance textCodec : Json.Codec :=
  Json.mkCodec JsonText.stringify JsonText.parse JsonTextFacts.parse_stringify.

(** ** Credential rotation *)

Section RotationFacts.
Import Rotation Scenarios.

(** A key that is [active] is available, and the call leaves it as it is. *)
Lemma isKeyAvailable_active k now :
  status k = active -> isKeyAvailable k now = (true, k).
Proof. unfold isKeyAvailable. intros ->. reflexivity. Qed.

(** A key in its cooldown period is not available. *)
Lemma isKeyAvailable_cooling k now cu :
  status k = failed -> cooldownUntil k = Some (dateObject cu) -> (now < cu)%Z ->
  isKeyAvailable k now = (false, k).
Proof.
  unfold isKeyAvailable. intros -> -> Hlt. cbn [beforeDate].
  apply Z.ltb_lt in Hlt. rewrite Hlt. reflexivity.
Qed.

(** Once the period is over the key is available again: [status] and
    [cooldownUntil] are reset, [consecutiveFailures] is not. *)
Lemma isKeyAvailable_expired k now cu :
  status k = failed -> cooldownUntil k = Some (dateObject cu) -> (cu <= now)%Z ->
  exists k', isKeyAvailable k now = (true, k')
    /\ status k' = active /\ cooldownUntil k' = None
    /\ consecutiveFailures k' = consecutiveFailures k /\ key k' = key k.
Proof.
  unfold isKeyAvailable. intros -> -> Hle. cbn [beforeDate].
  apply Z.ltb_ge in Hle. rewrite Hle. eexists. split; [reflexivity|]. repeat split.
Qed.

Lemma isKeyAvailable_key k now :
  key (snd (isKeyAvailable k now)) = key k.
Proof.
  unfold isKeyAvailable.
  destruct (status k); [reflexivity| |reflexivity].
  destruct (cooldownUntil k) as [cu|]; [|reflexivity].
  destruct (beforeDate now cu); reflexivity.
Qed.

Lemma isKeyAvailable_false k now k' :
  isKeyAvailable k now = (false, k') -> k' = k.
Proof.
  unfold isKeyAvailable.
  destruct (status k); [discriminate| |intros [= <-]; reflexivity].
  destruct (cooldownUntil k) as [cu|]; [|discriminate].
  destruct (beforeDate now cu); [intros [= <-]; reflexivity | discriminate].
Qed.

Lemma isKeyAvailable_true k now k' :
  isKeyAvailable k now = (true, k') -> ~ coolingDown k now.
Proof.
  intros Hok (Hfailed & cu & Hcu & Hlt).
  rewrite (isKeyAvailable_cooling k now cu Hfailed Hcu Hlt) in Hok. discriminate.
Qed.

Lemma keys_moveToNextKey m r : keys (moveToNextKey m r) = keys m.
Proof. unfold moveToNextKey. destruct (strategy (config m)); reflexivity. Qed.

(** The loop of [getNextApiKey] returns the key at the index it stops at,
    and that key is not in its cooldown period. *)
Lemma rotate_returned left : forall attempts m now rnd a m',
  rotate left attempts m now rnd = Returned a m' ->
  exists k, keys m !! currentIndex m' = Some k /\ key k = a
            /\ ~ coolingDown k now.
Proof.
  induction left as [|left IH]; intros attempts m now rnd a m'; cbn [rotate];
    [discriminate|].
  destruct (keys m !! currentIndex m) as [currentKey|] eqn:Hk; [|discriminate].
  destruct (isKeyAvailable currentKey now) as [[|] k'] eqn:Hok.
  - intros [= <- <-]. exists currentKey.
    cbn [saveState updateKeyUsage set_keys currentIndex].
    split; [exact Hk|]. split.
    + pose proof (isKeyAvailable_key currentKey now) as Hkey.
      rewrite Hok in Hkey. symmetry. exact Hkey.
    + exact (isKeyAvailable_true _ _ _ Hok).
  - apply isKeyAvailable_false in Hok. subst k'.
    rewrite (list_insert_id _ _ _ Hk).
    intros Hrot. apply IH in Hrot. rewrite keys_moveToNextKey in Hrot.
    exact Hrot.
Qed.

Lemma getNextApiKey_never_cooling m now rnd a m' :
  getNextApiKey m now rnd = Returned a m' ->
  exists k, keys m !! currentIndex m' = Some k /\ key k = a
            /\ ~ coolingDown k now.
Proof.
  unfold getNextApiKey. destruct (keys m) eqn:Hkeys; [discriminate|].
  rewrite <- Hkeys. apply rotate_returned.
Qed.

(** The failure that reaches [maxConsecutiveFailures] starts the cooldown. *)
Lemma recordFailure_threshold c k errorType now :
  maxConsecutiveFailures c <= S (consecutiveFailures k) ->
  status (recordFailure c k errorType now) = failed
  /\ cooldownUntil (recordFailure c k errorType now)
     = Some (dateObject (now + cooldownPeriod c)).
Proof.
  intros Hmax. unfold recordFailure.
  apply Nat.leb_le in Hmax. rewrite Hmax. split; reflexivity.
Qed.

(** When the key at the current index is active, [getNextApiKey] returns
    it and leaves the index where it is: the next call meets the same key. *)
Lemma getNextApiKey_active m now rnd k :
  keys m !! currentIndex m = Some k -> status k = active ->
  exists m', getNextApiKey m now rnd = Returned (key k) m'
    /\ currentIndex m' = currentIndex m
    /\ keys m' !! currentIndex m' = Some (bumpUsage k now).
Proof.
  intros Hk Hactive. unfold getNextApiKey.
  destruct (keys m) as [|k0 ks] eqn:Hkeys; [rewrite lookup_nil in Hk; discriminate|].
  cbn [length rotate]. rewrite Hkeys, Hk, (isKeyAvailable_active k now Hactive).
  eexists. split; [reflexivity|]. split; [reflexivity|].
  cbn [saveState updateKeyUsage set_keys keys currentIndex].
  rewrite list_lookup_insert_eq; [reflexivity|].
  rewrite length_insert. apply lookup_lt_Some in Hk. exact Hk.
Qed.

(** C1 (the code departs from the claim).  Three keys [k1; k2; k3], all
    active, round-robin strategy, no failure reported: five successive
    [getNextApiKey] calls return [k1] five times, not [k1, k2, k3, k1, k2].
    The index stays at 0 and only the first key counts requests. *)
Theorem C1_round_robin_repeats_first_key :
  exists m5,
    acquisitions (started threeKeys) [1; 2; 3; 4; 5]%Z (fun _ => 0)
    = ([Some "k1"; Some "k1"; Some "k1"; Some "k1"; Some "k1"], m5)
    /\ currentIndex m5 = 0
    /\ (requestCount <$> keys m5) = [5; 0; 0]
    /\ (status <$> keys m5) = [active; active; active].
Proof. eexists. vm_compute. repeat split. Qed.

(** C2 (the code departs from the claim).  With [maxConsecutiveFailures = 3]
    and a cooldown of 600000 ms, three failures of [k1] in a row at time
    1000 mark it [failed] with [cooldownUntil = 601000]; a call at time 2000
    finds no key; the call at time 601000 returns [k1] and flips it back to
    [active], but leaves its [consecutiveFailures] at 3, not 0. *)
Theorem C2_cooldown_expiry_keeps_failure_count :
  exists m4 k4,
    (status <$> keys cooling) = [failed]
    /\ (cooldownUntil <$> keys cooling) = [Some (dateObject 601000)]
    /\ getNextApiKey cooling 2000 (fun _ => 0)
       = Thrown "No available API keys found" cooling
    /\ getNextApiKey cooling 601000 (fun _ => 0) = Returned "k1" m4
    /\ keys m4 = [k4]
    /\ status k4 = active
    /\ cooldownUntil k4 = None
    /\ consecutiveFailures k4 = 3.
Proof. eexists _, _. vm_compute. repeat split. Qed.

(** C10.  Reporting an outcome for a key that is not among the configured
    keys changes nothing: [reportKeyUsage] gives the manager back as it
    was, persisted file included, and so does [reportUsage] of the service. *)
Theorem C10_report_unknown_key_is_noop (m : Manager) (apiKey : string)
        (success : bool) (errorType : option string) (now : Z) (en : bool) :
  apiKey ∉ map key (keys m) ->
  reportKeyUsage m apiKey success errorType now = m
  /\ Client.reportUsage (Client.mkRotationService (Some m) en) apiKey success
       errorType now
     = Client.mkRotationService (Some m) en.
Proof.
  intros Hnot.
  assert (Hfind : list_find (fun k => key k = apiKey) (keys m) = None).
  { apply list_find_None, Forall_forall. intros k Hk Heq.
    apply Hnot. rewrite <- Heq. apply list_elem_of_fmap. exists k.
    split; [reflexivity | exact Hk]. }
  assert (Hm : reportKeyUsage m apiKey success errorType now = m)
    by (unfold reportKeyUsage; rewrite Hfind; reflexivity).
  split; [exact Hm|].
  unfold Client.reportUsage. cbn [Client.rotationManager Client.isEnabled].
  destruct en; cbn [negb]; [|reflexivity].
  unfold reportKeyUsage. rewrite Hfind. reflexivity.
Qed.

(** On the three keys of the scenario, a report for a key they do not hold. *)
Lemma C10_report_unknown_key_witness :
  reportKeyUsage (started threeKeys) "not-a-key" false (Some "quota") 42
  = started threeKeys
  /\ Client.reportUsage
       (Client.mkRotationService (Some (started threeKeys)) true)
       "not-a-key" false (Some "quota") 42
     = Client.mkRotationService (Some (started threeKeys)) true.
Proof.
  apply (C10_report_unknown_key_is_noop (started threeKeys)
           "not-a-key" false (Some "quota") 42 true).
  apply (bool_decide_unpack _). vm_compute. exact I.
Defined.

(** *** The manager beyond the claims *)

Lemma set_keys_id m k :
  keys m !! currentIndex m = Some k ->
  set_keys m (<[currentIndex m := k]> (keys m)) = m.
Proof.
  intros Hk. unfold set_keys. rewrite (list_insert_id _ _ _ Hk).
  destruct m; reflexivity.
Qed.

Lemma available_false k now :
  available k now = false -> isKeyAvailable k now = (false, k).
Proof.
  unfold available. destruct (isKeyAvailable k now) as [b k'] eqn:Hok.
  cbn [fst]. intros ->. apply isKeyAvailable_false in Hok as ->. reflexivity.
Qed.

(** The loop under round robin: [j] unavailable keys from the current index, then an available one. *)
Lemma rotate_round_robin_found j : forall left attempts m now rnd k,
  strategy (config m) = round_robin ->
  j < left ->
  (forall i k', i < j ->
     keys m !! ((currentIndex m + i) mod length (keys m)) = Some k' ->
     available k' now = false) ->
  currentIndex m < length (keys m) ->
  keys m !! ((currentIndex m + j) mod length (keys m)) = Some k ->
  available k now = true ->
  rotate left attempts m now rnd
  = let i := (currentIndex m + j) mod length (keys m) in
    let k' := snd (isKeyAvailable k now) in
    Returned (key k)
      (saveState
         (updateKeyUsage (set_keys (set_currentIndex m i) (<[i := k']> (keys m))) k' now)
         now).
Proof.
  induction j as [|j IH]; intros left attempts m now rnd k Hrr Hleft Hbefore Hidx Hk Hok.
  - destruct left as [|left]; [lia|]. cbn [rotate].
    rewrite Nat.add_0_r, Nat.mod_small in Hk by exact Hidx.
    rewrite Nat.add_0_r, Nat.mod_small by exact Hidx.
    rewrite Hk. unfold available in Hok.
    pose proof (isKeyAvailable_key k now) as Hkey.
    destruct (isKeyAvailable k now) as [ok k'] eqn:Hav. cbn [fst snd] in *.
    subst ok. cbv zeta. rewrite Hkey.
    replace (set_currentIndex m (currentIndex m)) with m by (destruct m; reflexivity).
    reflexivity.
  - destruct left as [|left]; [lia|]. cbn [rotate].
    destruct (keys m !! currentIndex m) as [k0|] eqn:Hk0.
    2:{ apply lookup_ge_None in Hk0. lia. }
    assert (Hun : available k0 now = false).
    { apply (Hbefore 0); [lia|]. rewrite Nat.add_0_r, Nat.mod_small by exact Hidx. exact Hk0. }
    rewrite (available_false _ _ Hun), (set_keys_id _ _ Hk0).
    unfold moveToNextKey. rewrite Hrr.
    set (m1 := set_currentIndex m _).
    assert (Hnext : forall i, (currentIndex m1 + i) mod length (keys m1)
                              = (currentIndex m + S i) mod length (keys m)).
    { intros i. subst m1. cbn [set_currentIndex currentIndex keys].
      rewrite Nat.Div0.add_mod_idemp_l. f_equal. lia. }
    rewrite (IH left (S attempts) m1 now rnd k).
    + cbv zeta. rewrite Hnext. subst m1. reflexivity.
    + exact Hrr.
    + lia.
    + intros i k' Hi. rewrite Hnext. apply Hbefore. lia.
    + subst m1. cbn [set_currentIndex currentIndex keys].
      apply Nat.mod_upper_bound. lia.
    + rewrite Hnext. exact Hk.
    + exact Hok.
Qed.

Lemma rotate_round_robin_none : forall left attempts m now rnd,
  strategy (config m) = round_robin ->
  currentIndex m < length (keys m) ->
  (forall i k', i < left ->
     keys m !! ((currentIndex m + i) mod length (keys m)) = Some k' ->
     available k' now = false) ->
  rotate left attempts m now rnd
  = Thrown "No available API keys found"
      (set_currentIndex m ((currentIndex m + left) mod length (keys m))).
Proof.
  induction left as [|left IH]; intros attempts m now rnd Hrr Hidx Hnone.
  - cbn [rotate]. rewrite Nat.add_0_r, Nat.mod_small by exact Hidx.
    destruct m; reflexivity.
  - cbn [rotate].
    destruct (keys m !! currentIndex m) as [k0|] eqn:Hk0.
    2:{ apply lookup_ge_None in Hk0. lia. }
    assert (Hun : available k0 now = false).
    { apply (Hnone 0); [lia|]. rewrite Nat.add_0_r, Nat.mod_small by exact Hidx. exact Hk0. }
    rewrite (available_false _ _ Hun), (set_keys_id _ _ Hk0).
    unfold moveToNextKey. rewrite Hrr.
    set (m1 := set_currentIndex m _).
    assert (Hnext : forall i, (currentIndex m1 + i) mod length (keys m1)
                              = (currentIndex m + S i) mod length (keys m)).
    { intros i. subst m1. cbn [set_currentIndex currentIndex keys].
      rewrite Nat.Div0.add_mod_idemp_l. f_equal. lia. }
    rewrite (IH (S attempts) m1 now rnd).
    + rewrite Hnext. subst m1. reflexivity.
    + exact Hrr.
    + subst m1. cbn [set_currentIndex currentIndex keys].
      apply Nat.mod_upper_bound. lia.
    + intros i k' Hi. rewrite Hnext. apply Hnone. lia.
Qed.

Lemma isKeyAvailable_status k now k' :
  isKeyAvailable k now = (true, k') -> status k' = active.
Proof.
  unfold isKeyAvailable.
  destruct (status k) eqn:Hs; [intros [= <-]; exact Hs| |discriminate].
  destruct (cooldownUntil k) as [cu|]; [|intros [= <-]; reflexivity].
  destruct (beforeDate now cu); [discriminate | intros [= <-]; reflexivity].
Qed.

Lemma isKeyAvailable_counters k now :
  requestCount (snd (isKeyAvailable k now)) = requestCount k
  /\ successCount (snd (isKeyAvailable k now)) = successCount k
  /\ failureCount (snd (isKeyAvailable k now)) = failureCount k
  /\ consecutiveFailures (snd (isKeyAvailable k now)) = consecutiveFailures k.
Proof.
  unfold isKeyAvailable.
  destruct (status k); [repeat split| |repeat split].
  destruct (cooldownUntil k) as [cu|]; [|repeat split].
  destruct (beforeDate now cu); repeat split.
Qed.

(** X1.  Under round robin, with the keys from the current index on
    unavailable up to the [j]-th and that one available, [getNextApiKey]
    returns the [j]-th: the first available key in the order of the
    configuration, taken cyclically from the current index.  The index
    stops there, the key is active and counts one more request, and no
    other key changes. *)
Theorem round_robin_returns_first_available (m : Manager) (now : Z)
        (rnd : nat -> nat) (j : nat) (k : ApiKeyInfo) :
  strategy (config m) = round_robin ->
  currentIndex m < length (keys m) ->
  j < length (keys m) ->
  (forall i k', i < j ->
     keys m !! ((currentIndex m + i) mod length (keys m)) = Some k' ->
     available k' now = false) ->
  keys m !! ((currentIndex m + j) mod length (keys m)) = Some k ->
  available k now = true ->
  exists m' k',
    getNextApiKey m now rnd = Returned (key k) m'
    /\ currentIndex m' = (currentIndex m + j) mod length (keys m)
    /\ keys m' !! currentIndex m' = Some k'
    /\ key k' = key k
    /\ status k' = active
    /\ requestCount k' = S (requestCount k)
    /\ lastUsed k' = Some (dateObject now)
    /\ totalRequests m' = S (totalRequests m)
    /\ (forall i, i <> currentIndex m' -> keys m' !! i = keys m !! i).
Proof.
  intros Hrr Hidx Hj Hbefore Hk Hok.
  unfold getNextApiKey. destruct (keys m) as [|k0 ks] eqn:Hkeys; [cbn in Hidx; lia|].
  rewrite <- Hkeys in *.
  rewrite (rotate_round_robin_found j _ _ _ _ _ k Hrr Hj Hbefore Hidx Hk Hok).
  cbv zeta.
  set (i := (currentIndex m + j) mod length (keys m)).
  assert (Hi : i < length (keys m)) by (apply Nat.mod_upper_bound; lia).
  pose proof (isKeyAvailable_key k now) as Hkey.
  pose proof (isKeyAvailable_counters k now) as (Hreq & _).
  unfold available in Hok.
  destruct (isKeyAvailable k now) as [ok k1] eqn:Hav. cbn [fst snd] in *. subst ok.
  eexists _, (bumpUsage k1 now). split; [reflexivity|].
  cbn [saveState updateKeyUsage set_keys set_currentIndex currentIndex keys totalRequests].
  split; [reflexivity|]. split.
  { rewrite list_lookup_insert_eq; [reflexivity|]. rewrite length_insert. exact Hi. }
  split; [exact Hkey|]. split; [exact (isKeyAvailable_status _ _ _ Hav)|].
  split; [cbn; rewrite Hreq; reflexivity|]. split; [reflexivity|].
  split; [reflexivity|].
  intros i' Hi'. rewrite !list_lookup_insert_ne by (intros ->; apply Hi'; reflexivity).
  reflexivity.
Qed.

(** On the three keys, the first one cooling down, at time 2000: the
    second key is returned. *)
Lemma round_robin_first_available_witness :
  exists m' k',
    getNextApiKey firstCooling 2000 (fun _ => 0) = Returned "k2" m'
    /\ currentIndex m' = 1
    /\ keys m' !! currentIndex m' = Some k'
    /\ key k' = "k2"
    /\ status k' = active
    /\ requestCount k' = 1
    /\ lastUsed k' = Some (dateObject 2000)
    /\ totalRequests m' = S (totalRequests firstCooling)
    /\ (forall i, i <> currentIndex m' ->
          keys m' !! i = keys firstCooling !! i).
Proof.
  apply (round_robin_returns_first_available firstCooling 2000 (fun _ => 0) 1
           (freshKey "k2")).
  - reflexivity.
  - vm_compute. lia.
  - vm_compute. lia.
  - intros i k' Hi. replace i with 0 by lia. intros [= <-]. reflexivity.
  - reflexivity.
  - reflexivity.
Defined.

Lemma rotate_thrown_round_robin : forall left attempts m now rnd msg m',
  strategy (config m) = round_robin ->
  currentIndex m < length (keys m) ->
  rotate left attempts m now rnd = Thrown msg m' ->
  forall i k', i < left ->
     keys m !! ((currentIndex m + i) mod length (keys m)) = Some k' ->
     available k' now = false.
Proof.
  induction left as [|left IH]; intros attempts m now rnd msg m' Hrr Hidx Hthrown i k' Hi Hk';
    [lia|].
  cbn [rotate] in Hthrown.
  destruct (keys m !! currentIndex m) as [k0|] eqn:Hk0.
  2:{ apply lookup_ge_None in Hk0. lia. }
  destruct (isKeyAvailable k0 now) as [[|] k1] eqn:Hav; [discriminate|].
  pose proof Hav as Hsame. apply isKeyAvailable_false in Hsame. subst k1.
  rewrite (set_keys_id _ _ Hk0) in Hthrown.
  destruct i as [|i].
  - rewrite Nat.add_0_r, Nat.mod_small in Hk' by exact Hidx.
    rewrite Hk0 in Hk'. injection Hk' as <-. unfold available. rewrite Hav. reflexivity.
  - unfold moveToNextKey in Hthrown. rewrite Hrr in Hthrown.
    refine (IH _ _ _ _ _ _ _ _ Hthrown i k' _ _).
    + exact Hrr.
    + cbn [set_currentIndex currentIndex keys]. apply Nat.mod_upper_bound. lia.
    + lia.
    + cbn [set_currentIndex currentIndex keys].
      rewrite Nat.Div0.add_mod_idemp_l.
      replace (currentIndex m + 1 + i) with (currentIndex m + S i) by lia. exact Hk'.
Qed.

Lemma cyclic_index n idx p :
  idx < n -> p < n -> exists i, i < n /\ (idx + i) mod n = p.
Proof.
  intros Hidx Hp. destruct (le_lt_dec idx p) as [Hle|Hlt].
  - exists (p - idx). split; [lia|]. replace (idx + (p - idx)) with p by lia.
    apply Nat.mod_small. exact Hp.
  - exists (n + p - idx). split; [lia|].
    replace (idx + (n + p - idx)) with (p + 1 * n) by lia.
    rewrite Nat.Div0.mod_add. apply Nat.mod_small. exact Hp.
Qed.

(** X2.  Under round robin [getNextApiKey] throws exactly when no key is
    available; the error is then "No available API keys found" and the
    manager is left as it was, its index back where it started. *)
Theorem round_robin_throws_iff_none_available (m : Manager) (now : Z)
        (rnd : nat -> nat) :
  strategy (config m) = round_robin ->
  currentIndex m < length (keys m) ->
  (getNextApiKey m now rnd = Thrown "No available API keys found" m
   <-> forall k, k ∈ keys m -> available k now = false)
  /\ (forall msg m', getNextApiKey m now rnd = Thrown msg m' ->
        msg = "No available API keys found" /\ m' = m).
Proof.
  intros Hrr Hidx.
  assert (Hnone : (forall k, k ∈ keys m -> available k now = false) ->
                  getNextApiKey m now rnd = Thrown "No available API keys found" m).
  { intros Hall. unfold getNextApiKey.
    destruct (keys m) as [|k0 ks] eqn:Hkeys; [cbn in Hidx; lia|]. rewrite <- Hkeys in *.
    rewrite rotate_round_robin_none; [|exact Hrr|exact Hidx|].
    - replace (currentIndex m + length (keys m)) with (currentIndex m + 1 * length (keys m)) by lia.
      rewrite Nat.Div0.mod_add, Nat.mod_small by exact Hidx.
      destruct m; reflexivity.
    - intros i k' _ Hk'. apply Hall. eapply list_elem_of_lookup_2. exact Hk'. }
  assert (Hinv : forall msg m', getNextApiKey m now rnd = Thrown msg m' ->
                 forall k, k ∈ keys m -> available k now = false).
  { intros msg m' Hthrown k Hin. unfold getNextApiKey in Hthrown.
    destruct (keys m) as [|k0 ks] eqn:Hkeys; [cbn in Hidx; lia|]. rewrite <- Hkeys in *.
    apply list_elem_of_lookup_1 in Hin as [p Hp].
    pose proof (lookup_lt_Some _ _ _ Hp) as Hlt.
    destruct (cyclic_index _ _ _ Hidx Hlt) as (i & Hi & Heq).
    apply (rotate_thrown_round_robin _ _ _ _ _ _ _ Hrr Hidx Hthrown i k Hi).
    rewrite Heq. exact Hp. }
  split; [split; [intros Hthrown; exact (Hinv _ _ Hthrown) | exact Hnone]|].
  intros msg m' Hthrown. pose proof (Hnone (Hinv _ _ Hthrown)) as Heq.
  rewrite Heq in Hthrown. injection Hthrown as <- <-. split; reflexivity.
Qed.

(** On the single key cooling down until 601000, at time 2000. *)
Lemma round_robin_throws_witness :
  (getNextApiKey cooling 2000 (fun _ => 0)
   = Thrown "No available API keys found" cooling
   <-> forall k, k ∈ keys cooling -> available k 2000 = false)
  /\ (forall msg m', getNextApiKey cooling 2000 (fun _ => 0) = Thrown msg m' ->
        msg = "No available API keys found" /\ m' = cooling).
Proof.
  apply (round_robin_throws_iff_none_available cooling 2000 (fun _ => 0)).
  - reflexivity.
  - vm_compute. lia.
Defined.

(** A key restored from the file is not held back by its cooldown: the
    date is a string there. *)
Lemma restored_key_available a p now :
  pk_status p = failed -> available (restoreKey (freshKey a) p) now = true.
Proof.
  intros Hfailed. unfold available, isKeyAvailable.
  cbn [restoreKey status cooldownUntil freshKey]. rewrite Hfailed.
  destruct (pk_cooldownUntil p); reflexivity.
Qed.

(** An available key at the current index is the one returned. *)
Lemma getNextApiKey_available m now rnd k :
  keys m !! currentIndex m = Some k -> available k now = true ->
  exists m', getNextApiKey m now rnd = Returned (key k) m'.
Proof.
  intros Hk Hok. unfold getNextApiKey.
  destruct (keys m) as [|k0 ks] eqn:Hkeys; [rewrite lookup_nil in Hk; discriminate|].
  cbn [length rotate]. rewrite Hkeys, Hk.
  pose proof (isKeyAvailable_key k now) as Hkey. unfold available in Hok.
  destruct (isKeyAvailable k now) as [ok k']. cbn [fst snd] in Hok, Hkey. subst ok.
  rewrite Hkey. eexists. reflexivity.
Qed.

(** X3.  A restart forgets the cooldown.  The file holds the date of
    [cooldownUntil] as a string, [restoreState] copies the string, and
    [isKeyAvailable] compares it with a date as it would a number: after
    [initialize] on the file of a manager whose current key has the status
    [failed], that key, restored as [failed] with its counters and its
    cooldown time, is returned by [getNextApiKey] at any time. *)
Theorem restart_reactivates_a_cooling_key (c : RotationConfig) (m : Manager)
        (t0 t now : Z) (rnd : nat -> nat) (k : ApiKeyInfo) (a : string) :
  length (keys m) = length (accounts c) ->
  keys m !! currentIndex m = Some k ->
  accounts c !! currentIndex m = Some a ->
  status k = failed ->
  exists m0 k0 m',
    initialize c (persisted (saveState m t0)) t = Some m0
    /\ currentIndex m0 = currentIndex m
    /\ totalRequests m0 = totalRequests m
    /\ keys m0 !! currentIndex m = Some k0
    /\ status k0 = failed
    /\ consecutiveFailures k0 = consecutiveFailures k
    /\ (timeOf <$> cooldownUntil k0) = (timeOf <$> cooldownUntil k)
    /\ getNextApiKey m0 now rnd = Returned a m'.
Proof.
  intros Hlen Hk Ha Hfailed.
  unfold initialize. destruct (accounts c) as [|a0 accs] eqn:Haccs;
    [rewrite lookup_nil in Ha; discriminate|].
  rewrite <- Haccs in *.
  cbn [saveState persisted]. unfold restoreState.
  cbn [pd_keys keys pd_currentIndex pd_totalRequests config persisted].
  rewrite length_fmap, length_map, Hlen, Nat.eqb_refl.
  set (ks := zip_with restoreKey _ _).
  assert (Hk0 : ks !! currentIndex m
                = Some (restoreKey (freshKey a) (toPersisted k))).
  { subst ks. rewrite lookup_zip_with, list_lookup_fmap.
    change (map freshKey (accounts c)) with (freshKey <$> accounts c).
    rewrite list_lookup_fmap, Ha, Hk. reflexivity. }
  set (m0 := saveState _ t).
  destruct (getNextApiKey_available m0 now rnd
              (restoreKey (freshKey a) (toPersisted k)) Hk0
              (restored_key_available a (toPersisted k) now Hfailed)) as (m' & Hnext).
  exists m0, (restoreKey (freshKey a) (toPersisted k)), m'.
  split; [reflexivity|].
  split; [reflexivity|]. split; [reflexivity|]. split; [exact Hk0|].
  split; [exact Hfailed|]. split; [reflexivity|].
  split; [cbn; destruct (cooldownUntil k); reflexivity|].
  exact Hnext.
Qed.

(** On the single key cooling down until 601000, restarted and asked at
    time 2000. *)
Lemma restart_reactivates_witness :
  exists m0 k0 m',
    initialize oneKey (persisted (saveState cooling 1500)) 1800 = Some m0
    /\ currentIndex m0 = currentIndex cooling
    /\ totalRequests m0 = totalRequests cooling
    /\ keys m0 !! currentIndex cooling = Some k0
    /\ status k0 = failed
    /\ consecutiveFailures k0 = 3
    /\ (timeOf <$> cooldownUntil k0) = Some 601000%Z
    /\ getNextApiKey m0 2000 (fun _ => 0) = Returned "k1" m'.
Proof.
  apply (restart_reactivates_a_cooling_key oneKey cooling 1500 1800 2000
           (fun _ => 0)
           (mkApiKeyInfo "k1" failed 0 0 3 3 None None (Some (dateObject 1000))
              (Some (dateObject 601000)) None) "k1");
    reflexivity.
Defined.

(** [find] meets the same record after it was updated in place. *)
Lemma list_find_key_insert ks apiKey i k k' :
  list_find (fun k => key k = apiKey) ks = Some (i, k) ->
  key k' = apiKey ->
  list_find (fun k => key k = apiKey) (<[i := k']> ks) = Some (i, k').
Proof.
  intros Hfind Hkey. apply list_find_Some in Hfind as (Hk & _ & Hbefore).
  apply list_find_Some. split.
  - apply list_lookup_insert_eq. eapply lookup_lt_Some. exact Hk.
  - split; [exact Hkey|]. intros j y Hy Hj.
    rewrite list_lookup_insert_ne in Hy by lia. exact (Hbefore j y Hy Hj).
Qed.

Lemma reportKeyUsage_found m apiKey success errorType now i k :
  list_find (fun k => key k = apiKey) (keys m) = Some (i, k) ->
  reportKeyUsage m apiKey success errorType now
  = saveState
      (set_keys m (<[i := if success then recordSuccess k now
                          else recordFailure (config m) k errorType now]> (keys m)))
      now.
Proof. intros Hfind. unfold reportKeyUsage. rewrite Hfind. reflexivity. Qed.

Lemma key_recordFailure c k errorType now :
  key (recordFailure c k errorType now) = key k.
Proof. unfold recordFailure. destruct (_ <=? _)%nat; reflexivity. Qed.

Lemma reportFailures_key : forall times m apiKey errorType i k,
  list_find (fun k => key k = apiKey) (keys m) = Some (i, k) ->
  consecutiveFailures k = 0 ->
  status k = active ->
  exists k',
    list_find (fun k => key k = apiKey)
      (keys (reportFailures m apiKey errorType times)) = Some (i, k')
    /\ config (reportFailures m apiKey errorType times) = config m
    /\ consecutiveFailures k' = length times
    /\ failureCount k' = failureCount k + length times
    /\ requestCount k' = requestCount k
    /\ successCount k' = successCount k
    /\ (length times < maxConsecutiveFailures (config m) ->
        status k' = active /\ cooldownUntil k' = cooldownUntil k)
    /\ (forall tl, last times = Some tl ->
        maxConsecutiveFailures (config m) <= length times ->
        status k' = failed
        /\ cooldownUntil k' = Some (dateObject (tl + cooldownPeriod (config m)))).
Proof.
  induction times as [|t times IH] using rev_ind; intros m apiKey errorType i k Hfind Hzero Hactive.
  - exists k. cbn [reportFailures fold_left length].
    split; [exact Hfind|]. split; [reflexivity|]. split; [exact Hzero|].
    split; [lia|]. split; [reflexivity|]. split; [reflexivity|].
    split; [intros _; split; [exact Hactive | reflexivity]|]. intros tl [=].
  - destruct (IH m apiKey errorType i k Hfind Hzero Hactive)
      as (k' & Hfind' & Hcfg & Hcons & Hfail & Hreq & Hsucc & Hbelow & Hat).
    unfold reportFailures in *. rewrite fold_left_app. cbn [fold_left].
    set (m' := fold_left _ times m) in *.
    rewrite (reportKeyUsage_found m' apiKey false errorType t i k' Hfind').
    cbn [saveState set_keys keys config]. rewrite Hcfg.
    exists (recordFailure (config m) k' errorType t).
    split.
    { apply (list_find_key_insert _ _ _ _ _ Hfind').
      rewrite key_recordFailure.
      apply list_find_Some in Hfind' as (_ & Hkey & _). exact Hkey. }
    split; [reflexivity|].
    rewrite length_app, last_snoc. cbn [length].
    unfold recordFailure. rewrite Hcons.
    destruct (maxConsecutiveFailures (config m) <=? S (length times))%nat eqn:Hmax;
      cbn [consecutiveFailures failureCount requestCount successCount status cooldownUntil].
    + apply Nat.leb_le in Hmax.
      split; [lia|]. split; [lia|]. split; [exact Hreq|]. split; [exact Hsucc|].
      split; [intros; lia|]. intros tl [= <-] _. split; reflexivity.
    + apply Nat.leb_gt in Hmax.
      split; [lia|]. split; [lia|]. split; [exact Hreq|]. split; [exact Hsucc|].
      split; [intros _; apply Hbelow; lia|]. intros tl _ Hle. lia.
Qed.

(** X4.  Failures of an active key reported in a row, from a count of 0.
    Each one is counted.  Below [maxConsecutiveFailures] the key stays
    active; from that number on it is [failed], and its cooldown runs from
    the time of the last failure reported: until then plus
    [cooldownPeriod] the key is not available. *)
Theorem consecutive_failures_disable_at_the_threshold (m : Manager)
        (apiKey : string) (errorType : option string) (times : list Z)
        (i : nat) (k : ApiKeyInfo) :
  list_find (fun k => key k = apiKey) (keys m) = Some (i, k) ->
  consecutiveFailures k = 0 ->
  status k = active ->
  exists k',
    keys (reportFailures m apiKey errorType times) !! i = Some k'
    /\ key k' = apiKey
    /\ consecutiveFailures k' = length times
    /\ failureCount k' = failureCount k + length times
    /\ (length times < maxConsecutiveFailures (config m) ->
        status k' = active /\ cooldownUntil k' = cooldownUntil k)
    /\ (forall tl, last times = Some tl ->
        maxConsecutiveFailures (config m) <= length times ->
        status k' = failed
        /\ cooldownUntil k' = Some (dateObject (tl + cooldownPeriod (config m)))
        /\ forall now, (now < tl + cooldownPeriod (config m))%Z ->
             available k' now = false).
Proof.
  intros Hfind Hzero Hactive.
  destruct (reportFailures_key times m apiKey errorType i k Hfind Hzero Hactive)
    as (k' & Hfind' & _ & Hcons & Hfail & _ & _ & Hbelow & Hat).
  exists k'. apply list_find_Some in Hfind' as (Hk' & Hkey & _).
  split; [exact Hk'|]. split; [exact Hkey|]. split; [exact Hcons|].
  split; [exact Hfail|]. split; [exact Hbelow|].
  intros tl Hlast Hmax. destruct (Hat tl Hlast Hmax) as (Hst & Hcu).
  split; [exact Hst|]. split; [exact Hcu|]. intros now Hnow.
  unfold available. rewrite (isKeyAvailable_cooling k' now _ Hst Hcu Hnow). reflexivity.
Qed.

(** Three failures of the second of three keys. *)
Lemma consecutive_failures_witness :
  exists k',
    keys (reportFailures (started threeKeys) "k2" (Some "quota") [10; 20; 30]%Z)
      !! 1 = Some k'
    /\ key k' = "k2"
    /\ consecutiveFailures k' = 3
    /\ failureCount k' = 3
    /\ (3 < maxConsecutiveFailures threeKeys ->
        status k' = active /\ cooldownUntil k' = None)
    /\ (forall tl, Some 30%Z = Some tl ->
        maxConsecutiveFailures threeKeys <= 3 ->
        status k' = failed
        /\ cooldownUntil k' = Some (dateObject (tl + cooldownPeriod threeKeys))
        /\ forall now, (now < tl + cooldownPeriod threeKeys)%Z ->
             available k' now = false).
Proof.
  apply (consecutive_failures_disable_at_the_threshold (started threeKeys)
           "k2" (Some "quota") [10; 20; 30]%Z 1 (freshKey "k2"));
    reflexivity.
Defined.

(** X5.  One success reported for a [failed] key makes it active with a
    failure count of 0.  [cooldownUntil] is left as it is, and does not
    matter any more: the key is available at any time. *)
Theorem success_report_reenables_a_key (m : Manager) (apiKey : string)
        (errorType : option string) (now : Z) (i : nat) (k : ApiKeyInfo) :
  list_find (fun k => key k = apiKey) (keys m) = Some (i, k) ->
  status k = failed ->
  exists k',
    keys (reportKeyUsage m apiKey true errorType now) !! i = Some k'
    /\ key k' = apiKey
    /\ status k' = active
    /\ consecutiveFailures k' = 0
    /\ successCount k' = S (successCount k)
    /\ lastSuccess k' = Some (dateObject now)
    /\ cooldownUntil k' = cooldownUntil k
    /\ forall t, available k' t = true.
Proof.
  intros Hfind Hfailed.
  rewrite (reportKeyUsage_found m apiKey true errorType now i k Hfind).
  cbn [saveState set_keys keys].
  apply list_find_Some in Hfind as (Hk & Hkey & _).
  exists (recordSuccess k now).
  split; [apply list_lookup_insert_eq; eapply lookup_lt_Some; exact Hk|].
  unfold recordSuccess. rewrite Hfailed.
  cbn [key status consecutiveFailures successCount lastSuccess cooldownUntil].
  repeat split; try reflexivity; try assumption.
Qed.

(** On the single key cooling down until 601000. *)
Lemma success_report_witness :
  exists k',
    keys (reportKeyUsage cooling "k1" true None 2000) !! 0 = Some k'
    /\ key k' = "k1"
    /\ status k' = active
    /\ consecutiveFailures k' = 0
    /\ successCount k' = 1
    /\ lastSuccess k' = Some (dateObject 2000)
    /\ cooldownUntil k' = Some (dateObject 601000)
    /\ forall t, available k' t = true.
Proof.
  apply (success_report_reenables_a_key cooling "k1" None 2000 0
           (mkApiKeyInfo "k1" failed 0 0 3 3 None None (Some (dateObject 1000))
              (Some (dateObject 601000)) None));
    reflexivity.
Defined.

(** X6.  [resetAllKeys] makes every key active, with no consecutive
    failure, no cooldown and no last error, and keeps its name and its
    request, success and failure counts; the next [getNextApiKey] returns
    the key at the current index, whatever its state was. *)
Theorem reset_all_then_acquire (m : Manager) (t now : Z) (rnd : nat -> nat)
        (k : ApiKeyInfo) :
  keys m !! currentIndex m = Some k ->
  (forall i k0, keys m !! i = Some k0 ->
     exists k1,
       keys (resetAllKeys m t) !! i = Some k1
       /\ key k1 = key k0
       /\ status k1 = active
       /\ consecutiveFailures k1 = 0
       /\ cooldownUntil k1 = None
       /\ lastError k1 = None
       /\ requestCount k1 = requestCount k0
       /\ successCount k1 = successCount k0
       /\ failureCount k1 = failureCount k0)
  /\ exists m',
       getNextApiKey (resetAllKeys m t) now rnd = Returned (key k) m'
       /\ currentIndex m' = currentIndex m.
Proof.
  intros Hk. split.
  - intros i k0 Hk0. exists (resetKey k0). split.
    + unfold resetAllKeys. cbn [saveState set_keys keys].
      change (map resetKey (keys m)) with (resetKey <$> keys m).
      rewrite list_lookup_fmap, Hk0. reflexivity.
    + repeat split.
  - destruct (getNextApiKey_active (resetAllKeys m t) now rnd (resetKey k))
      as (m' & Hnext & Hidx & _).
    + unfold resetAllKeys. cbn [saveState set_keys keys currentIndex].
      change (map resetKey (keys m)) with (resetKey <$> keys m).
      rewrite list_lookup_fmap, Hk. reflexivity.
    + reflexivity.
    + exists m'. split; [exact Hnext | exact Hidx].
Qed.

(** On the single key cooling down until 601000. *)
Lemma reset_all_witness :
  (forall i k0, keys cooling !! i = Some k0 ->
     exists k1,
       keys (resetAllKeys cooling 1500) !! i = Some k1
       /\ key k1 = key k0
       /\ status k1 = active
       /\ consecutiveFailures k1 = 0
       /\ cooldownUntil k1 = None
       /\ lastError k1 = None
       /\ requestCount k1 = requestCount k0
       /\ successCount k1 = successCount k0
       /\ failureCount k1 = failureCount k0)
  /\ exists m',
       getNextApiKey (resetAllKeys cooling 1500) 2000 (fun _ => 0)
       = Returned "k1" m'
       /\ currentIndex m' = currentIndex cooling.
Proof.
  apply (reset_all_then_acquire cooling 1500 2000 (fun _ => 0)
           (mkApiKeyInfo "k1" failed 0 0 3 3 None None (Some (dateObject 1000))
              (Some (dateObject 601000)) None)).
  reflexivity.
Defined.

Lemma leastUsedFrom_spec : forall ks index minUsage minIndex,
  (leastUsedFrom ks index minUsage minIndex = minIndex
   /\ forall q k, ks !! q = Some k -> status k = active ->
        ~ below (requestCount k) minUsage)
  \/ exists p k,
       leastUsedFrom ks index minUsage minIndex = index + p
       /\ ks !! p = Some k
       /\ status k = active
       /\ below (requestCount k) minUsage
       /\ forall q k', ks !! q = Some k' -> status k' = active ->
            requestCount k <= requestCount k'
            /\ (q < p -> requestCount k < requestCount k').
Proof.
  induction ks as [|k ks IH]; intros index minUsage minIndex.
  - left. split; [reflexivity|]. intros q k. rewrite lookup_nil. discriminate.
  - cbn [leastUsedFrom].
    set (better := match status k, minUsage with
                   | active, None => true
                   | active, Some u => (requestCount k <? u)%nat
                   | _, _ => false
                   end).
    assert (Hbetter : better = true <-> status k = active /\ below (requestCount k) minUsage).
    { subst better. destruct (status k), minUsage as [u|]; cbn [below];
        rewrite ?Nat.ltb_lt; intuition (try discriminate; auto). }
    destruct better.
    + destruct (proj1 Hbetter eq_refl) as (Hactive & Hbelow).
      destruct (IH (S index) (Some (requestCount k)) index)
        as [(Hres & Hnone)|(p & k' & Hres & Hk' & Hact' & Hbelow' & Hmin)].
      * right. exists 0, k. rewrite Hres. split; [lia|]. split; [reflexivity|].
        split; [exact Hactive|]. split; [exact Hbelow|].
        intros [|q] k' Hq Hact'; cbn in Hq.
        -- injection Hq as <-. split; lia.
        -- specialize (Hnone q k' Hq Hact'). cbn [below] in Hnone. split; lia.
      * right. exists (S p), k'. rewrite Hres. split; [lia|]. split; [exact Hk'|].
        split; [exact Hact'|]. cbn [below] in Hbelow'.
        split; [destruct minUsage; cbn [below] in *; [lia|exact I]|].
        intros [|q] k'' Hq Hact''; cbn in Hq.
        -- injection Hq as <-. split; lia.
        -- destruct (Hmin q k'' Hq Hact'') as (Hle & Hlt). split; [exact Hle|].
           intros Hlt'. apply Hlt. lia.
    + assert (Hnot : status k = active -> ~ below (requestCount k) minUsage).
      { intros Hact Hb. discriminate (proj2 Hbetter (conj Hact Hb)). }
      destruct (IH (S index) minUsage minIndex)
        as [(Hres & Hnone)|(p & k' & Hres & Hk' & Hact' & Hbelow' & Hmin)].
      * left. split; [exact Hres|].
        intros [|q] k' Hq Hact'; cbn in Hq.
        -- injection Hq as <-. apply Hnot, Hact'.
        -- exact (Hnone q k' Hq Hact').
      * right. exists (S p), k'. rewrite Hres. split; [lia|]. split; [exact Hk'|].
        split; [exact Hact'|]. split; [exact Hbelow'|].
        intros [|q] k'' Hq Hact''; cbn in Hq.
        -- injection Hq as <-.
           assert (requestCount k' < requestCount k).
           { destruct minUsage as [u|]; cbn [below] in *.
             - specialize (Hnot Hact''). lia.
             - destruct (Hnot Hact'' I). }
           split; lia.
        -- destruct (Hmin q k'' Hq Hact'') as (Hle & Hlt). split; [exact Hle|].
           intros Hlt'. apply Hlt. lia.
Qed.

(** X7.  [findLeastUsedKeyIndex] gives the index of an active key with
    the least [requestCount] among the active keys, the first of them in
    the order of the configuration; without any active key it gives 0. *)
Theorem findLeastUsedKeyIndex_is_first_least_used_active (m : Manager) :
  ((forall q k, keys m !! q = Some k -> status k = active -> False)
   /\ findLeastUsedKeyIndex m = 0)
  \/ exists k,
       keys m !! findLeastUsedKeyIndex m = Some k
       /\ status k = active
       /\ forall q k', keys m !! q = Some k' -> status k' = active ->
            requestCount k <= requestCount k'
            /\ (q < findLeastUsedKeyIndex m -> requestCount k < requestCount k').
Proof.
  unfold findLeastUsedKeyIndex.
  destruct (leastUsedFrom_spec (keys m) 0 None 0)
    as [(Hres & Hnone)|(p & k & Hres & Hk & Hact & _ & Hmin)].
  - left. split; [|exact Hres]. intros q k Hq Hact. exact (Hnone q k Hq Hact I).
  - right. exists k. rewrite Hres. cbn [Nat.add].
    split; [exact Hk|]. split; [exact Hact|]. exact Hmin.
Qed.

Lemma consistent_initialize c t m :
  initialize c None t = Some m -> consistent c m.
Proof.
  unfold initialize. destruct (accounts c) as [|a accs] eqn:Haccs; [discriminate|].
  rewrite <- Haccs. intros [= <-]. cbn [saveState].
  assert (Hlen : 0 < length (accounts c)) by (rewrite Haccs; cbn; lia).
  clear Haccs. unfold consistent, saveState.
  cbn [config keys currentIndex totalRequests persisted].
  change (map freshKey (accounts c)) with (freshKey <$> accounts c).
  split; [reflexivity|]. split.
  { rewrite <- list_fmap_compose. apply list_fmap_id. }
  split; [rewrite length_fmap; exact Hlen|]. split.
  { apply Forall_fmap, Forall_true. intros a'. left. reflexivity. }
  split.
  { rewrite <- list_fmap_compose. clear Hlen. induction (accounts c) as [|a' l IH]; [reflexivity|].
    change (0 = 0 + list_sum (requestCount ∘ freshKey <$> l)).
    rewrite <- IH. reflexivity. }
  eexists. split; [reflexivity|]. split; reflexivity.
Qed.

Lemma list_sum_insert (f : ApiKeyInfo -> nat) ks : forall i k k',
  ks !! i = Some k ->
  list_sum (f <$> <[i := k']> ks) + f k = list_sum (f <$> ks) + f k'.
Proof.
  induction ks as [|k0 ks IH]; intros i k k' Hk; [rewrite lookup_nil in Hk; discriminate|].
  destruct i as [|i].
  - cbn in Hk. injection Hk as <-. cbn. lia.
  - cbn in Hk. specialize (IH i k k' Hk).
    change (<[S i := k']> (k0 :: ks)) with (k0 :: <[i := k']> ks).
    rewrite !fmap_cons. cbn [list_sum foldr].
    change (foldr Nat.add 0 (f <$> <[i:=k']> ks)) with (list_sum (f <$> <[i:=k']> ks)).
    change (foldr Nat.add 0 (f <$> ks)) with (list_sum (f <$> ks)). lia.
Qed.

Lemma findLeastUsedKeyIndex_bound m :
  0 < length (keys m) -> findLeastUsedKeyIndex m < length (keys m).
Proof.
  intros Hlen.
  unfold findLeastUsedKeyIndex.
  destruct (leastUsedFrom_spec (keys m) 0 None 0)
    as [(-> & _)|(p & k & -> & Hk & _)]; [exact Hlen|].
  cbn [Nat.add]. eapply lookup_lt_Some. exact Hk.
Qed.

Lemma moveToNextKey_bound m r :
  0 < length (keys m) -> currentIndex (moveToNextKey m r) < length (keys m).
Proof.
  intros Hlen. unfold moveToNextKey.
  destruct (strategy (config m)); cbn [set_currentIndex currentIndex].
  - apply Nat.mod_upper_bound. lia.
  - apply Nat.mod_upper_bound. lia.
  - apply findLeastUsedKeyIndex_bound, Hlen.
Qed.

Lemma consistent_moveToNextKey c m r :
  consistent c m -> consistent c (moveToNextKey m r).
Proof.
  intros (Hcfg & Hkeys & Hidx & Hst & Htotal & Hfile).
  pose proof (moveToNextKey_bound m r ltac:(lia)) as Hbound.
  unfold consistent. rewrite keys_moveToNextKey.
  assert (Hsame : config (moveToNextKey m r) = config m
                  /\ totalRequests (moveToNextKey m r) = totalRequests m
                  /\ persisted (moveToNextKey m r) = persisted m).
  { unfold moveToNextKey. destruct (strategy (config m)); repeat split. }
  destruct Hsame as (-> & -> & ->).
  repeat split; assumption.
Qed.

(** A key that [isKeyAvailable] accepts, counted as used, at its place. *)
Lemma consistent_use c m k k' now :
  consistent c m ->
  keys m !! currentIndex m = Some k ->
  isKeyAvailable k now = (true, k') ->
  consistent c
    (saveState (updateKeyUsage (set_keys m (<[currentIndex m := k']> (keys m))) k' now) now).
Proof.
  intros (Hcfg & Hkeys & Hidx & Hst & Htotal & Hfile) Hk Hok.
  pose proof (isKeyAvailable_key k now) as Hkey.
  pose proof (isKeyAvailable_counters k now) as (Hreq & _).
  pose proof (isKeyAvailable_status _ _ _ Hok) as Hactive.
  rewrite Hok in Hkey, Hreq. cbn [snd] in Hkey, Hreq.
  unfold consistent.
  cbn [saveState updateKeyUsage set_keys config keys currentIndex totalRequests persisted].
  rewrite list_insert_insert_eq.
  split; [exact Hcfg|]. split.
  { rewrite list_fmap_insert. cbn [bumpUsage key]. rewrite Hkey, <- Hkeys.
    apply list_insert_id. rewrite list_lookup_fmap, Hk. reflexivity. }
  split; [rewrite length_insert; exact Hidx|]. split.
  { apply Forall_insert; [exact Hst|]. left. exact Hactive. }
  split.
  { pose proof (list_sum_insert requestCount (keys m) (currentIndex m) k
                  (bumpUsage k' now) Hk) as Hsum.
    cbn [bumpUsage requestCount] in Hsum. rewrite Hreq in Hsum. lia. }
  eexists. split; [reflexivity|]. split; reflexivity.
Qed.

Lemma consistent_rotate c now rnd : forall left attempts m,
  consistent c m ->
  match rotate left attempts m now rnd with
  | Returned a m' => consistent c m' /\ a ∈ accounts c
  | Thrown msg m' => consistent c m' /\ msg = "No available API keys found"
  end.
Proof.
  induction left as [|left IH]; intros attempts m Hm; cbn [rotate];
    [split; [exact Hm | reflexivity]|].
  destruct (keys m !! currentIndex m) as [k|] eqn:Hk.
  2:{ apply lookup_ge_None in Hk. destruct Hm as (_ & _ & Hidx & _). lia. }
  destruct (isKeyAvailable k now) as [[|] k'] eqn:Hok.
  - split; [exact (consistent_use c m k k' now Hm Hk Hok)|].
    destruct Hm as (_ & <- & _).
    pose proof (isKeyAvailable_key k now) as Hkey. rewrite Hok in Hkey. cbn [snd] in Hkey.
    rewrite Hkey. apply list_elem_of_fmap. exists k. split; [reflexivity|].
    eapply list_elem_of_lookup_2. exact Hk.
  - apply isKeyAvailable_false in Hok. subst k'. rewrite (set_keys_id _ _ Hk).
    apply IH, consistent_moveToNextKey, Hm.
Qed.

Lemma consistent_getNextApiKey c m now rnd :
  consistent c m ->
  match getNextApiKey m now rnd with
  | Returned a m' => consistent c m' /\ a ∈ accounts c
  | Thrown msg m' => consistent c m' /\ msg = "No available API keys found"
  end.
Proof.
  intros Hm. unfold getNextApiKey.
  destruct (keys m) as [|k ks] eqn:Hkeys.
  { destruct Hm as (_ & _ & Hidx & _). rewrite Hkeys in Hidx. cbn in Hidx. lia. }
  apply consistent_rotate, Hm.
Qed.

Lemma status_recordSuccess k now :
  status k = active \/ status k = failed ->
  status (recordSuccess k now) = active \/ status (recordSuccess k now) = failed.
Proof. unfold recordSuccess. intros [->| ->]; left; reflexivity. Qed.

Lemma status_recordFailure c k errorType now :
  status k = active \/ status k = failed ->
  status (recordFailure c k errorType now) = active
  \/ status (recordFailure c k errorType now) = failed.
Proof.
  unfold recordFailure. intros Hst.
  destruct (_ <=? _)%nat; cbn [status]; [right; reflexivity | exact Hst].
Qed.

Lemma consistent_reportKeyUsage c m apiKey success errorType now :
  consistent c m -> consistent c (reportKeyUsage m apiKey success errorType now).
Proof.
  intros Hm. unfold reportKeyUsage.
  destruct (list_find (fun k => key k = apiKey) (keys m)) as [[i k]|] eqn:Hfind;
    [|exact Hm].
  destruct Hm as (Hcfg & Hkeys & Hidx & Hst & Htotal & Hfile).
  apply list_find_Some in Hfind as (Hk & Hkey & _).
  set (k' := if success then _ else _).
  assert (Hk' : key k' = key k /\ requestCount k' = requestCount k
                /\ (status k' = active \/ status k' = failed)).
  { assert (Hstk : status k = active \/ status k = failed)
      by (exact (proj1 (Forall_lookup _ _) Hst i k Hk)).
    subst k'. destruct success.
    - split; [reflexivity|]. split; [reflexivity|]. apply status_recordSuccess, Hstk.
    - split; [apply key_recordFailure|]. split.
      + unfold recordFailure. destruct (_ <=? _)%nat; reflexivity.
      + apply status_recordFailure, Hstk. }
  destruct Hk' as (Hkey' & Hreq' & Hst').
  unfold consistent.
  cbn [saveState set_keys config keys currentIndex totalRequests persisted].
  split; [exact Hcfg|]. split.
  { rewrite list_fmap_insert, Hkey', <- Hkeys.
    apply list_insert_id. rewrite list_lookup_fmap, Hk. reflexivity. }
  split; [rewrite length_insert; exact Hidx|]. split.
  { apply Forall_insert; assumption. }
  split.
  { pose proof (list_sum_insert requestCount (keys m) i k k' Hk) as Hsum. lia. }
  eexists. split; [reflexivity|]. split; reflexivity.
Qed.

Lemma consistent_resetAllKeys c m now :
  consistent c m -> consistent c (resetAllKeys m now).
Proof.
  intros (Hcfg & Hkeys & Hidx & Hst & Htotal & Hfile).
  unfold consistent, resetAllKeys.
  cbn [saveState set_keys config keys currentIndex totalRequests persisted].
  change (map resetKey (keys m)) with (resetKey <$> keys m).
  split; [exact Hcfg|]. split.
  { rewrite <- list_fmap_compose. exact Hkeys. }
  split; [rewrite length_fmap; exact Hidx|]. split.
  { apply Forall_fmap, Forall_true. intros k. left. reflexivity. }
  split; [rewrite <- list_fmap_compose; exact Htotal|].
  eexists. split; [reflexivity|]. split; reflexivity.
Qed.

Lemma consistent_after c m call : consistent c m -> consistent c (after m call).
Proof.
  intros Hm. destruct call as [now rnd|apiKey success errorType now|now]; cbn [after].
  - pose proof (consistent_getNextApiKey c m now rnd Hm) as Hnext.
    destruct (getNextApiKey m now rnd); apply Hnext.
  - apply consistent_reportKeyUsage, Hm.
  - apply consistent_resetAllKeys, Hm.
Qed.

Lemma consistent_afterAll c calls : forall m,
  consistent c m -> consistent c (afterAll m calls).
Proof.
  unfold afterAll. induction calls as [|call calls IH]; intros m Hm; [exact Hm|].
  cbn [fold_left]. apply IH, consistent_after, Hm.
Qed.

(** X8.  From [initialize] without a file, whatever calls of
    [getNextApiKey], [reportKeyUsage] and [resetAllKeys] follow: the keys
    are those of the configuration, in its order; the index is within
    them; every status is [active] or [failed]; and [getNextApiKey]
    returns one of the configured keys, or throws "No available API keys
    found". *)
Theorem calls_keep_the_configured_keys (c : RotationConfig) (t : Z)
        (m0 : Manager) (calls : list Call) :
  initialize c None t = Some m0 ->
  config (afterAll m0 calls) = c
  /\ key <$> keys (afterAll m0 calls) = accounts c
  /\ currentIndex (afterAll m0 calls) < length (keys (afterAll m0 calls))
  /\ Forall (fun k => status k = active \/ status k = failed)
       (keys (afterAll m0 calls))
  /\ forall now rnd,
       (exists a m',
          getNextApiKey (afterAll m0 calls) now rnd = Returned a m'
          /\ a ∈ accounts c)
       \/ exists m',
            getNextApiKey (afterAll m0 calls) now rnd
            = Thrown "No available API keys found" m'.
Proof.
  intros Hinit.
  pose proof (consistent_afterAll c calls m0 (consistent_initialize c t m0 Hinit)) as Hm.
  pose proof Hm as (Hcfg & Hkeys & Hidx & Hst & _).
  split; [exact Hcfg|]. split; [exact Hkeys|]. split; [exact Hidx|].
  split; [exact Hst|]. intros now rnd.
  pose proof (consistent_getNextApiKey c _ now rnd Hm) as Hnext.
  destruct (getNextApiKey (afterAll m0 calls) now rnd) as [a m'|msg m'].
  - left. exists a, m'. split; [reflexivity | apply Hnext].
  - right. exists m'. destruct Hnext as (_ & ->). reflexivity.
Qed.

(** On three keys and a few calls. *)
Lemma calls_keep_witness :
  config (afterAll (started threeKeys)
            someCalls) = threeKeys
  /\ key <$> keys (afterAll (started threeKeys)
            someCalls)
     = accounts threeKeys
  /\ currentIndex (afterAll (started threeKeys)
            someCalls)
     < length (keys (afterAll (started threeKeys)
            someCalls))
  /\ Forall (fun k => status k = active \/ status k = failed)
       (keys (afterAll (started threeKeys)
            someCalls))
  /\ forall now rnd,
       (exists a m',
          getNextApiKey (afterAll (started threeKeys)
            someCalls) now rnd
          = Returned a m'
          /\ a ∈ accounts threeKeys)
       \/ exists m',
            getNextApiKey (afterAll (started threeKeys)
              someCalls) now rnd
            = Thrown "No available API keys found" m'.
Proof.
  apply (calls_keep_the_configured_keys threeKeys 0 (started threeKeys)
           someCalls).
  reflexivity.
Defined.

Lemma requests_keyStats (now : Z) ks : forall (n : nat),
  (fun e : string * KeyStats => requests (snd e))
    <$> imap (fun index k =>
                (keyStatsName (n + index),
                 mkKeyStats (requestCount k) (successCount k) (failureCount k)
                   (match lastUsed k with
                    | Some t => t
                    | None => dateObject now
                    end))) ks
  = requestCount <$> ks.
Proof.
  induction ks as [|k ks IH]; intros n; [reflexivity|].
  cbn [imap fmap list_fmap snd requests]. f_equal.
  rewrite <- (IH (S n)). f_equal. apply imap_ext. intros i x _. cbn.
  replace (n + S i) with (S n + i) by lia. reflexivity.
Qed.

Lemma countStatus_total ks :
  Forall (fun k => status k = active \/ status k = failed) ks ->
  countStatus active ks + countStatus failed ks = length ks.
Proof.
  unfold countStatus. induction 1 as [|k ks Hk _ IH]; [reflexivity|].
  rewrite !filter_cons. cbn [length].
  destruct Hk as [Hk|Hk]; rewrite Hk;
    repeat (destruct (decide _) as [?|?]; try congruence); cbn [length]; lia.
Qed.

(** X9.  From [initialize] without a file, whatever calls follow: the
    total of requests is the sum of the request counts of the keys, in
    [getUsageStats] and in [getRotationStatus]; the active and the failed
    keys of [getRotationStatus] are all the keys; [keyStats] has an entry
    for each configured key. *)
Theorem counters_add_up (c : RotationConfig) (t now : Z) (m0 : Manager)
        (calls : list Call) :
  initialize c None t = Some m0 ->
  us_totalRequests (getUsageStats (afterAll m0 calls) now)
  = list_sum ((fun e => requests (snd e))
                <$> keyStats (getUsageStats (afterAll m0 calls) now))
  /\ rs_totalRequests (getRotationStatus (afterAll m0 calls))
     = list_sum (requestCount <$> keys (afterAll m0 calls))
  /\ activeKeys (getRotationStatus (afterAll m0 calls))
     + failedKeys (getRotationStatus (afterAll m0 calls))
     = totalKeys (getRotationStatus (afterAll m0 calls))
  /\ length (keyStats (getUsageStats (afterAll m0 calls) now))
     = length (accounts c).
Proof.
  intros Hinit.
  pose proof (consistent_afterAll c calls m0 (consistent_initialize c t m0 Hinit))
    as (_ & Hkeys & _ & Hst & Htotal & _).
  unfold getUsageStats, getRotationStatus.
  cbn [us_totalRequests keyStats rs_totalRequests activeKeys failedKeys totalKeys].
  split.
  { rewrite Htotal. f_equal. symmetry. exact (requests_keyStats now _ 0). }
  split; [exact Htotal|]. split; [apply countStatus_total, Hst|].
  rewrite length_imap, <- Hkeys, length_fmap. reflexivity.
Qed.

(** On three keys and a few calls. *)
Lemma counters_witness :
  us_totalRequests
    (getUsageStats (afterAll (started threeKeys)
       someCalls) 9)
  = list_sum ((fun e => requests (snd e))
                <$> keyStats
                      (getUsageStats (afterAll (started threeKeys)
                         someCalls) 9))
  /\ rs_totalRequests
       (getRotationStatus (afterAll (started threeKeys)
          someCalls))
     = list_sum (requestCount
                   <$> keys (afterAll (started threeKeys)
                         someCalls))
  /\ activeKeys
       (getRotationStatus (afterAll (started threeKeys)
          someCalls))
     + failedKeys
         (getRotationStatus (afterAll (started threeKeys)
            someCalls))
     = totalKeys
         (getRotationStatus (afterAll (started threeKeys)
            someCalls))
  /\ length
       (keyStats
          (getUsageStats (afterAll (started threeKeys)
             someCalls) 9))
     = length (accounts threeKeys).
Proof.
  apply (counters_add_up threeKeys 0 9 (started threeKeys)
           someCalls).
  reflexivity.
Defined.

(** Under round robin a call that finds no key leaves the manager as it
    was: the index has gone round. *)
Lemma round_robin_thrown_same m now rnd msg m' :
  strategy (config m) = round_robin ->
  currentIndex m < length (keys m) ->
  getNextApiKey m now rnd = Thrown msg m' ->
  m' = m /\ msg = "No available API keys found".
Proof.
  intros Hrr Hidx Hthrown. unfold getNextApiKey in Hthrown.
  destruct (keys m) as [|k0 ks] eqn:Hkeys; [cbn in Hidx; lia|]. rewrite <- Hkeys in *.
  pose proof (rotate_thrown_round_robin _ _ _ _ _ _ _ Hrr Hidx Hthrown) as Hnone.
  rewrite (rotate_round_robin_none _ _ _ _ _ Hrr Hidx Hnone) in Hthrown.
  injection Hthrown as <- <-.
  replace (currentIndex m + length (keys m)) with (currentIndex m + 1 * length (keys m)) by lia.
  rewrite Nat.Div0.mod_add, Nat.mod_small by exact Hidx.
  split; [destruct m; reflexivity | reflexivity].
Qed.

Lemma rotate_returned_saved : forall left attempts m now rnd a m',
  rotate left attempts m now rnd = Returned a m' ->
  exists m'', m' = saveState m'' now.
Proof.
  induction left as [|left IH]; intros attempts m now rnd a m'; cbn [rotate]; [discriminate|].
  destruct (keys m !! currentIndex m) as [k|]; [|discriminate].
  destruct (isKeyAvailable k now) as [[|] k'].
  - intros [= _ <-]. eexists. reflexivity.
  - apply IH.
Qed.

Lemma indexSaved_saveState m now : indexSaved (saveState m now).
Proof. eexists. split; reflexivity. Qed.

Lemma indexSaved_after c m call :
  strategy c = round_robin -> consistent c m -> indexSaved m ->
  indexSaved (after m call).
Proof.
  intros Hrr Hm Hsaved.
  destruct call as [now rnd|apiKey success errorType now|now]; cbn [after].
  - destruct (getNextApiKey m now rnd) as [a m'|msg m'] eqn:Hnext.
    + unfold getNextApiKey in Hnext. destruct (keys m); [discriminate|].
      apply rotate_returned_saved in Hnext as (m'' & ->). apply indexSaved_saveState.
    + destruct Hm as (Hcfg & _ & Hidx & _). rewrite <- Hcfg in Hrr.
      destruct (round_robin_thrown_same m now rnd msg m' Hrr Hidx Hnext) as (-> & _).
      exact Hsaved.
  - unfold reportKeyUsage. destruct (list_find _ _) as [[i k]|]; [|exact Hsaved].
    apply indexSaved_saveState.
  - apply indexSaved_saveState.
Qed.

Lemma indexSaved_afterAll c calls : forall m,
  strategy c = round_robin -> consistent c m -> indexSaved m ->
  indexSaved (afterAll m calls).
Proof.
  unfold afterAll. induction calls as [|call calls IH]; intros m Hrr Hm Hsaved;
    [exact Hsaved|].
  cbn [fold_left]. apply IH; [exact Hrr | apply consistent_after, Hm|].
  exact (indexSaved_after c m call Hrr Hm Hsaved).
Qed.

(** What the file holds of a key comes back from the file. *)
Lemma toPersisted_restoreKey a k :
  key k = a -> toPersisted (restoreKey (freshKey a) (toPersisted k)) = toPersisted k.
Proof.
  intros <-. destruct k as [ky st rc sc fc cf lu ls lf cu le].
  unfold toPersisted, restoreKey, assignDate.
  cbn [key status requestCount successCount failureCount consecutiveFailures
       lastUsed lastSuccess lastFailure cooldownUntil lastError freshKey
       pk_status pk_requestCount pk_successCount pk_failureCount
       pk_consecutiveFailures pk_lastUsed pk_lastSuccess pk_lastFailure
       pk_cooldownUntil pk_lastError].
  destruct lu as [[?|?]|], ls as [[?|?]|], lf as [[?|?]|], cu as [[?|?]|], le; reflexivity.
Qed.

Lemma toPersisted_restored : forall accs ks,
  key <$> ks = accs ->
  toPersisted <$> zip_with restoreKey (map freshKey accs) (toPersisted <$> ks)
  = toPersisted <$> ks.
Proof.
  induction accs as [|a accs IH]; intros [|k ks] Hkeys; try discriminate; [reflexivity|].
  cbn in Hkeys. injection Hkeys as Hk Hks.
  cbn [map fmap list_fmap zip_with]. f_equal.
  - apply toPersisted_restoreKey, Hk.
  - apply IH, Hks.
Qed.

Lemma key_restored : forall accs ps,
  length ps = length accs ->
  key <$> zip_with restoreKey (map freshKey accs) ps = accs.
Proof.
  induction accs as [|a accs IH]; intros [|p ps] Hlen; try discriminate; [reflexivity|].
  cbn [map zip_with fmap list_fmap]. f_equal. apply IH. cbn in Hlen. lia.
Qed.

(** X10.  From [initialize] without a file, whatever calls follow, the
    file is in step with the manager: [initialize] on that file gives a
    manager with the configured keys, each with the status, the counters,
    the times and the last error it had, and the same total of requests
    (the index too under round robin).  The dates come back as strings. *)
Theorem restart_restores_what_the_calls_left (c : RotationConfig) (t t' : Z)
        (m0 : Manager) (calls : list Call) :
  initialize c None t = Some m0 ->
  exists m1,
    initialize c (persisted (afterAll m0 calls)) t' = Some m1
    /\ toPersisted <$> keys m1 = toPersisted <$> keys (afterAll m0 calls)
    /\ key <$> keys m1 = accounts c
    /\ totalRequests m1 = totalRequests (afterAll m0 calls)
    /\ (strategy c = round_robin ->
        currentIndex m1 = currentIndex (afterAll m0 calls)).
Proof.
  intros Hinit.
  pose proof (consistent_initialize c t m0 Hinit) as Hm0.
  pose proof (consistent_afterAll c calls m0 Hm0)
    as (Hcfg & Hkeys & Hidx & _ & _ & d & Hfile & Hdkeys & Hdtotal).
  assert (Hsaved0 : indexSaved m0).
  { unfold initialize in Hinit. destruct (accounts c); [discriminate|].
    injection Hinit as <-. apply indexSaved_saveState. }
  assert (Hlen : length (keys (afterAll m0 calls)) = length (accounts c))
    by (rewrite <- Hkeys, length_fmap; reflexivity).
  unfold initialize. destruct (accounts c) as [|a accs] eqn:Haccs.
  { cbn in Hlen. lia. }
  rewrite <- Haccs in *. rewrite Hfile. unfold restoreState.
  cbn [keys]. rewrite Hdkeys, length_fmap, length_map, Hlen, Nat.eqb_refl.
  eexists. split; [reflexivity|].
  cbn [saveState keys totalRequests currentIndex].
  split; [apply toPersisted_restored; exact Hkeys|].
  split; [apply key_restored; rewrite length_fmap; exact Hlen|].
  split; [exact Hdtotal|]. intros Hrr.
  destruct (indexSaved_afterAll c calls m0 Hrr Hm0 Hsaved0) as (d' & Hfile' & Hidx').
  rewrite Hfile in Hfile'. injection Hfile' as <-. exact Hidx'.
Qed.

(** On three keys and a few calls. *)
Lemma restart_restores_witness :
  exists m1,
    initialize threeKeys (persisted (afterAll (started threeKeys) someCalls)) 9
    = Some m1
    /\ toPersisted <$> keys m1
       = toPersisted <$> keys (afterAll (started threeKeys) someCalls)
    /\ key <$> keys m1 = accounts threeKeys
    /\ totalRequests m1 = totalRequests (afterAll (started threeKeys) someCalls)
    /\ (strategy threeKeys = round_robin ->
        currentIndex m1 = currentIndex (afterAll (started threeKeys) someCalls)).
Proof.
  apply (restart_restores_what_the_calls_left threeKeys 0 9 (started threeKeys)
           someCalls).
  reflexivity.
Defined.

End RotationFacts.

(** ** The rotator of the command-line bridge *)

Section SimpleRotatorFacts.
Import SimpleRotator Scenarios.







End SimpleRotatorFacts.

(** ** Error classification *)

Section ErrorFacts.
Import ErrorDetection Scenarios.

(** C4, the claim as stated fails: an error with status 429 and the
    message "rate limit exceeded" matches a quota keyword, so it is
    classified [GENERIC_QUOTA_EXCEEDED] and not [RATE_LIMIT]. *)
Lemma C4_rate_limit_exceeded_is_generic_quota :
  getErrorStatus rateLimitExceeded = Some 429%Z
  /\ isRateLimitError rateLimitExceeded = true
  /\ isQuotaExceededError rateLimitExceeded = true
  /\ getErrorType rateLimitExceeded = GENERIC_QUOTA_EXCEEDED
  /\ getErrorType rateLimitExceeded <> RATE_LIMIT.
Proof. vm_compute. repeat split. discriminate. Qed.

(** C4, amended.  [getErrorType] gives the first kind whose predicate holds,
    in the order pro quota, generic quota (a quota keyword, among them
    "rate limit exceeded" and "too many requests"), rate limit, server
    error, network wording, and [UNKNOWN_ERROR] when none holds.  An error
    with status 429 is [RATE_LIMIT] exactly when its message has no quota
    keyword: with the message "rate limit exceeded" it is
    [GENERIC_QUOTA_EXCEEDED], with "slow down" it is [RATE_LIMIT]. *)
Theorem C4_classification_priority (error : JsError) :
  (getErrorType error = PRO_QUOTA_EXCEEDED
   <-> isProQuotaExceededError error = true)
  /\ (getErrorType error = GENERIC_QUOTA_EXCEEDED
      <-> isProQuotaExceededError error = false
          /\ isQuotaExceededError error = true)
  /\ (getErrorType error = RATE_LIMIT
      <-> isProQuotaExceededError error = false
          /\ isQuotaExceededError error = false
          /\ isRateLimitError error = true)
  /\ (getErrorType error = SERVER_ERROR
      <-> isProQuotaExceededError error = false
          /\ isQuotaExceededError error = false
          /\ isRateLimitError error = false
          /\ isServerError error = true)
  /\ (getErrorType error = NETWORK_ERROR
      <-> isProQuotaExceededError error = false
          /\ isQuotaExceededError error = false
          /\ isRateLimitError error = false
          /\ isServerError error = false
          /\ isNetworkWording error = true)
  /\ (getErrorType error = UNKNOWN_ERROR
      <-> isProQuotaExceededError error = false
          /\ isQuotaExceededError error = false
          /\ isRateLimitError error = false
          /\ isServerError error = false
          /\ isNetworkWording error = false)
  /\ getErrorType error <> QUOTA_EXCEEDED
  /\ getErrorType error <> UNKNOWN
  /\ (status error = Some 429%Z ->
      (getErrorType error = RATE_LIMIT
       <-> isProQuotaExceededError error = false
           /\ isQuotaExceededError error = false))
  /\ getErrorType rateLimitExceeded = GENERIC_QUOTA_EXCEEDED
  /\ getErrorType slowDown = RATE_LIMIT.
Proof.
  assert (H429 : status error = Some 429%Z -> isRateLimitError error = true).
  { intros Hs. unfold isRateLimitError, getErrorStatus. rewrite Hs. reflexivity. }
  unfold getErrorType, isGenericQuotaExceededError.
  destruct (isProQuotaExceededError error), (isQuotaExceededError error),
    (isRateLimitError error), (isServerError error), (isNetworkWording error);
    repeat split; try discriminate; try tauto; try reflexivity;
    try (intros; discriminate); try (intros; intuition discriminate).
Qed.

(** *** The detectors beyond the claims *)

Lemma shouldTriggerFallback_type error :
  shouldTriggerFallback error
  = match getErrorType error with
    | NETWORK_ERROR | UNKNOWN_ERROR | UNKNOWN => false
    | _ => true
    end.
Proof.
  unfold shouldTriggerFallback. destruct (getErrorType error); reflexivity.
Qed.

(** X11.  [shouldTriggerFallback] of errorDetection.ts answers true exactly
    when one of the four detectors does: pro quota, quota, rate limit,
    server error.  So an error with the status 429, or with a status from
    500 to 599, always triggers, and the errors that do not trigger are
    those classified [NETWORK_ERROR] or [UNKNOWN_ERROR]. *)
Theorem fallback_triggers_on_the_four_detectors (error : JsError) :
  shouldTriggerFallback error
  = isProQuotaExceededError error || isQuotaExceededError error
    || isRateLimitError error || isServerError error
  /\ (getErrorStatus error = Some 429%Z -> shouldTriggerFallback error = true)
  /\ (forall s, getErrorStatus error = Some s -> (500 <= s < 600)%Z ->
        shouldTriggerFallback error = true)
  /\ (shouldTriggerFallback error = false
      <-> getErrorType error = NETWORK_ERROR
          \/ getErrorType error = UNKNOWN_ERROR).
Proof.
  assert (H429 : getErrorStatus error = Some 429%Z -> isRateLimitError error = true).
  { intros Hs. unfold isRateLimitError. rewrite Hs. reflexivity. }
  assert (H5 : forall s, getErrorStatus error = Some s -> (500 <= s < 600)%Z ->
                 isServerError error = true).
  { intros s Hs Hr. unfold isServerError. rewrite Hs.
    apply andb_true_intro. split; [apply Z.leb_le|apply Z.ltb_lt]; lia. }
  rewrite shouldTriggerFallback_type.
  unfold getErrorType, isGenericQuotaExceededError.
  destruct (isProQuotaExceededError error), (isQuotaExceededError error),
    (isRateLimitError error) eqn:Hrate, (isServerError error) eqn:Hserver,
    (isNetworkWording error);
    cbn; repeat split; try reflexivity; try discriminate;
    try (intros Hs; specialize (H429 Hs); discriminate);
    try (intros s Hs Hr; specialize (H5 s Hs Hr); discriminate);
    try (intros; discriminate); try (intros [?|?]; discriminate);
    try (intros _; (left + right); reflexivity).
Qed.

Lemma lowerChar_idem c : lowerChar (lowerChar c) = lowerChar c.
Proof. destruct c as [[] [] [] [] [] [] [] []]; reflexivity. Qed.

Lemma toLowerCase_idem s : toLowerCase (toLowerCase s) = toLowerCase s.
Proof. induction s as [|c s IH]; cbn; [reflexivity|]. rewrite lowerChar_idem, IH. reflexivity. Qed.








Lemma statusMatch_sound s : forall prevWord n,
  statusMatch prevWord s = Some n ->
  exists pre rest,
    s = pre ++ rest
    /\ threeDigits rest = Some n
    /\ endsOutsideWord prevWord pre.
Proof.
  induction s as [|c s IH]; intros prevWord n Hm; [discriminate|].
  cbn [statusMatch] in Hm.
  destruct prevWord.
  - destruct (IH _ _ Hm) as (pre & rest & -> & Hd & Hempty & Hlast).
    exists (String c pre), rest. split; [reflexivity|]. split; [exact Hd|].
    split; [discriminate|].
    intros pre' d Heq. destruct pre' as [|c' pre'].
    + cbn in Heq. injection Heq as <- Hpre. apply Hempty. exact Hpre.
    + cbn in Heq. injection Heq as _ Hpre. exact (Hlast _ _ Hpre).
  - destruct (threeDigits (String c s)) as [n'|] eqn:Hd.
    + injection Hm as <-. exists "", (String c s).
      split; [reflexivity|]. split; [exact Hd|].
      split; [reflexivity|]. intros [|? ?] d Heq; discriminate.
    + destruct (IH _ _ Hm) as (pre & rest & -> & Hd' & Hempty & Hlast).
      exists (String c pre), rest. split; [reflexivity|]. split; [exact Hd'|].
      split; [discriminate|].
      intros pre' d Heq. destruct pre' as [|c' pre'].
      * cbn in Heq. injection Heq as <- Hpre. apply Hempty. exact Hpre.
      * cbn in Heq. injection Heq as _ Hpre. exact (Hlast _ _ Hpre).
Qed.

(** X13.  Where [getErrorStatus] takes the status code.  A numeric
    [status] wins, then a numeric [response.status], whatever their value.
    Only without both is the message read, and then the code is between
    100 and 599 and is written in the message as three digits with no
    word character before or after them. *)
Theorem getErrorStatus_sources (error : JsError) :
  (forall s, status error = Some s -> getErrorStatus error = Some s)
  /\ (forall s, status error = None -> responseStatus error = Some s ->
        getErrorStatus error = Some s)
  /\ (forall s, status error = None -> responseStatus error = None ->
        getErrorStatus error = Some s ->
        (100 <= s < 600)%Z
        /\ exists pre a b c post,
             message error = pre ++ String a (String b (String c post))
             /\ isDigit a = true /\ isDigit b = true /\ isDigit c = true
             /\ s = (100 * digitValue a + 10 * digitValue b + digitValue c)%Z
             /\ (forall d post', post = String d post' -> isWordChar d = false)
             /\ (forall pre' d, pre = pre' ++ String d "" -> isWordChar d = false)).
Proof.
  unfold getErrorStatus. split; [intros s ->; reflexivity|].
  split; [intros s -> ->; reflexivity|].
  intros s -> -> Hs.
  destruct (statusMatch false (message error)) as [n|] eqn:Hm; [|discriminate].
  destruct ((100 <=? n)%Z && (n <? 600)%Z) eqn:Hrange; [|discriminate].
  injection Hs as <-.
  apply andb_prop in Hrange as [Hlo Hhi].
  apply Z.leb_le in Hlo. apply Z.ltb_lt in Hhi. split; [lia|].
  destruct (statusMatch_sound _ _ _ Hm) as (pre & rest & Hmsg & Hd & _ & Hlast).
  destruct rest as [|a [|b [|c post]]]; try discriminate.
  cbn [threeDigits] in Hd.
  destruct (isDigit a) eqn:Ha; [|discriminate].
  destruct (isDigit b) eqn:Hb; [|discriminate].
  destruct (isDigit c) eqn:Hc; [|discriminate].
  cbn [andb] in Hd.
  exists pre, a, b, c, post. split; [exact Hmsg|].
  split; [exact Ha|]. split; [exact Hb|]. split; [exact Hc|].
  destruct post as [|d post'].
  - injection Hd as <-. split; [reflexivity|]. split; [discriminate|exact Hlast].
  - destruct (isWordChar d) eqn:Hw; [discriminate|]. injection Hd as <-.
    split; [reflexivity|]. split; [|exact Hlast].
    intros d' post'' [= <- <-]. exact Hw.
Qed.

End ErrorFacts.

(** ** Persistence of the fallback state *)

Section PersistenceFacts.
Import ErrorDetection Json Persistence.
Context `{Codec}.

(** Reading back the document of a state gives the state. *)
Lemma stateOfJson_stateToJson s : stateOfJson (stateToJson s) = Some s.
Proof.
  destruct s as [fm fst cf lsr cm fb lst sc le lu].
  unfold stateOfJson, stateToJson, getBool, getNum, getStr, getOptional,
    getNullable, getLastError.
  cbn [isInFallbackMode fallbackStartTime consecutiveFailures lastSwitchReason
       currentModel fallbackModel lastSwitchTime switchCount lastError lastUpdated].
  destruct fst as [fst|], lsr as [lsr|], lst as [lst|], le as [[m t []]|];
    reflexivity.
Qed.

(** C8.  For every state, every time stamp and every content of the table,
    [saveState] followed by [loadState] gives a state with the fields of
    the one saved, except [lastUpdated], which is the time of the save. *)
Theorem C8_save_then_load (state : FallbackState) (now : string) (db : Db) :
  exists loaded,
    loadState (saveState state now db) = State loaded
    /\ isInFallbackMode loaded = isInFallbackMode state
    /\ fallbackStartTime loaded = fallbackStartTime state
    /\ consecutiveFailures loaded = consecutiveFailures state
    /\ lastSwitchReason loaded = lastSwitchReason state
    /\ currentModel loaded = currentModel state
    /\ fallbackModel loaded = fallbackModel state
    /\ lastSwitchTime loaded = lastSwitchTime state
    /\ switchCount loaded = switchCount state
    /\ lastError loaded = lastError state
    /\ lastUpdated loaded = now.
Proof.
  exists (withLastUpdated state now).
  split; [|repeat split].
  unfold loadState, saveState. cbn [state_data].
  rewrite parse_stringify, stateOfJson_stateToJson. reflexivity.
Qed.

(** What [saveState] wrote is what [loadState] reads. *)
Lemma loadState_saveState st t d :
  loadState (saveState st t d) = State (withLastUpdated st t).
Proof.
  unfold loadState, saveState. cbn [state_data].
  rewrite parse_stringify, stateOfJson_stateToJson. reflexivity.
Qed.

(** X16.  When the JSON text of the row cannot be parsed, [loadState]
    still answers, from the other columns: the mode, the current model (a
    model with a name) and the start time are those saved, the time is
    that of the save; the fallback model is the current model, and the
    switch count, the failures and the last error are lost. *)
Theorem unreadable_state_data_falls_back_to_columns (st : FallbackState)
        (t garbage : string) (d : Db) :
  parse garbage = None ->
  currentModel st <> "" ->
  loadState (withStateData (saveState st t d) garbage)
  = State (mkFallbackState (isInFallbackMode st)
             (match fallbackStartTime st with
              | Some start => orNull start
              | None => None
              end)
             0 None (currentModel st) (currentModel st) None 0 None t).
Proof.
  intros Hparse Hmodel.
  unfold withStateData, saveState, loadState.
  cbn [state_data is_fallback_active current_model fallback_start_time last_updated].
  rewrite Hparse.
  assert (Hcm : orNull (currentModel st) = Some (currentModel st)).
  { unfold orNull.
    destruct (String.eqb_spec (currentModel st) "") as [Heq|_];
      [contradiction|reflexivity]. }
  rewrite Hcm. destruct (isInFallbackMode st); reflexivity.
Qed.

End PersistenceFacts.

(** The round trip of a state in fallback mode, run on JSON text. *)
Example save_then_load_switched :
  Persistence.loadState
    (Persistence.saveState (Fallback.state Scenarios.switched) "t2" None)
  = Persistence.State
      (Persistence.withLastUpdated (Fallback.state Scenarios.switched) "t2").
Proof. vm_compute. reflexivity. Qed.

(** ** The fallback service *)

Section FallbackFacts.
Import ErrorDetection Json Persistence Fallback.
Context `{Codec}.

(** In fallback mode [triggerFallback] throws and changes nothing. *)
Lemma triggerFallback_in_fallback s error now :
  isInFallbackMode (state s) = true ->
  exists msg, triggerFallback s error now = Thrown msg s.
Proof.
  intros Hmode. unfold triggerFallback. rewrite Hmode.
  destruct (enabled (config s)); cbn [negb]; eexists; reflexivity.
Qed.

Lemma triggerAll_in_fallback calls : forall s,
  isInFallbackMode (state s) = true -> triggerAll s calls = s.
Proof.
  induction calls as [|[error now] rest IH]; intros s Hmode; [reflexivity|].
  cbn [triggerAll].
  destruct (triggerFallback_in_fallback s error now Hmode) as [msg ->].
  apply IH, Hmode.
Qed.

(** A [triggerFallback] that returns has switched to fallback mode, once. *)
Lemma triggerFallback_returned s error now r s' :
  triggerFallback s error now = Returned r s' ->
  isInFallbackMode (state s') = true
  /\ switchCount (state s') = S (switchCount (state s))
  /\ currentModel (state s') = fallbackModel (state s)
  /\ config s' = config s
  /\ success r = true.
Proof.
  unfold triggerFallback, performFallback.
  destruct (enabled (config s)); cbn [negb]; [|discriminate].
  destruct (isInFallbackMode (state s)); [discriminate|].
  intros [= <- <-]. repeat split.
Qed.

Lemma triggerFallback_thrown s error now msg s' :
  triggerFallback s error now = Thrown msg s' -> s' = s.
Proof.
  unfold triggerFallback, performFallback.
  destruct (enabled (config s)); cbn [negb]; [|intros [= _ <-]; reflexivity].
  destruct (isInFallbackMode (state s)); [intros [= _ <-]; reflexivity|].
  discriminate.
Qed.

(** Whatever the mode at the start, a sequence of [triggerFallback] calls
    counts one switch at most. *)
Lemma switchCount_triggerAll calls : forall s,
  switchCount (state (triggerAll s calls)) <= S (switchCount (state s)).
Proof.
  induction calls as [|[error now] rest IH]; intros s; cbn [triggerAll]; [lia|].
  destruct (triggerFallback s error now) as [r s'|msg s'] eqn:Htrigger.
  - destruct (triggerFallback_returned _ _ _ _ _ Htrigger) as (Hmode & Hcount & _).
    rewrite triggerAll_in_fallback by exact Hmode. lia.
  - apply triggerFallback_thrown in Htrigger. subst s'. apply IH.
Qed.

(** C3, amended.  In fallback mode [triggerFallback] does not return: it
    throws ("Already in fallback mode" when fallback is enabled) and leaves
    the service as it was, so that no sequence of such calls changes
    [switchCount] (or anything else). *)
Theorem C3_trigger_in_fallback_is_rejected (s : Service) (error : JsError)
        (now : string) (calls : list (JsError * string)) :
  isInFallbackMode (state s) = true ->
  (exists msg, triggerFallback s error now = Thrown msg s)
  /\ (enabled (config s) = true ->
      triggerFallback s error now = Thrown "Already in fallback mode" s)
  /\ triggerAll s calls = s
  /\ switchCount (state (triggerAll s calls)) = switchCount (state s).
Proof.
  intros Hmode. split; [apply triggerFallback_in_fallback, Hmode|].
  split.
  - intros Hen. unfold triggerFallback. rewrite Hen, Hmode. reflexivity.
  - rewrite triggerAll_in_fallback by exact Hmode. split; reflexivity.
Qed.

(** C7 (the code departs from the claim).  [shouldTriggerFallback] of the
    service answers true exactly when fallback is enabled, the service is
    on its primary model and the error is of one of the kinds of the list
    written in errorDetection.ts (pro quota, generic quota, rate limit,
    server error).  The kinds of the configuration do not count: with any
    other [triggerConditions] the answer is the same.  So a network or
    unknown error never gives true, whatever is configured. *)
Theorem C7_should_trigger_iff (s : Service) (error : JsError) :
  (fst (shouldTriggerFallback s error) = true
   <-> enabled (config s) = true
       /\ isInFallbackMode (state s) = false
       /\ getErrorType error ∈ fallbackTriggerTypes)
  /\ (forall conditions,
        fst (shouldTriggerFallback (withTriggerConditions s conditions) error)
        = fst (shouldTriggerFallback s error))
  /\ (getErrorType error ∈ fallbackTriggerTypes
      <-> getErrorType error = PRO_QUOTA_EXCEEDED
          \/ getErrorType error = GENERIC_QUOTA_EXCEEDED
          \/ getErrorType error = RATE_LIMIT
          \/ getErrorType error = SERVER_ERROR)
  /\ (getErrorType error = NETWORK_ERROR \/ getErrorType error = UNKNOWN_ERROR
      \/ getErrorType error = UNKNOWN ->
      fst (shouldTriggerFallback s error) = false).
Proof.
  assert (Hiff : fst (shouldTriggerFallback s error) = true
    <-> enabled (config s) = true /\ isInFallbackMode (state s) = false
        /\ getErrorType error ∈ fallbackTriggerTypes).
  { unfold shouldTriggerFallback, ErrorDetection.shouldTriggerFallback.
    destruct (enabled (config s)), (isInFallbackMode (state s)); cbn [negb fst];
      try (split; [discriminate | intros (? & ? & ?); discriminate]).
    destruct (bool_decide (getErrorType error ∈ fallbackTriggerTypes)) eqn:Hin; cbn [fst].
    - apply bool_decide_eq_true in Hin. tauto.
    - apply bool_decide_eq_false in Hin. split; [discriminate | tauto]. }
  split; [exact Hiff|]. split.
  { intros conditions. unfold shouldTriggerFallback.
    cbn [withTriggerConditions config state enabled].
    destruct (enabled (config s)), (isInFallbackMode (state s)); cbn [negb fst];
      try reflexivity.
    destruct (ErrorDetection.shouldTriggerFallback error); reflexivity. }
  split.
  - unfold fallbackTriggerTypes. rewrite !elem_of_cons, elem_of_nil.
    unfold getErrorType.
    destruct (isProQuotaExceededError error), (isGenericQuotaExceededError error),
      (isRateLimitError error), (isServerError error), (isNetworkWording error);
      split; intros; intuition (try discriminate; auto).
  - intros Hkind. apply not_true_is_false. intros Htrue.
    apply Hiff in Htrue. destruct Htrue as (_ & _ & Hin).
    unfold fallbackTriggerTypes in Hin. rewrite !elem_of_cons, elem_of_nil in Hin.
    destruct Hkind as [Hk|[Hk|Hk]]; rewrite Hk in Hin; intuition discriminate.
Qed.

(** *** The service beyond the claims *)

(** X14.  A switch and the way back.  On an enabled service that is not
    in fallback mode, [triggerFallback] succeeds, and the [resetToPrimary]
    that follows puts the service on the primary model of the
    configuration: not in fallback mode, the fallback model kept, one
    switch counted, no last error, the two events emitted, and the state
    saved as it is.  A second [resetToPrimary] changes nothing. *)
Theorem trigger_then_reset_returns_to_primary (s : Service) (error : JsError)
        (t1 t2 t3 : string) :
  enabled (config s) = true ->
  isInFallbackMode (state s) = false ->
  exists r s1 s2,
    triggerFallback s error t1 = Returned r s1
    /\ r = mkSwitchResult true (fallbackModel (state s)) (currentModel (state s))
    /\ resetToPrimary s1 t2 = (primaryModel (config s), s2)
    /\ isInFallbackMode (state s2) = false
    /\ currentModel (state s2) = primaryModel (config s)
    /\ fallbackModel (state s2) = fallbackModel (state s)
    /\ switchCount (state s2) = S (switchCount (state s))
    /\ lastError (state s2) = None
    /\ lastSwitchTime (state s2) = Some t2
    /\ emitted s2
       = modelReset (fallbackModel (state s)) (primaryModel (config s))
         :: modelSwitched (currentModel (state s)) (fallbackModel (state s))
              (getErrorType error)
         :: emitted s
    /\ loadState (db s2) = State (withLastUpdated (state s2) t2)
    /\ resetToPrimary s2 t3 = (primaryModel (config s), s2).
Proof.
  intros Hen Hmode.
  unfold triggerFallback, performFallback. rewrite Hen, Hmode. cbn [negb].
  eexists _, _, _. split; [reflexivity|]. split; [reflexivity|].
  unfold resetToPrimary at 1.
  cbn [state isInFallbackMode negb config currentModel].
  split; [reflexivity|].
  cbn [state isInFallbackMode currentModel fallbackModel switchCount lastError
       lastSwitchTime emitted db config].
  repeat (split; [reflexivity|]).
  split; [apply loadState_saveState|].
  unfold resetToPrimary. cbn [state isInFallbackMode negb currentModel].
  reflexivity.
Qed.

(** X15.  A restart resumes the saved state.  After [performFallback] has
    switched, a service built on the same table, with any configuration,
    has (once [loadPersistedState] has run) the state that was saved: it is
    in fallback mode on the fallback model of the old service, whatever
    models the new configuration names.  Its statistics start from zero,
    [shouldTriggerFallback] answers false and [triggerFallback] throws. *)
Theorem restart_resumes_the_saved_state (s : Service) (error : JsError)
        (t1 t' t : string) (c' : FallbackConfig) (error' : JsError) :
  enabled (config s) = true ->
  isInFallbackMode (state s) = false ->
  exists model s1,
    performFallback s error t1 = Returned model s1
    /\ state (loadPersistedState (newService c' t' (db s1)))
       = withLastUpdated (state s1) t1
    /\ getCurrentModel (loadPersistedState (newService c' t' (db s1)))
       = fallbackModel (state s)
    /\ stats (loadPersistedState (newService c' t' (db s1))) = zeroStats
    /\ fst (shouldTriggerFallback
              (loadPersistedState (newService c' t' (db s1))) error') = false
    /\ exists msg,
         triggerFallback (loadPersistedState (newService c' t' (db s1))) error' t
         = Thrown msg (loadPersistedState (newService c' t' (db s1))).
Proof.
  intros Hen Hmode.
  unfold performFallback. rewrite Hen, Hmode. cbn [negb].
  eexists _, _. split; [reflexivity|]. cbn [db state].
  set (st1 := mkFallbackState true _ _ _ _ _ _ _ _ _).
  assert (Hstate : state (loadPersistedState (newService c' t' (saveState st1 t1 (db s))))
                   = withLastUpdated st1 t1).
  { unfold loadPersistedState. cbn [newService db].
    rewrite loadState_saveState. cbn [state].
    unfold withLastUpdated.
    cbn [isInFallbackMode fallbackStartTime consecutiveFailures lastSwitchReason
         currentModel fallbackModel lastSwitchTime switchCount lastError lastUpdated].
    destruct (fallbackStartTime st1), (lastSwitchReason st1); reflexivity. }
  split; [exact Hstate|].
  split; [unfold getCurrentModel; rewrite Hstate; reflexivity|].
  split.
  { unfold loadPersistedState. cbn [newService db].
    rewrite loadState_saveState. reflexivity. }
  split.
  { unfold shouldTriggerFallback. rewrite Hstate.
    cbn [withLastUpdated isInFallbackMode st1].
    destruct (negb _); reflexivity. }
  apply triggerFallback_in_fallback. rewrite Hstate. reflexivity.
Qed.

(** X17.  [updateConfig] with names for the two models.  The
    configuration takes both; the state takes the fallback model, and its
    current model becomes the new fallback model in fallback mode and the
    new primary model otherwise.  The mode and the switch count are kept
    and nothing is saved.  From then on [resetToPrimary] gives the new
    primary model and a fallback goes to the new fallback model. *)
Theorem updateConfig_moves_the_models (s : Service) (p f t : string)
        (error : JsError) :
  p <> "" -> f <> "" ->
  currentModel (state (updateConfig s (modelsUpdate p f)))
  = (if isInFallbackMode (state s) then f else p)
  /\ fallbackModel (state (updateConfig s (modelsUpdate p f))) = f
  /\ primaryModel (config (updateConfig s (modelsUpdate p f))) = p
  /\ cfg_fallbackModel (config (updateConfig s (modelsUpdate p f))) = f
  /\ isInFallbackMode (state (updateConfig s (modelsUpdate p f)))
     = isInFallbackMode (state s)
  /\ switchCount (state (updateConfig s (modelsUpdate p f)))
     = switchCount (state s)
  /\ db (updateConfig s (modelsUpdate p f)) = db s
  /\ fst (resetToPrimary (updateConfig s (modelsUpdate p f)) t) = p
  /\ (enabled (config s) = true -> isInFallbackMode (state s) = false ->
      exists s', performFallback (updateConfig s (modelsUpdate p f)) error t
                 = Returned f s').
Proof.
  intros Hp Hf.
  assert (Hgp : given (Some p) = Some p).
  { unfold given. destruct (String.eqb_spec p "") as [Heq|_]; [contradiction|reflexivity]. }
  assert (Hgf : given (Some f) = Some f).
  { unfold given. destruct (String.eqb_spec f "") as [Heq|_]; [contradiction|reflexivity]. }
  unfold updateConfig, modelsUpdate. cbn [new_primaryModel new_fallbackModel].
  rewrite Hgp, Hgf.
  destruct s as [c st sts d ev]. cbn [state config stats db emitted].
  destruct st as [mode start failures reason current fallback switchTime count err updated].
  cbn [isInFallbackMode].
  destruct mode; cbn [negb setModels isInFallbackMode currentModel fallbackModel].
  - repeat (split; [reflexivity|]). intros _ [=].
  - repeat (split; [reflexivity|]). intros Hen _.
    unfold performFallback.
    cbn [config mergeConfig enabled default new_enabled state isInFallbackMode].
    cbn in Hen. rewrite Hen. cbn [negb]. eexists. reflexivity.
Qed.

End FallbackFacts.

Section FallbackScenarios.
Import ErrorDetection Json Persistence Fallback Scenarios.

(** C3, the claim as stated fails: a second [triggerFallback] on a service
    already in fallback mode returns nothing, it throws. *)
Lemma C3_trigger_in_fallback_throws :
  isInFallbackMode (state switched) = true
  /\ switchCount (state switched) = 1
  /\ triggerFallback switched slowDown "t2"
     = Thrown "Already in fallback mode" switched.
Proof. vm_compute. repeat split. Qed.

(** On the service that has switched once: two more calls leave it as it is. *)
Lemma C3_trigger_in_fallback_witness :
  (exists msg, triggerFallback switched slowDown "t2" = Thrown msg switched)
  /\ (enabled (config switched) = true ->
      triggerFallback switched slowDown "t2"
      = Thrown "Already in fallback mode" switched)
  /\ triggerAll switched [(slowDown, "t2"); (serverDown, "t3")] = switched
  /\ switchCount (state (triggerAll switched [(slowDown, "t2"); (serverDown, "t3")]))
     = switchCount (state switched).
Proof.
  apply (C3_trigger_in_fallback_is_rejected switched slowDown "t2"
           [(slowDown, "t2"); (serverDown, "t3")]).
  vm_compute. reflexivity.
Defined.

(** C7, the inputs on which the claim fails.  With [network_error] as
    the only configured kind, a network error on the primary model does
    not trigger and a rate-limit error, which is not configured, does.
    With fallback disabled, a rate-limit error on the primary model does
    not trigger although its kind is configured. *)
Lemma C7_disabled_or_configured_kinds :
  getErrorType slowDown = RATE_LIMIT
  /\ In (errorTypeName RATE_LIMIT) (triggerConditions disabledConfig)
  /\ isInFallbackMode (state (newService disabledConfig "t0" None)) = false
  /\ fst (shouldTriggerFallback (newService disabledConfig "t0" None) slowDown)
     = false
  /\ getErrorType connectionLost = NETWORK_ERROR
  /\ triggerConditions networkOnlyConfig = [errorTypeName NETWORK_ERROR]
  /\ isInFallbackMode (state (newService networkOnlyConfig "t0" None)) = false
  /\ fst (shouldTriggerFallback (newService networkOnlyConfig "t0" None)
            connectionLost) = false
  /\ fst (shouldTriggerFallback (newService networkOnlyConfig "t0" None) slowDown)
     = true.
Proof. vm_compute. repeat split. right. left. reflexivity. Qed.

(** On the default configuration and a rate-limit error. *)
Lemma trigger_then_reset_witness :
  exists r s1 s2,
    triggerFallback (newService defaultConfig "t0" None) slowDown "t1"
    = Returned r s1
    /\ r = mkSwitchResult true "gemini-2.5-flash" "gemini-2.5-pro"
    /\ resetToPrimary s1 "t2" = ("gemini-2.5-pro", s2)
    /\ isInFallbackMode (state s2) = false
    /\ currentModel (state s2) = "gemini-2.5-pro"
    /\ fallbackModel (state s2) = "gemini-2.5-flash"
    /\ switchCount (state s2) = 1
    /\ lastError (state s2) = None
    /\ lastSwitchTime (state s2) = Some "t2"
    /\ emitted s2
       = [modelReset "gemini-2.5-flash" "gemini-2.5-pro";
          modelSwitched "gemini-2.5-pro" "gemini-2.5-flash" RATE_LIMIT]
    /\ loadState (db s2) = State (withLastUpdated (state s2) "t2")
    /\ resetToPrimary s2 "t3" = ("gemini-2.5-pro", s2).
Proof.
  apply (trigger_then_reset_returns_to_primary
           (newService defaultConfig "t0" None) slowDown "t1" "t2" "t3");
    reflexivity.
Defined.

(** The restart is made with another configuration. *)
Lemma restart_resumes_witness :
  exists model s1,
    performFallback (newService defaultConfig "t0" None) slowDown "t1"
    = Returned model s1
    /\ state (loadPersistedState (newService networkOnlyConfig "t5" (db s1)))
       = withLastUpdated (state s1) "t1"
    /\ getCurrentModel (loadPersistedState (newService networkOnlyConfig "t5" (db s1)))
       = "gemini-2.5-flash"
    /\ stats (loadPersistedState (newService networkOnlyConfig "t5" (db s1)))
       = zeroStats
    /\ fst (shouldTriggerFallback
              (loadPersistedState (newService networkOnlyConfig "t5" (db s1)))
              serverDown) = false
    /\ exists msg,
         triggerFallback
           (loadPersistedState (newService networkOnlyConfig "t5" (db s1)))
           serverDown "t6"
         = Thrown msg (loadPersistedState (newService networkOnlyConfig "t5" (db s1))).
Proof.
  apply (restart_resumes_the_saved_state
           (newService defaultConfig "t0" None) slowDown "t1" "t5" "t6"
           networkOnlyConfig serverDown);
    reflexivity.
Defined.

(** The text of the row is replaced by an opening brace. *)
Lemma unreadable_state_data_witness :
  loadState (withStateData (saveState (state switched) "t2" None) "{")
  = State (mkFallbackState true None 0 None "gemini-2.5-flash" "gemini-2.5-flash"
             None 0 None "t2").
Proof.
  apply (unreadable_state_data_falls_back_to_columns (state switched) "t2" "{" None).
  - vm_compute. reflexivity.
  - vm_compute. discriminate.
Defined.

(** On the service that has switched once. *)
Lemma updateConfig_witness :
  currentModel
    (state (updateConfig switched (modelsUpdate "gemini-3-pro" "gemini-3-flash")))
  = (if isInFallbackMode (state switched) then "gemini-3-flash" else "gemini-3-pro")
  /\ fallbackModel
       (state (updateConfig switched (modelsUpdate "gemini-3-pro" "gemini-3-flash")))
     = "gemini-3-flash"
  /\ primaryModel
       (config (updateConfig switched (modelsUpdate "gemini-3-pro" "gemini-3-flash")))
     = "gemini-3-pro"
  /\ cfg_fallbackModel
       (config (updateConfig switched (modelsUpdate "gemini-3-pro" "gemini-3-flash")))
     = "gemini-3-flash"
  /\ isInFallbackMode
       (state (updateConfig switched (modelsUpdate "gemini-3-pro" "gemini-3-flash")))
     = isInFallbackMode (state switched)
  /\ switchCount
       (state (updateConfig switched (modelsUpdate "gemini-3-pro" "gemini-3-flash")))
     = switchCount (state switched)
  /\ db (updateConfig switched (modelsUpdate "gemini-3-pro" "gemini-3-flash"))
     = db switched
  /\ fst (resetToPrimary
            (updateConfig switched (modelsUpdate "gemini-3-pro" "gemini-3-flash"))
            "t3")
     = "gemini-3-pro"
  /\ (enabled (config switched) = true ->
      isInFallbackMode (state switched) = false ->
      exists s',
        performFallback
          (updateConfig switched (modelsUpdate "gemini-3-pro" "gemini-3-flash"))
          slowDown "t3"
        = Returned "gemini-3-flash" s').
Proof.
  apply (updateConfig_moves_the_models switched "gemini-3-pro" "gemini-3-flash"
           "t3" slowDown); discriminate.
Defined.

End FallbackScenarios.

(** ** The fallback manager *)

Section ManagerFacts.
Import ErrorDetection Json Persistence Manager.
Context `{Codec}.

(** X18.  The auto-reset timer.  With auto reset enabled, a
    [triggerFallback] that succeeds leaves the manager in fallback mode on
    the fallback model, with the timer set to fire [autoResetDelay] after
    the switch; until then [shouldTriggerFallback] answers false.  When
    the timer fires the manager is back on the primary model, out of
    fallback mode, without a timer, and an error can trigger again. *)
Theorem auto_reset_brings_the_primary_model_back (m : FallbackManager)
        (s : Fallback.Service) (error error' : JsError) (now later : Clock) :
  fallbackService m = Some s ->
  Fallback.enabled (mgr_config m) = true ->
  Fallback.enabled (Fallback.config s) = true ->
  Fallback.autoResetEnabled (mgr_config m) = true ->
  Persistence.isInFallbackMode (Fallback.state s) = false ->
  exists r m1,
    triggerFallback m error now = Returned r m1
    /\ Fallback.success r = true
    /\ Fallback.newModel r = fallbackModel (Fallback.state s)
    /\ isInFallbackMode m1 = true
    /\ getCurrentModel m1 = fallbackModel (Fallback.state s)
    /\ autoResetTimer m1
       = Some (millis now + Fallback.autoResetDelay (mgr_config m))%Z
    /\ fst (shouldTriggerFallback m1 error') = false
    /\ isInFallbackMode (autoResetFires m1 later) = false
    /\ getCurrentModel (autoResetFires m1 later)
       = Fallback.primaryModel (Fallback.config s)
    /\ autoResetTimer (autoResetFires m1 later) = None
    /\ fst (shouldTriggerFallback (autoResetFires m1 later) error')
       = ErrorDetection.shouldTriggerFallback error'.
Proof.
  intros Hs Hen Hsen Hauto Hmode.
  unfold triggerFallback. rewrite Hs, Hen. cbn [negb].
  unfold Fallback.triggerFallback, Fallback.performFallback.
  rewrite Hsen, Hmode. cbn [negb Fallback.success].
  rewrite Hauto. unfold startAutoResetTimer. cbn [mgr_config]. rewrite Hauto.
  eexists _, _. split; [reflexivity|].
  split; [reflexivity|]. split; [reflexivity|].
  unfold isInFallbackMode, getCurrentModel, autoResetFires, resetToPrimary,
    shouldTriggerFallback.
  cbn [fallbackService mgr_config autoResetTimer]. rewrite Hen. cbn [negb].
  cbn [Fallback.state Persistence.isInFallbackMode Fallback.getCurrentModel
       Persistence.currentModel].
  split; [reflexivity|]. split; [reflexivity|]. split; [reflexivity|].
  split.
  { unfold Fallback.shouldTriggerFallback.
    cbn [Fallback.config Fallback.state Persistence.isInFallbackMode].
    rewrite Hsen. reflexivity. }
  unfold Fallback.resetToPrimary.
  cbn [Fallback.state Persistence.isInFallbackMode negb fallbackService mgr_config
       autoResetTimer].
  rewrite Hen. cbn [negb Fallback.state Persistence.isInFallbackMode
                    Fallback.getCurrentModel Persistence.currentModel Fallback.config].
  split; [reflexivity|]. split; [reflexivity|]. split; [reflexivity|].
  unfold Fallback.shouldTriggerFallback.
  cbn [Fallback.config Fallback.state Persistence.isInFallbackMode].
  rewrite Hsen. cbn [negb].
  destruct (ErrorDetection.shouldTriggerFallback error'); reflexivity.
Qed.

End ManagerFacts.

Section ManagerScenarios.
Import ErrorDetection Json Persistence Manager Scenarios.

(** On the default configuration: the timer fires five minutes later. *)
Lemma auto_reset_witness :
  exists r m1,
    triggerFallback
      (mkFallbackManager defaultConfig
         (Some (Fallback.newService defaultConfig "t0" None)) None)
      slowDown noon
    = Returned r m1
    /\ Fallback.success r = true
    /\ Fallback.newModel r = "gemini-2.5-flash"
    /\ isInFallbackMode m1 = true
    /\ getCurrentModel m1 = "gemini-2.5-flash"
    /\ autoResetTimer m1 = Some 302000%Z
    /\ fst (shouldTriggerFallback m1 serverDown) = false
    /\ isInFallbackMode (autoResetFires m1 (mkClock 302000 "2025-01-01T12:05:00.000Z"))
       = false
    /\ getCurrentModel (autoResetFires m1 (mkClock 302000 "2025-01-01T12:05:00.000Z"))
       = "gemini-2.5-pro"
    /\ autoResetTimer (autoResetFires m1 (mkClock 302000 "2025-01-01T12:05:00.000Z"))
       = None
    /\ fst (shouldTriggerFallback
              (autoResetFires m1 (mkClock 302000 "2025-01-01T12:05:00.000Z"))
              serverDown)
       = ErrorDetection.shouldTriggerFallback serverDown.
Proof.
  apply (auto_reset_brings_the_primary_model_back
           (mkFallbackManager defaultConfig
              (Some (Fallback.newService defaultConfig "t0" None)) None)
           (Fallback.newService defaultConfig "t0" None)
           slowDown serverDown noon (mkClock 302000 "2025-01-01T12:05:00.000Z"));
    reflexivity.
Defined.

End ManagerScenarios.

(** ** Tool-call ids *)

Section TranslatorFacts.
Import Json Translator.

Lemma append_cons c (a b : string) : String c a ++ b = String c (a ++ b).
Proof. reflexivity. Qed.

Lemma append_nil_r (a : string) : a ++ "" = a.
Proof. induction a as [|x a IH]; [reflexivity|]. rewrite append_cons, IH. reflexivity. Qed.

Lemma append_assoc (a b c : string) : (a ++ b) ++ c = a ++ (b ++ c).
Proof.
  induction a as [|x a IH]; [reflexivity|].
  rewrite !append_cons, IH. reflexivity.
Qed.

Lemma string_of_list_ascii_app l1 l2 :
  string_of_list_ascii (l1 ++ l2)%list
  = string_of_list_ascii l1 ++ string_of_list_ascii l2.
Proof.
  induction l1 as [|c l1 IH]; [reflexivity|].
  cbn [app string_of_list_ascii]. rewrite append_cons, IH. reflexivity.
Qed.

(** A split at a delimiter splits both sides of it. *)
Lemma splitFrom_app sep a : forall piece b,
  splitFrom sep piece (a ++ String sep b)
  = (splitFrom sep piece a ++ splitFrom sep [] b)%list.
Proof.
  induction a as [|c a IH]; intros piece b.
  - change ("" ++ String sep b) with (String sep b). cbn [splitFrom].
    rewrite Ascii.eqb_refl. reflexivity.
  - change (String c a ++ String sep b) with (String c (a ++ String sep b)).
    cbn [splitFrom].
    destruct (Ascii.eqb c sep); [rewrite IH; reflexivity | apply IH].
Qed.

(** A string without the delimiter is one piece. *)
Lemma splitFrom_delimiterFree sep s : forall piece,
  delimiterFree sep s = true ->
  splitFrom sep piece s
  = [string_of_list_ascii (rev piece ++ list_ascii_of_string s)%list].
Proof.
  induction s as [|c s IH]; intros piece Hfree;
    cbn [splitFrom list_ascii_of_string delimiterFree] in *.
  - rewrite app_nil_r. reflexivity.
  - apply andb_true_iff in Hfree. destruct Hfree as [Hc Hs].
    apply negb_true_iff in Hc. rewrite Hc, (IH _ Hs). cbn [rev].
    rewrite <- app_assoc. reflexivity.
Qed.

Lemma splitFrom_nonempty sep s piece : splitFrom sep piece s <> [].
Proof.
  revert piece. induction s as [|c s IH]; intros piece; cbn [splitFrom]; [discriminate|].
  destruct (Ascii.eqb c sep); [discriminate | apply IH].
Qed.

Lemma concat_cons sep (x : string) l :
  l <> [] -> String.concat sep (x :: l) = x ++ sep ++ String.concat sep l.
Proof. destruct l; [congruence | reflexivity]. Qed.

(** Joining the pieces of a split gives the string back. *)
Lemma join_splitFrom sep s : forall piece,
  join sep (splitFrom sep piece s) = string_of_list_ascii (rev piece) ++ s.
Proof.
  unfold join.
  induction s as [|c s IH]; intros piece; cbn [splitFrom].
  - cbn [String.concat]. rewrite append_nil_r. reflexivity.
  - destruct (Ascii.eqb_spec c sep) as [->|Hne].
    + rewrite concat_cons by apply splitFrom_nonempty.
      rewrite IH. reflexivity.
    + rewrite IH. cbn [rev]. rewrite string_of_list_ascii_app, append_assoc.
      reflexivity.
Qed.

(** The pieces of an id: [call], the pieces of the name, the suffix. *)
Lemma split_toolCallId name suffix :
  delimiterFree underscore suffix = true ->
  split underscore (toolCallId name suffix)
  = ("call" :: split underscore name ++ [suffix])%list.
Proof.
  intros Hfree. unfold split, toolCallId.
  change ("call_" ++ name ++ "_" ++ suffix)
    with ("call" ++ String underscore (name ++ String underscore suffix)).
  rewrite !splitFrom_app.
  rewrite (splitFrom_delimiterFree underscore suffix [] Hfree).
  cbn [rev app]. rewrite string_of_list_ascii_of_string. reflexivity.
Qed.


Context `{Codec}.


(** *** The translation beyond the claims *)

Lemma delimiterFree_app sep a b :
  delimiterFree sep (a ++ b) = delimiterFree sep a && delimiterFree sep b.
Proof.
  induction a as [|c a IH]; [reflexivity|].
  rewrite append_cons. cbn [delimiterFree]. rewrite IH, andb_assoc. reflexivity.
Qed.

Lemma prefix_append a b : String.prefix a (a ++ b) = true.
Proof.
  induction a as [|c a IH]; [destruct b; reflexivity|].
  rewrite append_cons. cbn [String.prefix].
  destruct (ascii_dec c c) as [_|Hne]; [exact IH|congruence].
Qed.

Lemma split_two sep a b :
  delimiterFree sep a = true -> delimiterFree sep b = true ->
  split sep (a ++ String sep b) = [a; b].
Proof.
  intros Ha Hb. unfold split.
  rewrite splitFrom_app, !splitFrom_delimiterFree by assumption.
  cbn [rev app]. rewrite !string_of_list_ascii_of_string. reflexivity.
Qed.

Lemma split_head sep a b :
  delimiterFree sep a = true ->
  exists rest, split sep (a ++ String sep b) = a :: rest.
Proof.
  intros Ha. unfold split.
  rewrite splitFrom_app, splitFrom_delimiterFree by assumption.
  cbn [rev app]. rewrite string_of_list_ascii_of_string. eexists. reflexivity.
Qed.

(** X19.  An image given as a data URL, [data:<mime>;<parameters>,<data>],
    becomes inline data with that mime type and that data, when the mime
    type holds no colon, semicolon or comma, the parameters no colon or
    comma and the data no comma. *)
Theorem data_url_becomes_inline_data (mime params data : string) :
  delimiterFree ":" mime = true ->
  delimiterFree ";" mime = true ->
  delimiterFree "," mime = true ->
  delimiterFree ":" params = true ->
  delimiterFree "," params = true ->
  delimiterFree "," data = true ->
  contentPart (ImageUrlPart ("data:" ++ mime ++ ";" ++ params ++ "," ++ data))
  = [InlineData mime (Some data)].
Proof.
  intros Hm1 Hm2 Hm3 Hp1 Hp2 Hd.
  unfold contentPart.
  assert (Hprefix : String.prefix "data:"
                      ("data:" ++ mime ++ ";" ++ params ++ "," ++ data) = true)
    by apply prefix_append.
  rewrite Hprefix.
  assert (Hurl : "data:" ++ mime ++ ";" ++ params ++ "," ++ data
                 = ("data:" ++ mime ++ ";" ++ params) ++ String "," data).
  { rewrite !append_assoc. reflexivity. }
  rewrite Hurl.
  rewrite split_two; [|rewrite !delimiterFree_app, Hm3, Hp2; reflexivity|exact Hd].
  cbn [nthOrEmpty lookup list_lookup].
  change ("data:" ++ mime ++ ";" ++ params)
    with ("data" ++ String ":" (mime ++ ";" ++ params)).
  rewrite split_two;
    [|reflexivity|rewrite !delimiterFree_app, Hm1, Hp1; reflexivity].
  cbn [nthOrEmpty lookup list_lookup].
  destruct (split_head ";" mime params Hm2) as (rest & Hsplit).
  change (mime ++ ";" ++ params) with (mime ++ String ";" params).
  rewrite Hsplit. reflexivity.
Qed.

(** X21.  The response of a tool is always handed on as an object.  A
    content that is the JSON text of an object is handed on as that
    object; the JSON text of anything else is wrapped as [{output: ...}],
    and so is a content that is not JSON text, as a string.  The message
    becomes a [user] turn with one function response, named by the id. *)
Theorem tool_response_is_always_an_object :
  (forall c, exists o, responsePayload c = JObj o)
  /\ (forall o, responsePayload (StringContent (stringify (JObj o))) = JObj o)
  /\ (forall j, (forall o, j <> JObj o) ->
        responsePayload (StringContent (stringify j)) = JObj [("output", j)])
  /\ (forall s, parse s = None ->
        responsePayload (StringContent s) = JObj [("output", JStr s)])
  /\ (forall name c id,
        parseFunctionNameFromId id = name ->
        openAIMessageToGemini (mkOpenAIMessage tool c None (Some id))
        = mkContent user_role [FunctionResponsePart name (responsePayload c)]).
Proof.
  split.
  { intros [|s|parts]; cbn [responsePayload]; [eexists; reflexivity| |eexists; reflexivity].
    destruct (parse s) as [[]|]; eexists; reflexivity. }
  split.
  { intros o. cbn [responsePayload]. rewrite parse_stringify. reflexivity. }
  split.
  { intros j Hj. cbn [responsePayload]. rewrite parse_stringify.
    destruct j; try reflexivity. exfalso. exact (Hj _ eq_refl). }
  split.
  { intros s Hs. cbn [responsePayload]. rewrite Hs. reflexivity. }
  intros name c id <-. reflexivity.
Qed.

Lemma delimiterFree_piece sep (piece : list ascii) :
  Forall (fun c => c <> sep) piece ->
  delimiterFree sep (string_of_list_ascii (rev piece)) = true.
Proof.
  induction 1 as [|c piece Hc _ IH]; [reflexivity|].
  cbn [rev]. rewrite string_of_list_ascii_app, delimiterFree_app, IH.
  cbn. destruct (Ascii.eqb_spec c sep); [contradiction|reflexivity].
Qed.

(** Every piece of a split is free of the separator. *)
Lemma splitFrom_pieces sep s : forall piece,
  Forall (fun c => c <> sep) piece ->
  Forall (fun p => delimiterFree sep p = true) (splitFrom sep piece s).
Proof.
  induction s as [|c s IH]; intros piece Hpiece; cbn [splitFrom].
  - constructor; [apply delimiterFree_piece, Hpiece|constructor].
  - destruct (Ascii.eqb_spec c sep) as [->|Hne].
    + constructor; [apply delimiterFree_piece, Hpiece|]. apply IH. constructor.
    + apply IH. constructor; assumption.
Qed.

Lemma join_snoc sep (l : list string) (x : string) :
  l <> [] -> join sep (l ++ [x]) = join sep l ++ String sep x.
Proof.
  unfold join. induction l as [|y l IH]; [congruence|]. intros _.
  destruct l as [|z l].
  - reflexivity.
  - change ((y :: z :: l) ++ [x])%list with (y :: ((z :: l) ++ [x]))%list.
    rewrite (concat_cons (String sep "") y ((z :: l) ++ [x])%list)
      by (intros Heq; simpl in Heq; discriminate Heq).
    rewrite IH by discriminate.
    rewrite (concat_cons (String sep "") y (z :: l)) by discriminate.
    rewrite !append_assoc. reflexivity.
Qed.

(** X20.  [parseFunctionNameFromId] inverts the format of the ids and
    nothing else.  Either the id is [call_<name>_<suffix>] with a suffix
    free of underscores, and the answer is that name; or the id has this
    format for no name and no such suffix, and the answer is
    "unknown_tool_from_id". *)
Theorem parsed_name_is_the_one_of_the_id (id : string) :
  (exists suffix,
     delimiterFree underscore suffix = true
     /\ id = toolCallId (parseFunctionNameFromId id) suffix)
  \/ (parseFunctionNameFromId id = "unknown_tool_from_id"
      /\ forall name suffix,
           delimiterFree underscore suffix = true ->
           id <> toolCallId name suffix).
Proof.
  unfold parseFunctionNameFromId.
  destruct ((2 <? length (split underscore id))%nat
            && match split underscore id !! 0%nat with
               | Some p => String.eqb p "call"
               | None => false
               end) eqn:Hcond.
  - left. apply andb_prop in Hcond as [Hlen Hcall].
    apply Nat.ltb_lt in Hlen.
    pose proof (join_splitFrom underscore id []) as Hjoin.
    pose proof (splitFrom_pieces underscore id [] (Forall_nil_2 _)) as Hfree.
    fold (split underscore id) in Hjoin, Hfree.
    destruct (split underscore id) as [|p parts] eqn:Hsplit; [cbn in Hlen; lia|].
    cbn [lookup list_lookup] in Hcall.
    apply String.eqb_eq in Hcall. subst p.
    destruct (rev_ind (fun l => l = [] \/ exists mid last, l = mid ++ [last])%list
                (or_introl eq_refl)
                (fun x l _ => or_intror (ex_intro _ l (ex_intro _ x eq_refl)))
                parts) as [->|(mid & last & ->)]; [cbn in Hlen; lia|].
    assert (Hmid : mid <> []).
    { intros ->. cbn in Hlen. lia. }
    exists last. split.
    + apply Forall_cons in Hfree as [_ Hfree].
      apply Forall_app in Hfree as [_ Hfree].
      apply Forall_cons in Hfree as [Hfree _]. exact Hfree.
    + unfold slice. cbn [drop length].
      rewrite length_app. cbn [length].
      replace (S (length mid + 1) - 1 - 1) with (length mid) by lia.
      rewrite drop_0, take_app_length.
      cbn [rev string_of_list_ascii] in Hjoin.
      rewrite <- Hjoin at 1.
      change ("call" :: mid ++ [last])%list with ("call" :: (mid ++ [last]))%list.
      unfold join at 1.
      rewrite concat_cons
        by (intros Heq; destruct mid; simpl in Heq; discriminate Heq).
      fold (join underscore (mid ++ [last])). rewrite join_snoc by exact Hmid.
      unfold toolCallId. reflexivity.
  - right. split; [reflexivity|].
    intros name suffix Hfree ->.
    rewrite (split_toolCallId name suffix Hfree) in Hcond.
    pose proof (splitFrom_nonempty underscore name []) as Hne.
    fold (split underscore name) in Hne.
    destruct (split underscore name) as [|p ps]; [congruence|].
    cbn [length app lookup list_lookup] in Hcond.
    rewrite length_app in Hcond. cbn [length] in Hcond.
    replace (2 <? S (S (length ps + 1)))%nat with true in Hcond
      by (symmetry; apply Nat.ltb_lt; lia).
    discriminate Hcond.
Qed.

End TranslatorFacts.


Section TranslatorScenarios.
Import Json Translator.

(** A PNG image in base 64. *)
Lemma data_url_witness :
  contentPart (ImageUrlPart ("data:" ++ "image/png" ++ ";" ++ "base64" ++ "," ++ "iVBORw0KGgo="))
  = [InlineData "image/png" (Some "iVBORw0KGgo=")].
Proof.
  apply (data_url_becomes_inline_data "image/png" "base64" "iVBORw0KGgo=");
    reflexivity.
Defined.
End TranslatorScenarios.

(** ** The schemas of the tools *)

Section SchemaFacts.
Import Json Schema.


















(** *** Nothing unsupported is left *)










End SchemaFacts.

(** ** The request path *)

Section ClientFacts.
Import ErrorDetection Json Persistence Translator Client.
Context `{Codec}.

(** In fallback mode the manager never asks for a fallback. *)
Lemma manager_should_in_fallback m error :
  inFallback m -> Manager.shouldTriggerFallback m error = (false, m).
Proof.
  intros (s & Hs & Hmode). unfold Manager.shouldTriggerFallback. rewrite Hs.
  destruct (Fallback.enabled (Manager.mgr_config m)); cbn [negb]; [|reflexivity].
  unfold Fallback.shouldTriggerFallback. rewrite Hmode.
  destruct (Fallback.enabled (Fallback.config s)); cbn [negb];
    destruct m; cbn in Hs |- *; rewrite Hs; reflexivity.
Qed.

(** What a positive answer of the manager tells. *)
Lemma manager_should_true m error m1 :
  Manager.shouldTriggerFallback m error = (true, m1) ->
  exists s s1,
    Manager.fallbackService m = Some s
    /\ Manager.fallbackService m1 = Some s1
    /\ Manager.mgr_config m1 = Manager.mgr_config m
    /\ Fallback.enabled (Manager.mgr_config m) = true
    /\ Fallback.state s1 = Fallback.state s
    /\ Fallback.config s1 = Fallback.config s
    /\ Fallback.enabled (Fallback.config s) = true
    /\ isInFallbackMode (Fallback.state s) = false
    /\ ErrorDetection.shouldTriggerFallback error = true.
Proof.
  unfold Manager.shouldTriggerFallback.
  destruct (Manager.fallbackService m) as [s|] eqn:Hs; [|discriminate].
  destruct (Fallback.enabled (Manager.mgr_config m)) eqn:Hen; cbn [negb]; [|discriminate].
  unfold Fallback.shouldTriggerFallback.
  destruct (Fallback.enabled (Fallback.config s)) eqn:Hsen; cbn [negb]; [|discriminate].
  destruct (isInFallbackMode (Fallback.state s)) eqn:Hmode; [discriminate|].
  destruct (ErrorDetection.shouldTriggerFallback error) eqn:Hshould; [|discriminate].
  intros [= <-]. eexists _, _. repeat split; try reflexivity; assumption.
Qed.

(** After a positive answer the switch goes through: the service is in
    fallback mode, on its fallback model, with one more switch counted. *)
Lemma manager_trigger_after_should m error m1 now :
  Manager.shouldTriggerFallback m error = (true, m1) ->
  exists r m2 s s2,
    Manager.triggerFallback m1 error now = Manager.Returned r m2
    /\ Manager.fallbackService m = Some s
    /\ Manager.fallbackService m2 = Some s2
    /\ isInFallbackMode (Fallback.state s2) = true
    /\ switchCount (Fallback.state s2) = S (switchCount (Fallback.state s))
    /\ Manager.getCurrentModel m2 = fallbackModel (Fallback.state s).
Proof.
  intros Hshould.
  destruct (manager_should_true _ _ _ Hshould)
    as (s & s1 & Hs & Hs1 & Hcfg & Hen & Hstate & Hconfig & Hsen & Hmode & _).
  unfold Manager.triggerFallback. rewrite Hs1, Hcfg, Hen. cbn [negb].
  unfold Fallback.triggerFallback, Fallback.performFallback.
  rewrite Hconfig, Hsen, Hstate, Hmode. cbn [negb Fallback.success].
  unfold Manager.startAutoResetTimer, Manager.getCurrentModel.
  destruct (Fallback.autoResetEnabled (Manager.mgr_config m)) eqn:Hauto;
    cbn [Manager.mgr_config Manager.fallbackService]; rewrite ?Hauto;
    cbn [Manager.mgr_config Manager.fallbackService]; rewrite ?Hen; cbn [negb];
    eexists _, _, _, _; (split; [reflexivity|]); repeat split; try reflexivity;
    try assumption;
    cbn -[Persistence.saveState]; rewrite ?Hen; reflexivity.
Qed.

(** A usage report writes the rotation service only. *)
Lemma fields_reportIfRotated c apiKey success now :
  calls (reportIfRotated c apiKey success now) = calls c
  /\ fallbackManager (reportIfRotated c apiKey success now) = fallbackManager c
  /\ configModel (reportIfRotated c apiKey success now) = configModel c
  /\ modelLog (reportIfRotated c apiKey success now) = modelLog c.
Proof.
  unfold reportIfRotated.
  destruct (rotationService c), (truthy apiKey); repeat split; reflexivity.
Qed.

Lemma switches_reportIfRotated c apiKey success now :
  switches (reportIfRotated c apiKey success now) = switches c.
Proof.
  unfold switches.
  destruct (fields_reportIfRotated c apiKey success now) as (_ & -> & _).
  reflexivity.
Qed.

(** [prepare] reads two fields of the client, which no step writes. *)
Lemma prepare_ext c c' messages apiKey :
  useInternalPrompt c' = useInternalPrompt c -> configModel c' = configModel c ->
  prepare c' messages apiKey = prepare c messages apiKey.
Proof. unfold prepare. intros -> ->. reflexivity. Qed.

Lemma prepare_call c messages apiKey call :
  fst (prepare c messages apiKey) = Some call ->
  generator call = generatorFor apiKey /\ usedModel call = configModel c.
Proof.
  unfold prepare.
  destruct (extractSystem (useInternalPrompt c) messages) as [systemMessage messages'].
  cbn [fst].
  destruct (last (map openAIMessageToGemini messages')); [|discriminate].
  intros [= <-]. split; reflexivity.
Qed.

(** One attempt that cannot fall back: no manager, or one in fallback
    mode.  It makes the call it has prepared and gives its result. *)
Lemma execute_without_fallback fuel backend c model messages apiKey now :
  1 <= fuel ->
  (forall m, fallbackManager c = Some m -> inFallback m) ->
  exists r c',
    executeStreamRequest fuel backend c model messages apiKey now = Some (r, c')
    /\ switches c' = switches c
    /\ configModel c' = configModel c
    /\ fallbackManager c' = fallbackManager c
    /\ modelLog c' = (logged c ++ modelLog c)%list
    /\ match fst (prepare c messages apiKey) with
       | None => r = OtherError "No message to send." /\ calls c' = calls c
       | Some call =>
           calls c' = call :: calls c
           /\ match backend (length (calls c)) call with
              | None => r = Stream call
              | Some error => r = BackendError error
              end
       end.
Proof.
  intros Hfuel Hmode. destruct fuel as [|fuel]; [lia|].
  cbn [executeStreamRequest].
  set (c0 := match fallbackManager c with Some m => _ | None => c end).
  assert (Hc0 : fallbackManager c0 = fallbackManager c /\ calls c0 = calls c
                /\ configModel c0 = configModel c
                /\ useInternalPrompt c0 = useInternalPrompt c
                /\ modelLog c0 = (logged c ++ modelLog c)%list
                /\ switches c0 = switches c).
  { subst c0. unfold logged, switches. destruct (fallbackManager c) eqn:Hm;
      cbn [logModel fallbackManager calls configModel useInternalPrompt modelLog app];
      rewrite ?Hm; repeat split; reflexivity. }
  destruct Hc0 as (Hfm0 & Hcalls0 & Hcfg0 & Huip0 & Hlog0 & Hsw0).
  rewrite (prepare_ext c c0 messages apiKey Huip0 Hcfg0).
  destruct (prepare c messages apiKey) as [[call|] messages'] eqn:Hprep; cbn [fst].
  2:{ eexists _, _. split; [reflexivity|]. repeat split; assumption. }
  rewrite Hcalls0.
  destruct (backend (length (calls c)) call) as [error|] eqn:Hbackend.
  - cbn [fallbackManager logCall]. rewrite Hfm0.
    destruct (fallbackManager c) as [m|] eqn:Hm.
    + rewrite (manager_should_in_fallback m error (Hmode m eq_refl)).
      eexists _, _. split; [reflexivity|].
      destruct (fields_reportIfRotated (setFallbackManager (logCall c0 call) m) apiKey false
                  (Manager.millis now)) as (-> & -> & -> & ->).
      rewrite switches_reportIfRotated.
      cbn [setFallbackManager logCall calls fallbackManager configModel modelLog].
      rewrite Hcalls0, Hcfg0, Hlog0.
      split; [|repeat split; reflexivity].
      unfold switches. cbn [fallbackManager]. rewrite Hm. reflexivity.
    + eexists _, _. split; [reflexivity|].
      destruct (fields_reportIfRotated (logCall c0 call) apiKey false
                  (Manager.millis now)) as (-> & -> & -> & ->).
      rewrite switches_reportIfRotated.
      cbn [logCall calls fallbackManager configModel modelLog].
      rewrite Hcalls0, Hcfg0, Hlog0, Hfm0.
      split; [|repeat split; reflexivity].
      unfold switches. cbn [fallbackManager logCall]. rewrite Hfm0, Hm. reflexivity.
  - eexists _, _. split; [reflexivity|].
    destruct (fields_reportIfRotated (logCall c0 call) apiKey true
                (Manager.millis now)) as (-> & -> & -> & ->).
    rewrite switches_reportIfRotated.
    cbn [logCall calls fallbackManager configModel modelLog].
    rewrite Hcalls0, Hcfg0, Hlog0, Hfm0.
    split; [|repeat split; reflexivity].
    unfold switches. cbn [fallbackManager logCall]. rewrite Hfm0. reflexivity.
Qed.

(** Asking the manager does not touch the state of the service. *)
Lemma manager_should_switches c m error :
  fallbackManager c = Some m ->
  switches (setFallbackManager c (snd (Manager.shouldTriggerFallback m error)))
  = switches c.
Proof.
  intros Hm. unfold switches. rewrite Hm. cbn [setFallbackManager fallbackManager].
  unfold Manager.shouldTriggerFallback.
  destruct (Manager.fallbackService m) as [s|] eqn:Hs; cbn [snd]; [|rewrite Hs; reflexivity].
  destruct (Fallback.enabled (Manager.mgr_config m)); cbn [negb snd]; [|rewrite Hs; reflexivity].
  unfold Fallback.shouldTriggerFallback.
  destruct (Fallback.enabled (Fallback.config s)); cbn [negb snd];
    [|reflexivity].
  destruct (isInFallbackMode (Fallback.state s)); [reflexivity|].
  destruct (ErrorDetection.shouldTriggerFallback error); reflexivity.
Qed.

(** The runs of [executeStreamRequest]: what it returns, the calls it
    makes and the switches it counts, from the call it prepares, the
    answers of the backend and the answer of the fallback manager. *)
Lemma executeStreamRequest_runs (fuel : nat) (backend : Backend)
      (c : Client) (model : string) (messages : list OpenAIMessage)
      (apiKey : option string) (now : Manager.Clock) :
  2 <= fuel ->
  exists r c',
    executeStreamRequest fuel backend c model messages apiKey now = Some (r, c')
    /\ configModel c' = configModel c
    /\ match fst (prepare c messages apiKey) with
       | None =>
           r = OtherError "No message to send."
           /\ calls c' = calls c /\ switches c' = switches c
       | Some call1 =>
           match backend (length (calls c)) call1 with
           | None =>
               r = Stream call1
               /\ calls c' = call1 :: calls c /\ switches c' = switches c
           | Some error1 =>
               match fallbackManager c with
               | Some m =>
                   if fst (Manager.shouldTriggerFallback m error1) then
                     switches c' = S (switches c)
                     /\ (exists m' s,
                           fallbackManager c' = Some m'
                           /\ Manager.fallbackService m = Some s
                           /\ Manager.getCurrentModel m'
                              = fallbackModel (Fallback.state s)
                           /\ modelLog c'
                              = fallbackModel (Fallback.state s)
                                :: Manager.getCurrentModel m :: modelLog c)
                     /\ match fst (prepare c (snd (prepare c messages apiKey))
                                     apiKey) with
                        | None =>
                            r = OtherError "No message to send."
                            /\ calls c' = call1 :: calls c
                        | Some call2 =>
                            calls c' = call2 :: call1 :: calls c
                            /\ match backend (S (length (calls c))) call2 with
                               | None => r = Stream call2
                               | Some error2 => r = BackendError error2
                               end
                        end
                   else
                     r = BackendError error1
                     /\ calls c' = call1 :: calls c /\ switches c' = switches c
               | None =>
                   r = BackendError error1
                   /\ calls c' = call1 :: calls c /\ switches c' = switches c
               end
           end
       end.
Proof.
  intros Hfuel. destruct fuel as [|fuel]; [lia|].
  cbn [executeStreamRequest].
  set (c0 := match fallbackManager c with Some m => _ | None => c end).
  assert (Hc0 : fallbackManager c0 = fallbackManager c /\ calls c0 = calls c
                /\ configModel c0 = configModel c
                /\ useInternalPrompt c0 = useInternalPrompt c
                /\ modelLog c0 = (logged c ++ modelLog c)%list
                /\ switches c0 = switches c).
  { subst c0. unfold logged, switches. destruct (fallbackManager c) eqn:Hm;
      cbn [logModel fallbackManager calls configModel useInternalPrompt modelLog app];
      rewrite ?Hm; repeat split; reflexivity. }
  destruct Hc0 as (Hfm0 & Hcalls0 & Hcfg0 & Huip0 & Hlog0 & Hsw0).
  rewrite (prepare_ext c c0 messages apiKey Huip0 Hcfg0).
  destruct (prepare c messages apiKey) as [[call|] messages'] eqn:Hprep; cbn [fst snd].
  2:{ eexists _, _. split; [reflexivity|]. repeat split; assumption. }
  rewrite Hcalls0.
  destruct (backend (length (calls c)) call) as [error1|] eqn:Hbackend.
  2:{ eexists _, _. split; [reflexivity|].
      destruct (fields_reportIfRotated (logCall c0 call) apiKey true
                  (Manager.millis now)) as (-> & _ & -> & _).
      rewrite switches_reportIfRotated.
      cbn [logCall calls configModel]. rewrite Hcalls0, Hcfg0.
      repeat split. unfold switches. cbn [fallbackManager logCall].
      rewrite Hfm0. reflexivity. }
  cbn [fallbackManager logCall]. rewrite Hfm0.
  destruct (fallbackManager c) as [m|] eqn:Hm.
  2:{ eexists _, _. split; [reflexivity|].
      destruct (fields_reportIfRotated (logCall c0 call) apiKey false
                  (Manager.millis now)) as (-> & _ & -> & _).
      rewrite switches_reportIfRotated.
      cbn [logCall calls configModel]. rewrite Hcalls0, Hcfg0.
      repeat split. }
  destruct (Manager.shouldTriggerFallback m error1) as [[|] m1] eqn:Hshould; cbn [fst].
  - destruct (manager_trigger_after_should m error1 m1 now Hshould)
      as (r0 & m2 & s & s2 & Htrigger & Hs & Hs2 & Hmode2 & Hcount & Hmodel).
    rewrite Htrigger.
    set (c2 := setFallbackManager _ m2).
    assert (Hsw2 : switches c2 = S (switches c)).
    { unfold switches. subst c2. cbn [setFallbackManager fallbackManager].
      rewrite Hm, Hs, Hs2. exact Hcount. }
    destruct (execute_without_fallback fuel backend c2 (Manager.getCurrentModel m2)
                messages' apiKey now)
      as (r & c' & Hexec & Hsw & Hcfg & Hfm & Hlog & Hres).
    { lia. }
    { intros m' [= <-]. exists s2. split; assumption. }
    rewrite Hexec. exists r, c'. split; [reflexivity|].
    assert (Hprep2 : prepare c2 messages' apiKey = prepare c messages' apiKey).
    { apply prepare_ext; subst c2;
        cbn [setFallbackManager logCall useInternalPrompt configModel]; assumption. }
    rewrite Hprep2 in Hres.
    split; [rewrite Hcfg; subst c2; cbn [setFallbackManager logCall configModel]; exact Hcfg0|].
    split; [rewrite Hsw; exact Hsw2|].
    split.
    + exists m2, s. rewrite Hfm, Hlog. subst c2. unfold logged.
      cbn [setFallbackManager logCall fallbackManager modelLog app].
      rewrite Hlog0. unfold logged. rewrite Hm, Hmodel. cbn [app].
      repeat split; try reflexivity; assumption.
    + destruct (fst (prepare c messages' apiKey)) as [call2|].
      * destruct Hres as (Hcalls & Hres). subst c2.
        cbn [setFallbackManager logCall calls] in Hcalls, Hres.
        rewrite Hcalls0 in Hcalls, Hres. cbn [length] in Hres.
        split; assumption.
      * destruct Hres as (Hr & Hcalls). subst c2.
        cbn [setFallbackManager logCall calls] in Hcalls.
        rewrite Hcalls0 in Hcalls. split; assumption.
  - eexists _, _. split; [reflexivity|].
    destruct (fields_reportIfRotated (setFallbackManager (logCall c0 call) m1) apiKey false
                (Manager.millis now)) as (-> & _ & -> & _).
    rewrite switches_reportIfRotated.
    cbn [setFallbackManager logCall calls configModel]. rewrite Hcalls0, Hcfg0.
    repeat split.
    pose proof (manager_should_switches (logCall c0 call) m error1) as Hsame.
    rewrite Hshould in Hsame. cbn [snd] in Hsame. cbn [logCall fallbackManager] in Hsame.
    rewrite Hfm0 in Hsame. specialize (Hsame eq_refl).
    rewrite Hsame. unfold switches. cbn [fallbackManager logCall].
    rewrite Hfm0, Hm. reflexivity.
Qed.

(** C6 (the code departs from the claim).  A request makes at most two
    calls to the backend and counts at most one model switch.  A request
    with a message to send makes its first call.  When that call fails
    with an error for which the fallback manager answers true, the switch
    is made, the method runs once more on the array the first run left,
    and its call, when it has a message, is the second and last: its
    result is the result of the request, with no further fallback.  The
    retry goes through the same generator (the same key); but every call
    is built on the model of the configuration, the retry as the first
    call, while the manager and the log line of the retry name the
    fallback model: the new model does not reach the backend. *)
Theorem C6_retry_once_on_the_configured_model (fuel : nat) (backend : Backend)
        (c : Client) (model : string) (messages : list OpenAIMessage)
        (apiKey : option string) (now : Manager.Clock) :
  2 <= fuel ->
  exists r c' newCalls,
    executeStreamRequest fuel backend c model messages apiKey now = Some (r, c')
    /\ calls c' = (newCalls ++ calls c)%list
    /\ length newCalls <= 2
    /\ switches c' <= S (switches c)
    /\ (forall call, In call newCalls ->
          generator call = generatorFor apiKey
          /\ usedModel call = configModel c)
    /\ (forall call1, fst (prepare c messages apiKey) = Some call1 ->
          last newCalls = Some call1)
    /\ (forall call1 error1 m,
          fst (prepare c messages apiKey) = Some call1 ->
          backend (length (calls c)) call1 = Some error1 ->
          fallbackManager c = Some m ->
          fst (Manager.shouldTriggerFallback m error1) = true ->
          switches c' = S (switches c)
          /\ (exists m' s,
                fallbackManager c' = Some m'
                /\ Manager.fallbackService m = Some s
                /\ Manager.getCurrentModel m' = fallbackModel (Fallback.state s)
                /\ modelLog c'
                   = fallbackModel (Fallback.state s)
                     :: Manager.getCurrentModel m :: modelLog c)
          /\ match fst (prepare c (snd (prepare c messages apiKey)) apiKey) with
             | Some call2 =>
                 newCalls = [call2; call1]
                 /\ usedModel call2 = usedModel call1
                 /\ generator call2 = generator call1
                 /\ match backend (S (length (calls c))) call2 with
                    | Some error2 => r = BackendError error2
                    | None => r = Stream call2
                    end
             | None =>
                 newCalls = [call1] /\ r = OtherError "No message to send."
             end)
    /\ (forall call1 call2, newCalls = [call2; call1] ->
          exists m error1,
            fallbackManager c = Some m
            /\ backend (length (calls c)) call1 = Some error1
            /\ fst (Manager.shouldTriggerFallback m error1) = true).
Proof.
  intros Hfuel.
  destruct (executeStreamRequest_runs fuel backend c model messages apiKey now Hfuel)
    as (r & c' & Hexec & _ & Hrun).
  exists r, c'.
  destruct (fst (prepare c messages apiKey)) as [call1|] eqn:Hprep1.
  2:{ destruct Hrun as (Hr & Hcalls & Hsw). exists [].
      split; [exact Hexec|]. split; [exact Hcalls|]. split; [cbn; lia|].
      split; [lia|]. split; [intros ? []|]. split; [intros ? [=]|].
      split; [intros ? ? ? [=]|]. intros ? ? [=]. }
  destruct (prepare_call _ _ _ _ Hprep1) as (Hgen1 & Hmodel1).
  assert (Hone : forall r0, calls c' = call1 :: calls c -> switches c' = switches c ->
            r = r0 ->
            (forall m error1, backend (length (calls c)) call1 = Some error1 ->
               fallbackManager c = Some m ->
               fst (Manager.shouldTriggerFallback m error1) = false) ->
            exists newCalls,
              executeStreamRequest fuel backend c model messages apiKey now = Some (r, c')
              /\ calls c' = (newCalls ++ calls c)%list
              /\ length newCalls <= 2
              /\ switches c' <= S (switches c)
              /\ (forall call, In call newCalls ->
                    generator call = generatorFor apiKey
                    /\ usedModel call = configModel c)
              /\ (forall call0, Some call1 = Some call0 -> last newCalls = Some call0)
              /\ (forall call0 error1 m,
                    Some call1 = Some call0 ->
                    backend (length (calls c)) call0 = Some error1 ->
                    fallbackManager c = Some m ->
                    fst (Manager.shouldTriggerFallback m error1) = true ->
                    switches c' = S (switches c)
                    /\ (exists m' s,
                          fallbackManager c' = Some m'
                          /\ Manager.fallbackService m = Some s
                          /\ Manager.getCurrentModel m' = fallbackModel (Fallback.state s)
                          /\ modelLog c'
                             = fallbackModel (Fallback.state s)
                               :: Manager.getCurrentModel m :: modelLog c)
                    /\ match fst (prepare c (snd (prepare c messages apiKey)) apiKey) with
                       | Some call2 =>
                           newCalls = [call2; call0]
                           /\ usedModel call2 = usedModel call0
                           /\ generator call2 = generator call0
                           /\ match backend (S (length (calls c))) call2 with
                              | Some error2 => r = BackendError error2
                              | None => r = Stream call2
                              end
                       | None =>
                           newCalls = [call0] /\ r = OtherError "No message to send."
                       end)
              /\ (forall call0 call2, newCalls = [call2; call0] ->
                    exists m error1,
                      fallbackManager c = Some m
                      /\ backend (length (calls c)) call0 = Some error1
                      /\ fst (Manager.shouldTriggerFallback m error1) = true)).
  { intros r0 Hcalls Hsw _ Hno. exists [call1].
    split; [exact Hexec|]. split; [exact Hcalls|]. split; [cbn; lia|].
    split; [lia|].
    split; [intros call [<-|[]]; split; assumption|].
    split; [intros ? [= <-]; reflexivity|].
    split; [|intros ? ? [=]].
    intros call0 error1 m [= <-] Hfail Hm Hshould.
    rewrite (Hno m error1 Hfail Hm) in Hshould. discriminate. }
  destruct (backend (length (calls c)) call1) as [error1|] eqn:Hbackend.
  2:{ destruct Hrun as (Hr & Hcalls & Hsw).
      apply (Hone r Hcalls Hsw eq_refl). intros ? ? [=]. }
  destruct (fallbackManager c) as [m|] eqn:Hm.
  2:{ destruct Hrun as (Hr & Hcalls & Hsw).
      apply (Hone r Hcalls Hsw eq_refl). intros ? ? _ [=]. }
  destruct (fst (Manager.shouldTriggerFallback m error1)) eqn:Hshould.
  2:{ destruct Hrun as (Hr & Hcalls & Hsw).
      apply (Hone r Hcalls Hsw eq_refl). intros ? ? [= <-] [= <-]. exact Hshould. }
  clear Hone. destruct Hrun as (Hsw & Hmgr & Hretry).
  destruct (fst (prepare c (snd (prepare c messages apiKey)) apiKey)) as [call2|] eqn:Hprep2.
  - destruct Hretry as (Hcalls & Hres).
    destruct (prepare_call _ _ _ _ Hprep2) as (Hgen2 & Hmodel2).
    exists [call2; call1].
    split; [exact Hexec|]. split; [exact Hcalls|]. split; [cbn; lia|].
    split; [lia|].
    split; [intros call [<-|[<-|[]]]; split; assumption|].
    split; [intros ? [= <-]; reflexivity|].
    split.
    + intros call0 error0 m0 [= <-] Hfail [= <-] _.
      split; [exact Hsw|]. split; [exact Hmgr|].
      split; [reflexivity|]. split; [congruence|]. split; [congruence|]. exact Hres.
    + intros ? ? [= <- <-]. exists m, error1. repeat split; assumption.
  - destruct Hretry as (Hr & Hcalls).
    exists [call1].
    split; [exact Hexec|]. split; [exact Hcalls|]. split; [cbn; lia|].
    split; [lia|].
    split; [intros call [<-|[]]; split; assumption|].
    split; [intros ? [= <-]; reflexivity|].
    split; [|intros ? ? [=]].
    intros call0 error0 m0 [= <-] Hfail [= <-] _.
    split; [exact Hsw|]. split; [exact Hmgr|]. split; [reflexivity | exact Hr].
Qed.

(** The key [getApiKey] falls back on when rotation has none. *)
Lemma truthy_default env :
  generatorFor (match getDefaultApiKey env with
                | Key k => Some k
                | NoKey _ => None
                end)
  = match getDefaultApiKey env with
    | Key k => WithApiKey k
    | NoKey _ => DefaultGenerator
    end.
Proof.
  unfold getDefaultApiKey, generatorFor, truthy.
  destruct env as [k|]; [|reflexivity].
  destruct (String.eqb k "") eqn:Hk; [reflexivity|]. rewrite Hk. reflexivity.
Qed.

(** A request with a message has a call prepared. *)
Lemma prepare_some c messages apiKey lastContent :
  last (map openAIMessageToGemini
          (snd (extractSystem (useInternalPrompt c) messages)))
  = Some lastContent ->
  exists call, fst (prepare c messages apiKey) = Some call.
Proof.
  unfold prepare.
  destruct (extractSystem (useInternalPrompt c) messages) as [systemMessage messages'].
  cbn [snd fst]. intros ->. eexists. reflexivity.
Qed.

(** C5, amended.  When [getNextApiKey] finds no available key, the request
    is not failed: [getApiKey] falls back on the key of the environment
    ([GEMINI_API_KEY]), and the request is sent to the backend with that
    key, or through the default content generator when the environment
    has none.  A request with a message to send makes that call, and gets
    its stream when the call succeeds. *)
Theorem C5_no_rotated_key_uses_default (fuel : nat) (backend : Backend)
        (c : Client) (svc : RotationService) (m m' : Rotation.Manager)
        (msg model : string) (messages : list OpenAIMessage)
        (lastContent : Content) (now : Manager.Clock) (rnd : nat -> nat) :
  rotationService c = Some svc ->
  rotationManager svc = Some m ->
  isEnabled svc = true ->
  Rotation.getNextApiKey m (Manager.millis now) rnd = Rotation.Thrown msg m' ->
  last (map openAIMessageToGemini
          (snd (extractSystem (useInternalPrompt c) messages)))
  = Some lastContent ->
  2 <= fuel ->
  exists r c' call later,
    sendMessageStream fuel backend c model messages now rnd = Some (r, c')
    /\ calls c' = (later ++ call :: calls c)%list
    /\ generator call
       = match getDefaultApiKey (GEMINI_API_KEY c) with
         | Key k => WithApiKey k
         | NoKey _ => DefaultGenerator
         end
    /\ (backend (length (calls c)) call = None
        -> r = Stream call /\ later = []).
Proof.
  intros Hsvc Hm Hen Hthrown Hmessage Hfuel.
  unfold sendMessageStream, getApiKey. rewrite Hsvc, Hm, Hen, Hthrown. cbn [negb].
  set (c1 := mkClient _ _ _ _ _ _ _).
  set (apiKey := match getDefaultApiKey (GEMINI_API_KEY c) with
                 | Key k => Some k
                 | NoKey _ => None
                 end).
  destruct (executeStreamRequest_runs fuel backend c1 model messages apiKey now Hfuel)
    as (r & c' & Hexec & _ & Hrun).
  change (calls c1) with (calls c) in *.
  change (fallbackManager c1) with (fallbackManager c) in *.
  assert (Hprep : forall ms, prepare c1 ms apiKey = prepare c ms apiKey)
    by (intros ms; apply prepare_ext; reflexivity).
  rewrite !Hprep in Hrun.
  destruct (prepare_some c messages apiKey lastContent Hmessage) as (call & Hcall).
  rewrite Hcall in Hrun.
  destruct (prepare_call _ _ _ _ Hcall) as (Hgen & _).
  unfold apiKey in Hgen. rewrite truthy_default in Hgen.
  exists r, c', call.
  destruct (backend (length (calls c)) call) as [error1|] eqn:Hbackend.
  2:{ destruct Hrun as (Hr & Hcalls & _). exists [].
      split; [exact Hexec|]. split; [exact Hcalls|]. split; [exact Hgen|].
      intros _. split; [exact Hr | reflexivity]. }
  assert (Hone : calls c' = call :: calls c ->
            exists later,
              executeStreamRequest fuel backend c1 model messages apiKey now = Some (r, c')
              /\ calls c' = (later ++ call :: calls c)%list
              /\ generator call
                 = match getDefaultApiKey (GEMINI_API_KEY c) with
                   | Key k => WithApiKey k
                   | NoKey _ => DefaultGenerator
                   end
              /\ (Some error1 = None -> r = Stream call /\ later = [])).
  { intros Hcalls. exists [].
    split; [exact Hexec|]. split; [exact Hcalls|]. split; [exact Hgen|]. intros [=]. }
  destruct (fallbackManager c) as [fm|]; [|apply Hone, Hrun].
  destruct (fst (Manager.shouldTriggerFallback fm error1)); [|apply Hone, Hrun].
  destruct Hrun as (_ & _ & Hretry).
  destruct (fst (prepare c (snd (prepare c messages apiKey)) apiKey)) as [call2|].
  - exists [call2]. destruct Hretry as (Hcalls & _).
    split; [exact Hexec|]. split; [exact Hcalls|]. split; [exact Hgen|]. intros [=].
  - apply Hone, Hretry.
Qed.

(** *** The request path beyond the claims *)

Lemma list_find_middle {A} (P : A -> Prop) `{!forall x, Decision (P x)}
      (before after : list A) (x : A) :
  Forall (fun y => ~ P y) before -> P x ->
  list_find P (before ++ x :: after) = Some (length before, x).
Proof.
  intros Hbefore Hx. induction Hbefore as [|y before Hy _ IH].
  - cbn. rewrite decide_True by exact Hx. reflexivity.
  - cbn. rewrite decide_False by exact Hy.
    cbn in IH. rewrite IH. reflexivity.
Qed.

Lemma extractSystem_one before sys after :
  role sys = system ->
  Forall (fun msg => role msg <> system) (before ++ after) ->
  extractSystem false (before ++ sys :: after) = (Some sys, (before ++ after)%list)
  /\ extractSystem false (before ++ after) = (None, (before ++ after)%list).
Proof.
  intros Hsys Hnone. unfold extractSystem. split.
  - rewrite (list_find_middle (fun msg => role msg = system) before after sys);
      [|apply Forall_app in Hnone as [Hb _]; exact Hb|exact Hsys].
    rewrite delete_middle. reflexivity.
  - destruct (list_find _ (before ++ after)) as [[i msg]|] eqn:Hfind; [|reflexivity].
    apply list_find_Some in Hfind as (Hi & Hrole & _).
    rewrite Forall_forall in Hnone.
    exfalso. apply (Hnone msg); [|exact Hrole].
    eapply list_elem_of_lookup_2. exact Hi.
Qed.

(** X22.  The retry after a fallback sends no system instruction.  When
    the client's messages hold one system message (and the internal prompt
    is not in use), the first call carries it as the system instruction.
    It has then left the array of messages, which the retry shares: the
    second call has the history and the last message of the first, and no
    system instruction. *)
Theorem retry_loses_the_system_instruction (fuel : nat) (backend : Backend)
        (c : Client) (m : Manager.FallbackManager) (model : string)
        (before after : list OpenAIMessage) (sys : OpenAIMessage)
        (apiKey : option string) (now : Manager.Clock) (error1 : JsError) :
  2 <= fuel ->
  useInternalPrompt c = false ->
  role sys = system ->
  Forall (fun msg => role msg <> system) (before ++ after) ->
  (before ++ after)%list <> [] ->
  fallbackManager c = Some m ->
  exists call1,
    fst (prepare c (before ++ sys :: after) apiKey) = Some call1
    /\ systemInstruction call1 = Some (openAIMessageToGemini sys)
    /\ (backend (length (calls c)) call1 = Some error1 ->
        fst (Manager.shouldTriggerFallback m error1) = true ->
        exists r c',
          executeStreamRequest fuel backend c model (before ++ sys :: after)
            apiKey now = Some (r, c')
          /\ calls c'
             = mkBackendCall (generator call1) (usedModel call1) (history call1)
                 (lastMessage call1) None
               :: call1 :: calls c).
Proof.
  intros Hfuel Hinternal Hsys Hnone Hne Hm.
  destruct (extractSystem_one before sys after Hsys Hnone) as [Hfirst Hsecond].
  destruct (last (map openAIMessageToGemini (before ++ after))) as [lastContent|]
    eqn:Hlast.
  2:{ apply last_None in Hlast. apply map_eq_nil in Hlast. contradiction. }
  assert (Hp1 : prepare c (before ++ sys :: after) apiKey
                = (Some (mkBackendCall
                           (match truthy apiKey with
                            | Some k => WithApiKey k
                            | None => DefaultGenerator
                            end)
                           (configModel c)
                           (removelast (map openAIMessageToGemini (before ++ after)))
                           (c_parts lastContent)
                           (Some (openAIMessageToGemini sys))),
                   (before ++ after)%list)).
  { unfold prepare. rewrite Hinternal, Hfirst. cbv zeta. rewrite Hlast. reflexivity. }
  assert (Hp2 : prepare c (before ++ after) apiKey
                = (Some (mkBackendCall
                           (match truthy apiKey with
                            | Some k => WithApiKey k
                            | None => DefaultGenerator
                            end)
                           (configModel c)
                           (removelast (map openAIMessageToGemini (before ++ after)))
                           (c_parts lastContent)
                           None),
                   (before ++ after)%list)).
  { unfold prepare. rewrite Hinternal, Hsecond. cbv zeta. rewrite Hlast. reflexivity. }
  eexists. split; [rewrite Hp1; reflexivity|]. split; [reflexivity|].
  intros Hfail Hshould.
  destruct (executeStreamRequest_runs fuel backend c model (before ++ sys :: after)
              apiKey now Hfuel) as (r & c' & Hrun & _ & Hcases).
  rewrite Hp1 in Hcases. cbn [fst snd] in Hcases.
  rewrite Hfail, Hm, Hshould, Hp2 in Hcases. cbn [fst] in Hcases.
  destruct Hcases as (_ & _ & Hcalls & _).
  exists r, c'. split; [exact Hrun|]. exact Hcalls.
Qed.

Lemma getNextApiKey_active_keys m now rnd k :
  Rotation.keys m !! Rotation.currentIndex m = Some k ->
  Rotation.status k = Rotation.active ->
  exists m',
    Rotation.getNextApiKey m now rnd = Rotation.Returned (Rotation.key k) m'
    /\ Rotation.keys m'
       = <[Rotation.currentIndex m := Rotation.bumpUsage k now]> (Rotation.keys m)
    /\ Rotation.totalRequests m' = S (Rotation.totalRequests m)
    /\ Rotation.config m' = Rotation.config m.
Proof.
  intros Hk Hactive. unfold Rotation.getNextApiKey.
  destruct (Rotation.keys m) as [|k0 ks] eqn:Hkeys;
    [rewrite lookup_nil in Hk; discriminate|].
  cbn [length Rotation.rotate].
  rewrite Hkeys, Hk, (isKeyAvailable_active k now Hactive).
  eexists. split; [reflexivity|].
  cbn [Rotation.saveState Rotation.updateKeyUsage Rotation.set_keys Rotation.keys
       Rotation.currentIndex Rotation.totalRequests Rotation.config].
  split; [|split; reflexivity].
  rewrite list_insert_insert_eq. reflexivity.
Qed.

Lemma report_after_use m apiKey success errorType now i k k1 :
  list_find (fun k' => Rotation.key k' = apiKey) (Rotation.keys m) = Some (i, k) ->
  Rotation.key k1 = apiKey ->
  forall m1,
    Rotation.keys m1 = <[i := k1]> (Rotation.keys m) ->
    Rotation.keys (Rotation.reportKeyUsage m1 apiKey success errorType now) !! i
    = Some (if success then Rotation.recordSuccess k1 now
            else Rotation.recordFailure (Rotation.config m1) k1 errorType now)
    /\ Rotation.totalRequests (Rotation.reportKeyUsage m1 apiKey success errorType now)
       = Rotation.totalRequests m1.
Proof.
  intros Hfind Hkey m1 Hkeys.
  pose proof (list_find_key_insert _ _ _ _ k1 Hfind Hkey) as Hfind1.
  rewrite <- Hkeys in Hfind1.
  rewrite (reportKeyUsage_found m1 apiKey success errorType now i k1 Hfind1).
  cbn [Rotation.saveState Rotation.set_keys Rotation.keys Rotation.totalRequests].
  split; [|reflexivity].
  apply list_lookup_insert_eq.
  apply list_find_Some in Hfind1 as (Hi & _). apply lookup_lt_Some in Hi. exact Hi.
Qed.

(** X23.  One request is counted on the key it used.  With rotation
    enabled, an active key at the current index (the first of its name)
    and no fallback manager, [sendMessageStream] makes one call to the
    backend, with the generator of that key.  The key then counts one more
    request, and one more success with no consecutive failure when a
    stream came back, or one more failure and one more consecutive failure
    when the call failed, the error being thrown on. *)
Theorem request_is_counted_on_the_key_used (fuel : nat) (backend : Backend)
        (c : Client) (svc : RotationService) (m : Rotation.Manager)
        (k : Rotation.ApiKeyInfo) (model : string)
        (messages : list OpenAIMessage) (lastContent : Content)
        (now : Manager.Clock) (rnd : nat -> nat) :
  rotationService c = Some svc ->
  rotationManager svc = Some m ->
  isEnabled svc = true ->
  fallbackManager c = None ->
  list_find (fun k' => Rotation.key k' = Rotation.key k) (Rotation.keys m)
  = Some (Rotation.currentIndex m, k) ->
  Rotation.status k = Rotation.active ->
  Rotation.key k <> "" ->
  last (map openAIMessageToGemini
          (snd (extractSystem (useInternalPrompt c) messages)))
  = Some lastContent ->
  1 <= fuel ->
  exists r c' call m' k',
    sendMessageStream fuel backend c model messages now rnd = Some (r, c')
    /\ calls c' = call :: calls c
    /\ generator call = WithApiKey (Rotation.key k)
    /\ rotationService c' = Some (mkRotationService (Some m') true)
    /\ Rotation.keys m' !! Rotation.currentIndex m = Some k'
    /\ Rotation.totalRequests m' = S (Rotation.totalRequests m)
    /\ Rotation.requestCount k' = S (Rotation.requestCount k)
    /\ match backend (length (calls c)) call with
       | None =>
           r = Stream call
           /\ Rotation.successCount k' = S (Rotation.successCount k)
           /\ Rotation.failureCount k' = Rotation.failureCount k
           /\ Rotation.consecutiveFailures k' = 0
       | Some error =>
           r = BackendError error
           /\ Rotation.successCount k' = Rotation.successCount k
           /\ Rotation.failureCount k' = S (Rotation.failureCount k)
           /\ Rotation.consecutiveFailures k' = S (Rotation.consecutiveFailures k)
       end.
Proof.
  intros Hsvc Hm Hen Hfb Hfind Hactive Hkey Hlast Hfuel.
  pose proof Hfind as Hfind'. apply list_find_Some in Hfind' as (Hk & _ & _).
  destruct (getNextApiKey_active_keys m (Manager.millis now) rnd k Hk Hactive)
    as (m1 & Hnext & Hkeys1 & Htotal1 & Hconfig1).
  destruct fuel as [|fuel']; [lia|].
  unfold sendMessageStream. rewrite Hsvc. unfold getApiKey.
  rewrite Hm, Hen, Hnext. cbn [negb].
  set (c1 := mkClient _ _ _ _ _ _ _).
  assert (Hprep : exists call, fst (prepare c1 messages (Some (Rotation.key k)))
                               = Some call).
  { apply (prepare_some c1 messages _ lastContent). exact Hlast. }
  destruct Hprep as (call & Hcall).
  pose proof (prepare_call c1 messages _ call Hcall) as [Hgen _].
  assert (Htruthy : truthy (Some (Rotation.key k)) = Some (Rotation.key k)).
  { unfold truthy. destruct (String.eqb_spec (Rotation.key k) "");
      [contradiction|reflexivity]. }
  unfold generatorFor in Hgen. rewrite Htruthy in Hgen.
  assert (Hfb1 : fallbackManager c1 = None) by exact Hfb.
  assert (Hcalls1 : calls c1 = calls c) by reflexivity.
  assert (Hrot1 : rotationService c1
                  = Some (mkRotationService (Some m1) true))
    by reflexivity.
  clearbody c1.
  cbn [executeStreamRequest]. rewrite Hfb1.
  destruct (prepare c1 messages (Some (Rotation.key k))) as [prepared messages']
    eqn:Hprepare.
  cbn [fst] in Hcall. subst prepared.
  cbn [logCall fallbackManager]. rewrite Hfb1, Hcalls1.
  destruct (report_after_use m (Rotation.key k) true None (Manager.millis now)
              _ k (Rotation.bumpUsage k (Manager.millis now)) Hfind eq_refl
              m1 Hkeys1) as [Hok Hoktotal].
  destruct (report_after_use m (Rotation.key k) false None (Manager.millis now)
              _ k (Rotation.bumpUsage k (Manager.millis now)) Hfind eq_refl
              m1 Hkeys1) as [Hko Hkototal].
  assert (Hreport : forall success,
            rotationService (reportIfRotated (logCall c1 call)
                               (Some (Rotation.key k)) success (Manager.millis now))
            = Some (mkRotationService
                      (Some (Rotation.reportKeyUsage m1 (Rotation.key k) success
                               None (Manager.millis now))) true)
            /\ calls (reportIfRotated (logCall c1 call)
                        (Some (Rotation.key k)) success (Manager.millis now))
               = call :: calls c).
  { intros success. unfold reportIfRotated. cbn [logCall rotationService].
    rewrite Hrot1, Htruthy. cbn [rotationService calls logCall]. rewrite Hcalls1.
    split; reflexivity. }
  destruct (backend (length (calls c)) call) as [error|] eqn:Hbackend.
  - destruct (Hreport false) as [Hrot Hcalls].
    eexists _, _, call, _, _. split; [reflexivity|].
    split; [exact Hcalls|]. split; [exact Hgen|]. split; [exact Hrot|].
    split; [exact Hko|]. split; [rewrite Hkototal; exact Htotal1|].
    rewrite Hbackend. unfold Rotation.recordFailure.
    destruct (_ <=? _)%nat; cbn; repeat split; reflexivity.
  - destruct (Hreport true) as [Hrot Hcalls].
    eexists _, _, call, _, _. split; [reflexivity|].
    split; [exact Hcalls|]. split; [exact Hgen|]. split; [exact Hrot|].
    split; [exact Hok|]. split; [rewrite Hoktotal; exact Htotal1|].
    rewrite Hbackend. cbn. repeat split; reflexivity.
Qed.

End ClientFacts.

Section ClientScenarios.
Import ErrorDetection Json Persistence Translator Client Scenarios.

(** C5, the claim as stated fails: with the only key cooling down,
    [getNextApiKey] throws, and the request still reaches the backend,
    with the key of the environment, and returns its stream. *)
Lemma C5_all_keys_cooling_still_calls_backend :
  Rotation.getNextApiKey cooling 2000 (fun _ => 0)
  = Rotation.Thrown "No available API keys found" cooling
  /\ exists call c',
       sendMessageStream 2 alwaysOk coolingClient "gemini-2.5-pro" [hello]
         noon (fun _ => 0)
       = Some (Stream call, c')
       /\ calls c' = [call]
       /\ generator call = WithApiKey "default-key".
Proof. split; [|eexists _, _]; vm_compute; repeat split. Qed.

(** On the client whose only key is cooling down. *)
Lemma C5_no_rotated_key_witness :
  exists r c' call later,
    sendMessageStream 2 alwaysOk coolingClient "gemini-2.5-pro" [hello]
      noon (fun _ => 0)
    = Some (r, c')
    /\ calls c' = (later ++ call :: calls coolingClient)%list
    /\ generator call
       = match getDefaultApiKey (GEMINI_API_KEY coolingClient) with
         | Key k => WithApiKey k
         | NoKey _ => DefaultGenerator
         end
    /\ (alwaysOk (length (calls coolingClient)) call = None
        -> r = Stream call /\ later = []).
Proof.
  apply (C5_no_rotated_key_uses_default 2 alwaysOk coolingClient
           (mkRotationService (Some cooling) true) cooling cooling
           "No available API keys found" "gemini-2.5-pro" [hello]
           (mkContent user_role [Text "hello"]) noon (fun _ => 0)).
  - reflexivity.
  - reflexivity.
  - reflexivity.
  - vm_compute. reflexivity.
  - vm_compute. reflexivity.
  - lia.
Defined.

(** C6, the run that shows it: the first call meets a rate limit on the
    model of the configuration, the service switches to the fallback
    model, which the manager and the log line of the retry name, and the
    retry is sent with the same key on the model of the configuration
    again; its server error is the error of the request.  More fuel
    changes nothing. *)
Lemma C6_retry_keeps_the_configured_model :
  exists call1 call2 c' m',
    executeStreamRequest 5 failsTwice primaryClient "gemini-2.5-pro" [hello]
      (Some "k1") noon
    = Some (BackendError serverDown, c')
    /\ calls c' = [call2; call1]
    /\ switches c' = 1
    /\ fallbackManager c' = Some m'
    /\ Manager.isInFallbackMode m' = true
    /\ Manager.getCurrentModel m' = "gemini-2.5-flash"
    /\ modelLog c' = ["gemini-2.5-flash"; "gemini-2.5-pro"]
    /\ usedModel call1 = "gemini-2.5-pro"
    /\ usedModel call2 = "gemini-2.5-pro"
    /\ generator call1 = WithApiKey "k1"
    /\ generator call2 = WithApiKey "k1".
Proof. eexists _, _, _, _. vm_compute. repeat split. Qed.

(** On a backend that fails twice, with two units of fuel. *)
Lemma C6_retry_once_witness :
  exists r c' newCalls,
    executeStreamRequest 2 failsTwice primaryClient "gemini-2.5-pro" [hello]
      (Some "k1") noon
    = Some (r, c')
    /\ calls c' = (newCalls ++ calls primaryClient)%list
    /\ length newCalls <= 2
    /\ switches c' <= S (switches primaryClient)
    /\ (forall call, In call newCalls ->
          generator call = generatorFor (Some "k1")
          /\ usedModel call = configModel primaryClient)
    /\ (forall call1,
          fst (prepare primaryClient [hello] (Some "k1")) = Some call1 ->
          last newCalls = Some call1)
    /\ (forall call1 error1 m,
          fst (prepare primaryClient [hello] (Some "k1")) = Some call1 ->
          failsTwice (length (calls primaryClient)) call1 = Some error1 ->
          fallbackManager primaryClient = Some m ->
          fst (Manager.shouldTriggerFallback m error1) = true ->
          switches c' = S (switches primaryClient)
          /\ (exists m' s,
                fallbackManager c' = Some m'
                /\ Manager.fallbackService m = Some s
                /\ Manager.getCurrentModel m' = fallbackModel (Fallback.state s)
                /\ modelLog c'
                   = fallbackModel (Fallback.state s)
                     :: Manager.getCurrentModel m :: modelLog primaryClient)
          /\ match fst (prepare primaryClient
                          (snd (prepare primaryClient [hello] (Some "k1")))
                          (Some "k1")) with
             | Some call2 =>
                 newCalls = [call2; call1]
                 /\ usedModel call2 = usedModel call1
                 /\ generator call2 = generator call1
                 /\ match failsTwice (S (length (calls primaryClient))) call2 with
                    | Some error2 => r = BackendError error2
                    | None => r = Stream call2
                    end
             | None =>
                 newCalls = [call1] /\ r = OtherError "No message to send."
             end)
    /\ (forall call1 call2, newCalls = [call2; call1] ->
          exists m error1,
            fallbackManager primaryClient = Some m
            /\ failsTwice (length (calls primaryClient)) call1 = Some error1
            /\ fst (Manager.shouldTriggerFallback m error1) = true).
Proof.
  apply (C6_retry_once_on_the_configured_model 2 failsTwice primaryClient
           "gemini-2.5-pro" [hello] (Some "k1") noon).
  lia.
Defined.

(** A system message before the user's, and a first call that meets a
    rate limit. *)
Lemma retry_loses_witness :
  exists call1,
    fst (prepare primaryClient ([] ++ beConcise :: [hello]) (Some "k1")) = Some call1
    /\ systemInstruction call1 = Some (openAIMessageToGemini beConcise)
    /\ (failsTwice (length (calls primaryClient)) call1 = Some slowDown ->
        fst (Manager.shouldTriggerFallback
               (Manager.mkFallbackManager defaultConfig
                  (Some (Fallback.newService defaultConfig "t0" None)) None)
               slowDown) = true ->
        exists r c',
          executeStreamRequest 2 failsTwice primaryClient "gemini-2.5-pro"
            ([] ++ beConcise :: [hello]) (Some "k1") noon = Some (r, c')
          /\ calls c'
             = mkBackendCall (generator call1) (usedModel call1) (history call1)
                 (lastMessage call1) None
               :: call1 :: calls primaryClient).
Proof.
  apply (retry_loses_the_system_instruction 2 failsTwice primaryClient
           (Manager.mkFallbackManager defaultConfig
              (Some (Fallback.newService defaultConfig "t0" None)) None)
           "gemini-2.5-pro" [] [hello] beConcise (Some "k1") noon slowDown).
  - lia.
  - reflexivity.
  - reflexivity.
  - repeat constructor; discriminate.
  - discriminate.
  - reflexivity.
Defined.

(** The first request of a client with three fresh keys. *)
Lemma request_is_counted_witness :
  exists r c' call m' k',
    sendMessageStream 1 alwaysOk rotatingClient "gemini-2.5-pro" [hello] noon
      (fun _ => 0) = Some (r, c')
    /\ calls c' = call :: calls rotatingClient
    /\ generator call = WithApiKey "k1"
    /\ rotationService c' = Some (mkRotationService (Some m') true)
    /\ Rotation.keys m' !! 0 = Some k'
    /\ Rotation.totalRequests m' = 1
    /\ Rotation.requestCount k' = 1
    /\ match alwaysOk (length (calls rotatingClient)) call with
       | None =>
           r = Stream call
           /\ Rotation.successCount k' = 1
           /\ Rotation.failureCount k' = 0
           /\ Rotation.consecutiveFailures k' = 0
       | Some error =>
           r = BackendError error
           /\ Rotation.successCount k' = 0
           /\ Rotation.failureCount k' = 1
           /\ Rotation.consecutiveFailures k' = 1
       end.
Proof.
  apply (request_is_counted_on_the_key_used 1 alwaysOk rotatingClient
           (mkRotationService (Some (started threeKeys)) true) (started threeKeys)
           (Rotation.freshKey "k1") "gemini-2.5-pro" [hello]
           (mkContent user_role [Text "hello"]) noon (fun _ => 0)).
  - reflexivity.
  - reflexivity.
  - reflexivity.
  - reflexivity.
  - reflexivity.
  - reflexivity.
  - discriminate.
  - reflexivity.
  - lia.
Defined.

End ClientScenarios.
